(** * membrane-api: the session-and-stream lifecycle coordinator

    A shallow embedding of [src/sessions.ts], [src/providers.ts], the
    request handlers of [src/server.ts] (the revision that tracks active
    streams) and [validateConfig] of [src/config.ts], followed by the
    properties of the session store, the active-stream registry, the
    streaming protocol, the credentials and the monitoring endpoints.

    Conventions of the embedding.
    - A JavaScript object that is shared and mutated in place lives in a
      heap: the [sessions] map holds references into [heap], the
      [activeStreams] map holds references into [controllers].  A handler
      that keeps a [session] variable keeps the reference.
    - [Date.now()] and [Math.random()] are read from oracles carried by the
      state; every call consumes one reading.
    - Handlers run in a state-and-exception monad; [try]/[catch]/[finally]
      is a combinator of that monad.
    - The invocation collaborator ([membrane.stream]) is described by what
      it did during one call: the callbacks it fired, in order, and how the
      call ended.  A handler is run in isolation: what other requests do
      while it is suspended at the [await] is outside the model.
    - Token counts and timestamps are integers ([Z]); other JSON numbers are
      rationals. *)

From Stdlib Require Import ZArith QArith.
From stdpp Require Import base option list strings gmap.

Local Open Scope string_scope.
Local Open Scope list_scope.
Local Open Scope Z_scope.
Set Warnings "-register-all".

(* ===================================================================== *)
(** ** JavaScript values *)
(* ===================================================================== *)

(** Untyped payloads ([unknown], request bodies that are cast and not
    validated, content blocks and tool calls of the collaborator). *)
Inductive JsValue : Type :=
  | JUndefined
  | JNull
  | JBool (b : bool)
  | JNum (q : Q)
  | JStr (s : string)
  | JArr (items : list JsValue)
  | JObj (props : list (string * JsValue)).

(** The value of [!!v]. *)
Definition truthy (v : JsValue) : bool :=
  match v with
  | JUndefined | JNull => false
  | JBool b => b
  | JNum q => negb (Qnum q =? 0)%Z
  | JStr s => negb (String.eqb s "")
  | JArr _ | JObj _ => true
  end.

(** [Array.isArray(v)]. *)
Definition Array_isArray (v : JsValue) : bool :=
  match v with JArr _ => true | _ => false end.

(** What a [throw] carries. [ErrorObject msg code] is an instance of
    [Error]; [code] is [Some c] exactly when ['code' in error].
    [NotAnError s] is any other thrown value, [s] being [String(error)]. *)
Inductive Thrown : Type :=
  | ErrorObject (message : string) (code : option JsValue)
  | NotAnError (rendered : string).

Inductive Result (A : Type) : Type :=
  | Ok (a : A)
  | Throw (e : Thrown).
Arguments Ok {A} a.
Arguments Throw {A} e.

Fixpoint assoc (k : string) (props : list (string * JsValue)) : JsValue :=
  match props with
  | [] => JUndefined
  | (k', v) :: rest => if String.eqb k k' then v else assoc k rest
  end.

(** The property read [v.k] for a key that no built-in prototype defines:
    it throws a [TypeError] on [undefined] and [null]. *)
Definition get_prop (k : string) (v : JsValue) : Result JsValue :=
  match v with
  | JUndefined =>
      Throw (ErrorObject ("Cannot read properties of undefined (reading '" +:+ k +:+ "')") None)
  | JNull =>
      Throw (ErrorObject ("Cannot read properties of null (reading '" +:+ k +:+ "')") None)
  | JObj props => Ok (assoc k props)
  | _ => Ok JUndefined
  end.

(** [n.toString(36)] for an integer. *)
Definition digit36 (d : N) : Ascii.ascii :=
  if (d <? 10)%N then Ascii.ascii_of_N (48 + d) else Ascii.ascii_of_N (87 + d).

Fixpoint toString36_digits (fuel : nat) (n : N) (acc : string) : string :=
  match fuel with
  | O => acc
  | S fuel' =>
      let acc' := String (digit36 (n mod 36)) acc in
      if (n / 36 =? 0)%N then acc' else toString36_digits fuel' (n / 36)%N acc'
  end.

Definition toString36 (z : Z) : string :=
  match z with
  | Z0 => "0"
  | Zpos p => toString36_digits (N.size_nat (Npos p)) (Npos p) ""
  | Zneg p => "-" +:+ toString36_digits (N.size_nat (Npos p)) (Npos p) ""
  end.

(* ===================================================================== *)
(** ** types.ts, config.ts and the collaborator's data *)
(* ===================================================================== *)

Definition ContentBlock := JsValue.
Definition ToolCall := JsValue.
Definition ProviderName := string.

(** [{ type: 'text', text }] *)
Definition text_block (text : string) : ContentBlock :=
  JObj [("type", JStr "text"); ("text", JStr text)].

(** [{ type: 'tool_result', toolUseId, content, isError }] *)
Definition tool_result_block (toolUseId content isError : JsValue) : ContentBlock :=
  JObj [("type", JStr "tool_result"); ("toolUseId", toolUseId);
        ("content", content); ("isError", isError)].

(** A tool result as the continuation handler builds it from the request
    body: the three properties are copied, whatever they are. *)
Record ToolResult : Type := mkToolResult {
  tr_toolUseId : JsValue;
  tr_content : JsValue;
  tr_isError : JsValue;
}.

(** [content: string | ContentBlock[]] of an incoming message. *)
Inductive MessageContent : Type :=
  | ContentString (s : string)
  | ContentBlocks (blocks : list ContentBlock).

(** MessageSchema *)
Record Message : Type := mkMessage {
  msg_participant : string;
  msg_content : MessageContent;
}.

(** A message of a normalized request. *)
Record NormalizedMessage : Type := mkNormalizedMessage {
  nm_participant : string;
  nm_content : list ContentBlock;
}.

(** ToolDefinitionSchema *)
Record ToolDefinition : Type := mkToolDefinition {
  td_name : string;
  td_description : string;
  td_inputSchema : JsValue;
}.

(** ProviderConfigSchema *)
Record ProviderConfig : Type := mkProviderConfig {
  pc_apiKey : option string;
  pc_baseUrl : option string;
  pc_organization : option string;
  pc_httpReferer : option string;
  pc_xTitle : option string;
  pc_accessKeyId : option string;
  pc_secretAccessKey : option string;
  pc_sessionToken : option string;
  pc_region : option string;
  pc_eotToken : option string;
  pc_stopSequences : option (list string);
}.

(** [{ formatter, retry }], handed to [createMembrane] and stored in the
    session; neither is inspected by the server. *)
Record CreateMembraneOptions : Type := mkCreateMembraneOptions {
  mo_formatter : JsValue;
  mo_retry : JsValue;
}.

(** The [continueFrom] object of CompletionRequestSchema. *)
Record ContinueFrom : Type := mkContinueFrom {
  cf_sessionId : string;
  cf_toolResults : list JsValue;
}.

(** CompletionRequestSchema, after a successful [safeParse].  [formatter]
    and [retry] are read by the handlers and kept as they come. *)
Record CompletionRequest : Type := mkCompletionRequest {
  cr_messages : list Message;
  cr_model : option string;
  cr_provider : option ProviderName;
  cr_maxTokens : option Z;
  cr_temperature : option Q;
  cr_system : option string;
  cr_tools : option (list ToolDefinition);
  cr_toolMode : option string;
  cr_thinking : JsValue;
  cr_stopSequences : option (list string);
  cr_promptCaching : option bool;
  cr_cacheTtl : option string;
  cr_maxParticipantsForStop : option Z;
  cr_continueFrom : option ContinueFrom;
  cr_providerParams : JsValue;
  cr_apiKey : option string;
  cr_providerConfig : option ProviderConfig;
  cr_formatter : JsValue;
  cr_retry : JsValue;
}.

(** The result of [CompletionRequestSchema.safeParse(request.body)]. *)
Inductive ParseResult : Type :=
  | ParseFailure (issues : JsValue)
  | ParseSuccess (data : CompletionRequest).

(** The [config] object of a normalized request. *)
Record GenerationConfig : Type := mkGenerationConfig {
  gc_model : string;
  gc_maxTokens : Z;
  gc_temperature : Q;
  gc_thinking : JsValue;
}.

Record NormalizedRequest : Type := mkNormalizedRequest {
  nr_messages : list NormalizedMessage;
  nr_system : option string;
  nr_tools : option (list ToolDefinition);
  nr_toolMode : option string;
  nr_config : GenerationConfig;
  nr_stopSequences : option (list string);
  nr_promptCaching : option bool;
  nr_cacheTtl : option string;
  nr_maxParticipantsForStop : option Z;
  nr_providerParams : JsValue;
}.

(** UsageInfo *)
Record UsageInfo : Type := mkUsageInfo {
  inputTokens : Z;
  outputTokens : Z;
  cacheCreationTokens : option Z;
  cacheReadTokens : option Z;
}.

(** The [usage] object of a session: [{ inputTokens, outputTokens }]. *)
Record SessionUsage : Type := mkSessionUsage {
  su_inputTokens : Z;
  su_outputTokens : Z;
}.

(** The collaborator's NormalizedResponse, as far as the server reads it. *)
Record NormalizedResponse : Type := mkNormalizedResponse {
  resp_content : list ContentBlock;
  resp_rawAssistantText : string;
  resp_toolCalls : list ToolCall;
  resp_toolResults : list ToolResult;
  resp_stopReason : string;
  resp_usage : UsageInfo;
  resp_model_actual : string;
}.

(** The collaborator's AbortedResponse; every field may be missing. *)
Record AbortedResponse : Type := mkAbortedResponse {
  ab_partialContent : option (list ContentBlock);
  ab_rawAssistantText : option string;
  ab_toolCalls : option (list ToolCall);
  ab_partialUsage : option UsageInfo;
}.

(** What [membrane.stream] resolves to; [isAbortedResponse] tells the two
    apart. *)
Inductive StreamResponse : Type :=
  | NormalResponse (r : NormalizedResponse)
  | Aborted (a : AbortedResponse).

Definition isAbortedResponse (r : StreamResponse) : bool :=
  match r with Aborted _ => true | NormalResponse _ => false end.

(** Config (config.ts), the fields read by the providers and the server. *)
Record Config : Type := mkConfig {
  cfg_anthropicApiKey : option string;
  cfg_openrouterApiKey : option string;
  cfg_openaiApiKey : option string;
  cfg_openaiBaseUrl : option string;
  cfg_openaiCompatibleApiKey : option string;
  cfg_openaiCompatibleBaseUrl : option string;
  cfg_openaiCompletionsApiKey : option string;
  cfg_openaiCompletionsBaseUrl : option string;
  cfg_bedrockAccessKeyId : option string;
  cfg_bedrockSecretAccessKey : option string;
  cfg_bedrockRegion : option string;
  cfg_defaultProvider : ProviderName;
  cfg_defaultModel : string;
  cfg_maxTokensLimit : Z;
  cfg_requestTimeoutMs : Z;
}.

(** CompletionResponse: the payload of a [done] event.  [requiresToolResults]
    is missing from the payload built for an aborted round; [context] is
    only set by the context-stream handler. *)
Record CompletionResponse : Type := mkCompletionResponse {
  cres_content : list ContentBlock;
  cres_rawAssistantText : string;
  cres_toolCalls : list ToolCall;
  cres_toolResults : list ToolResult;
  cres_stopReason : string;
  cres_usage : UsageInfo;
  cres_model : string;
  cres_provider : string;
  cres_durationMs : Z;
  cres_requiresToolResults : option bool;
  cres_context : option (JsValue * JsValue);
}.

(** StreamEvent, with [stream_start] and [pre_tool_content] as the handlers
    send them. *)
Inductive StreamEvent : Type :=
  | ev_stream_start (streamId : string)
  | ev_chunk (text type : string) (visible : bool) (blockIndex : Z)
  | ev_block_start (index : Z) (type : string)
  | ev_block_complete (index : Z) (type : string) (content : JsValue)
  | ev_pre_tool_content (text : string)
  | ev_tool_calls (calls : list ToolCall) (sessionId : string)
  | ev_usage (data : UsageInfo)
  | ev_done (data : CompletionResponse)
  | ev_error (code message : string) (retryable : bool).

(** Bodies of the replies that are not event streams. *)
Inductive ReplyBody : Type :=
  | body_error (code message : string) (retryable : bool) (details : JsValue)
  | body_aborted (streamId : string)
  | body_completion (data : CompletionResponse)
  | body_empty.

(** The reply object of the request being handled: [reply.code(..).send(..)]
    sets [rp_status] and [rp_body]; [reply.raw.writeHead], [reply.raw.write]
    and [reply.raw.end] set [rp_head], extend [rp_events] and set
    [rp_ended]. *)
Record Reply : Type := mkReply {
  rp_status : option Z;
  rp_body : option ReplyBody;
  rp_head : option Z;
  rp_events : list StreamEvent;
  rp_ended : bool;
}.

Definition fresh_reply : Reply :=
  {| rp_status := None; rp_body := None; rp_head := None;
     rp_events := []; rp_ended := false |}.

(* ===================================================================== *)
(** ** Server state *)
(* ===================================================================== *)

(** SessionState (sessions.ts) *)
Record SessionState : Type := mkSessionState {
  ss_id : string;
  ss_createdAt : Z;
  ss_expiresAt : Z;
  ss_provider : ProviderName;
  ss_apiKey : option string;
  ss_providerConfig : option ProviderConfig;
  ss_membraneOptions : option CreateMembraneOptions;
  ss_request : NormalizedRequest;
  ss_rawAssistantText : string;
  ss_contentBlocks : list ContentBlock;
  ss_toolCalls : list ToolCall;
  ss_executedToolResults : list ToolResult;
  ss_usage : SessionUsage;
}.

(** FallbackConfig (providers.ts) *)
Record FallbackConfig : Type := mkFallbackConfig {
  fb_anthropic_apiKey : option string;
  fb_openrouter_apiKey : option string;
  fb_openai_apiKey : option string;
  fb_openai_baseUrl : option string;
  fb_compatible_apiKey : option string;
  fb_compatible_baseUrl : option string;
  fb_completions_apiKey : option string;
  fb_completions_baseUrl : option string;
  fb_bedrock_accessKeyId : option string;
  fb_bedrock_secretAccessKey : option string;
  fb_bedrock_region : option string;
}.

(** ContextInput, the argument of the collaborator's [processContext]. *)
Record ContextInput : Type := mkContextInput {
  ci_messages : list NormalizedMessage;
  ci_system : option string;
  ci_tools : option (list ToolDefinition);
  ci_config : GenerationConfig;
  ci_context : JsValue;
}.

(** Ghost history of the calls the claims talk about; no handler reads it. *)
Inductive Effect : Type :=
  | Registered (streamId : string)
  | CalledStream (request : NormalizedRequest)
  | CalledComplete (request : NormalizedRequest)
  | CalledProcessContext (input : ContextInput).

(** The module-level state of sessions.ts, server.ts and providers.ts, the
    two oracles, the reply of the request in progress and the history. *)
Record State : Type := mkState {
  sessions : gmap string nat;
  heap : list SessionState;
  activeStreams : gmap string nat;
  controllers : list bool;
  fallbackConfig : FallbackConfig;
  providerHealth : gmap string (bool * Z);
  clock : nat -> Z;
  ticks : nat;
  random : nat -> string;
  draws : nat;
  reply : Reply;
  history : list Effect;
}.

Definition set_sessions (f : gmap string nat -> gmap string nat) (s : State) : State :=
  mkState (f (sessions s)) (heap s) (activeStreams s) (controllers s) (fallbackConfig s)
          (providerHealth s) (clock s) (ticks s) (random s) (draws s) (reply s) (history s).
Definition set_heap (f : list SessionState -> list SessionState) (s : State) : State :=
  mkState (sessions s) (f (heap s)) (activeStreams s) (controllers s) (fallbackConfig s)
          (providerHealth s) (clock s) (ticks s) (random s) (draws s) (reply s) (history s).
Definition set_activeStreams (f : gmap string nat -> gmap string nat) (s : State) : State :=
  mkState (sessions s) (heap s) (f (activeStreams s)) (controllers s) (fallbackConfig s)
          (providerHealth s) (clock s) (ticks s) (random s) (draws s) (reply s) (history s).
Definition set_controllers (f : list bool -> list bool) (s : State) : State :=
  mkState (sessions s) (heap s) (activeStreams s) (f (controllers s)) (fallbackConfig s)
          (providerHealth s) (clock s) (ticks s) (random s) (draws s) (reply s) (history s).
Definition set_providerHealth (f : gmap string (bool * Z) -> gmap string (bool * Z)) (s : State) : State :=
  mkState (sessions s) (heap s) (activeStreams s) (controllers s) (fallbackConfig s)
          (f (providerHealth s)) (clock s) (ticks s) (random s) (draws s) (reply s) (history s).
Definition set_ticks (f : nat -> nat) (s : State) : State :=
  mkState (sessions s) (heap s) (activeStreams s) (controllers s) (fallbackConfig s)
          (providerHealth s) (clock s) (f (ticks s)) (random s) (draws s) (reply s) (history s).
Definition set_draws (f : nat -> nat) (s : State) : State :=
  mkState (sessions s) (heap s) (activeStreams s) (controllers s) (fallbackConfig s)
          (providerHealth s) (clock s) (ticks s) (random s) (f (draws s)) (reply s) (history s).
Definition set_reply (f : Reply -> Reply) (s : State) : State :=
  mkState (sessions s) (heap s) (activeStreams s) (controllers s) (fallbackConfig s)
          (providerHealth s) (clock s) (ticks s) (random s) (draws s) (f (reply s)) (history s).
Definition set_history (f : list Effect -> list Effect) (s : State) : State :=
  mkState (sessions s) (heap s) (activeStreams s) (controllers s) (fallbackConfig s)
          (providerHealth s) (clock s) (ticks s) (random s) (draws s) (reply s) (f (history s)).

(* ===================================================================== *)
(** ** The monad of handlers *)
(* ===================================================================== *)

Definition M (A : Type) : Type := State -> Result A * State.

Definition ret {A} (a : A) : M A := fun s => (Ok a, s).

Definition bind {A B} (m : M A) (k : A -> M B) : M B :=
  fun s =>
    match m s with
    | (Ok a, s') => k a s'
    | (Throw e, s') => (Throw e, s')
    end.

Definition throw {A} (e : Thrown) : M A := fun s => (Throw e, s).

Definition lift {A} (r : Result A) : M A := fun s => (r, s).

Definition modify (f : State -> State) : M unit := fun s => (Ok tt, f s).

Definition gets {A} (f : State -> A) : M A := fun s => (Ok (f s), s).

Notation "x <- m ;; k" := (bind m (fun x => k))
  (at level 100, m at next level, right associativity).
Notation "m ;;; k" := (bind m (fun _ => k))
  (at level 100, right associativity).

(** [try { body } catch (error) { handler error } finally { final }]: the
    state reached by a throwing body is kept, the finalizer runs on every
    path, and what it throws replaces the earlier completion. *)
Definition try_catch_finally {A} (body : M A) (handler : Thrown -> M A) (final : M unit) : M A :=
  fun s =>
    let '(r1, s1) := body s in
    let '(r2, s2) := match r1 with
                     | Ok a => (Ok a, s1)
                     | Throw e => handler e s1
                     end in
    match final s2 with
    | (Ok _, s3) => (r2, s3)
    | (Throw e, s3) => (Throw e, s3)
    end.

(** [Date.now()] *)
Definition Date_now : M Z :=
  fun s => (Ok (clock s (ticks s)), set_ticks S s).

(** [Math.random().toString(36).slice(2, 10)] *)
Definition Math_random_suffix : M string :=
  fun s => (Ok (random s (draws s)), set_draws S s).

(* ===================================================================== *)
(** ** sessions.ts *)
(* ===================================================================== *)

(** The [state] argument of [createSession]. *)
Record SessionInit : Type := mkSessionInit {
  init_rawAssistantText : string;
  init_contentBlocks : list ContentBlock;
  init_toolCalls : list ToolCall;
  init_executedToolResults : list ToolResult;
  init_usage : SessionUsage;
}.

(** The [options] argument of [createSession]. *)
Record CreateSessionOptions : Type := mkCreateSessionOptions {
  opt_apiKey : option string;
  opt_providerConfig : option ProviderConfig;
  opt_membraneOptions : option CreateMembraneOptions;
  opt_ttlMs : option Z;
}.

(** The [updates] argument of [updateSession]: a key that is not given is
    [None]. *)
Record SessionUpdates : Type := mkSessionUpdates {
  upd_rawAssistantText : option string;
  upd_contentBlocks : option (list ContentBlock);
  upd_toolCalls : option (list ToolCall);
  upd_executedToolResults : option (list ToolResult);
  upd_usage : option SessionUsage;
}.

(** Reading through a reference to a session object. *)
Definition deref (l : nat) : M SessionState :=
  fun s =>
    match heap s !! l with
    | Some session => (Ok session, s)
    | None => (Throw (ErrorObject "dangling session reference" None), s)
    end.

(** Mutating the session object behind a reference, in place. *)
Definition mutate (l : nat) (f : SessionState -> SessionState) : M unit :=
  modify (set_heap (alter f l)).

Definition generateSessionId : M string :=
  now <- Date_now ;;
  r <- Math_random_suffix ;;
  ret ("sess_" +:+ toString36 now +:+ "_" +:+ r).

Definition default_ttlMs : Z := 5 * 60 * 1000.

Definition createSession (provider : ProviderName) (request : NormalizedRequest)
    (state : SessionInit) (options : CreateSessionOptions) : M nat :=
  let ttlMs := default default_ttlMs (opt_ttlMs options) in
  id <- generateSessionId ;;
  now <- Date_now ;;
  let session :=
    {| ss_id := id;
       ss_createdAt := now;
       ss_expiresAt := now + ttlMs;
       ss_provider := provider;
       ss_apiKey := opt_apiKey options;
       ss_providerConfig := opt_providerConfig options;
       ss_membraneOptions := opt_membraneOptions options;
       ss_request := request;
       ss_rawAssistantText := init_rawAssistantText state;
       ss_contentBlocks := init_contentBlocks state;
       ss_toolCalls := init_toolCalls state;
       ss_executedToolResults := init_executedToolResults state;
       ss_usage := init_usage state |} in
  l <- gets (fun s => length (heap s)) ;;
  modify (set_heap (fun h => h ++ [session])) ;;;
  modify (set_sessions (insert id l)) ;;;
  ret l.

Definition getSession (id : string) : M (option nat) :=
  found <- gets (fun s => sessions s !! id) ;;
  match found with
  | None => ret None
  | Some l =>
      session <- deref l ;;
      now <- Date_now ;;
      if ss_expiresAt session <? now
      then modify (set_sessions (delete id)) ;;; ret None
      else ret (Some l)
  end.

(** [Object.assign(session, updates)] *)
Definition Object_assign (session : SessionState) (updates : SessionUpdates) : SessionState :=
  {| ss_id := ss_id session;
     ss_createdAt := ss_createdAt session;
     ss_expiresAt := ss_expiresAt session;
     ss_provider := ss_provider session;
     ss_apiKey := ss_apiKey session;
     ss_providerConfig := ss_providerConfig session;
     ss_membraneOptions := ss_membraneOptions session;
     ss_request := ss_request session;
     ss_rawAssistantText := default (ss_rawAssistantText session) (upd_rawAssistantText updates);
     ss_contentBlocks := default (ss_contentBlocks session) (upd_contentBlocks updates);
     ss_toolCalls := default (ss_toolCalls session) (upd_toolCalls updates);
     ss_executedToolResults :=
       default (ss_executedToolResults session) (upd_executedToolResults updates);
     ss_usage := default (ss_usage session) (upd_usage updates) |}.

(** [session.expiresAt = v] *)
Definition with_expiresAt (v : Z) (session : SessionState) : SessionState :=
  {| ss_id := ss_id session;
     ss_createdAt := ss_createdAt session;
     ss_expiresAt := v;
     ss_provider := ss_provider session;
     ss_apiKey := ss_apiKey session;
     ss_providerConfig := ss_providerConfig session;
     ss_membraneOptions := ss_membraneOptions session;
     ss_request := ss_request session;
     ss_rawAssistantText := ss_rawAssistantText session;
     ss_contentBlocks := ss_contentBlocks session;
     ss_toolCalls := ss_toolCalls session;
     ss_executedToolResults := ss_executedToolResults session;
     ss_usage := ss_usage session |}.

Definition updateSession (id : string) (updates : SessionUpdates) : M (option nat) :=
  found <- getSession id ;;
  match found with
  | None => ret None
  | Some l =>
      mutate l (fun session => Object_assign session updates) ;;;
      now <- Date_now ;;
      mutate l (with_expiresAt (now + 5 * 60 * 1000)) ;;;
      ret (Some l)
  end.

Definition deleteSession (id : string) : M unit :=
  modify (set_sessions (delete id)).

Definition getSessionCount : M nat :=
  gets (fun s => size (sessions s)).

(** One run of the [setInterval] callback. *)
Definition expired_in (h : list SessionState) (now : Z) (l : nat) : bool :=
  match h !! l with
  | Some session => ss_expiresAt session <? now
  | None => false
  end.

Definition sweep : M unit :=
  now <- Date_now ;;
  modify (fun s => set_sessions (filter (fun kv => expired_in (heap s) now kv.2 = false)) s).

(* ===================================================================== *)
(** ** providers.ts *)
(* ===================================================================== *)

Inductive Adapter : Type :=
  | AnthropicAdapter (apiKey : string)
  | OpenRouterAdapter (apiKey : string) (httpReferer xTitle : option string)
  | OpenAIAdapter (apiKey : string) (baseURL organization : option string)
  | OpenAICompatibleAdapter (apiKey baseURL : string)
  | OpenAICompletionsAdapter (apiKey baseURL : string) (eotToken : option string)
      (extraStopSequences : option (list string))
  | BedrockAdapter (accessKeyId secretAccessKey : string) (sessionToken : option string)
      (region : string).

(** [new Membrane(adapter, { assistantParticipant: 'Claude' })]; the
    formatter and retry options are carried along. *)
Record Membrane : Type := mkMembrane {
  mb_adapter : Adapter;
  mb_assistantParticipant : string;
  mb_options : option CreateMembraneOptions;
}.

(** [a || b] on values that are a string, [null] or [undefined]. *)
Definition or_str (a b : option string) : option string :=
  match a with
  | Some x => if String.eqb x "" then b else Some x
  | None => b
  end.

(** The string behind a value that passed [if (!key) throw]. *)
Definition nonempty (a : option string) : option string := or_str a None.

Definition initializeProviders_fallback (config : Config) : FallbackConfig :=
  {| fb_anthropic_apiKey := cfg_anthropicApiKey config;
     fb_openrouter_apiKey := cfg_openrouterApiKey config;
     fb_openai_apiKey := cfg_openaiApiKey config;
     fb_openai_baseUrl := cfg_openaiBaseUrl config;
     fb_compatible_apiKey := cfg_openaiCompatibleApiKey config;
     fb_compatible_baseUrl := cfg_openaiCompatibleBaseUrl config;
     fb_completions_apiKey := cfg_openaiCompletionsApiKey config;
     fb_completions_baseUrl := cfg_openaiCompletionsBaseUrl config;
     fb_bedrock_accessKeyId := cfg_bedrockAccessKeyId config;
     fb_bedrock_secretAccessKey := cfg_bedrockSecretAccessKey config;
     fb_bedrock_region := cfg_bedrockRegion config |}.

Definition no_key (message : string) : Result Adapter :=
  Throw (ErrorObject message None).

Definition createAdapter (fb : FallbackConfig) (provider : ProviderName)
    (apiKey : option string) (config : option ProviderConfig) : Result Adapter :=
  if String.eqb provider "anthropic" then
    match nonempty (or_str apiKey (or_str (config ≫= pc_apiKey) (fb_anthropic_apiKey fb))) with
    | None => no_key "No API key for Anthropic. Provide apiKey in request or configure ANTHROPIC_API_KEY."
    | Some key => Ok (AnthropicAdapter key)
    end
  else if String.eqb provider "openrouter" then
    match nonempty (or_str apiKey (or_str (config ≫= pc_apiKey) (fb_openrouter_apiKey fb))) with
    | None => no_key "No API key for OpenRouter. Provide apiKey in request or configure OPENROUTER_API_KEY."
    | Some key => Ok (OpenRouterAdapter key (config ≫= pc_httpReferer) (config ≫= pc_xTitle))
    end
  else if String.eqb provider "openai" then
    match nonempty (or_str apiKey (or_str (config ≫= pc_apiKey) (fb_openai_apiKey fb))) with
    | None => no_key "No API key for OpenAI. Provide apiKey in request or configure OPENAI_API_KEY."
    | Some key =>
        Ok (OpenAIAdapter key (or_str (config ≫= pc_baseUrl) (fb_openai_baseUrl fb))
              (config ≫= pc_organization))
    end
  else if String.eqb provider "openai-compatible" then
    let key := or_str apiKey (or_str (config ≫= pc_apiKey) (fb_compatible_apiKey fb)) in
    match nonempty (or_str (config ≫= pc_baseUrl) (fb_compatible_baseUrl fb)) with
    | None => no_key "No baseUrl for OpenAI-Compatible. Provide providerConfig.baseUrl in request or configure OPENAI_COMPATIBLE_BASE_URL."
    | Some baseUrl =>
        Ok (OpenAICompatibleAdapter (default "not-needed" (nonempty key)) baseUrl)
    end
  else if String.eqb provider "openai-completions" then
    let key := or_str apiKey (or_str (config ≫= pc_apiKey) (fb_completions_apiKey fb)) in
    match nonempty (or_str (config ≫= pc_baseUrl) (fb_completions_baseUrl fb)) with
    | None => no_key "No baseUrl for OpenAI-Completions. Provide providerConfig.baseUrl in request or configure OPENAI_COMPLETIONS_BASE_URL."
    | Some baseUrl =>
        Ok (OpenAICompletionsAdapter (default "not-needed" (nonempty key)) baseUrl
              (config ≫= pc_eotToken) (config ≫= pc_stopSequences))
    end
  else if String.eqb provider "bedrock" then
    let accessKeyId := or_str (config ≫= pc_accessKeyId) (fb_bedrock_accessKeyId fb) in
    let secretAccessKey := or_str (config ≫= pc_secretAccessKey) (fb_bedrock_secretAccessKey fb) in
    let region :=
      default "us-west-2" (nonempty (or_str (config ≫= pc_region) (fb_bedrock_region fb))) in
    match nonempty accessKeyId, nonempty secretAccessKey with
    | Some a, Some k => Ok (BedrockAdapter a k (config ≫= pc_sessionToken) region)
    | _, _ => no_key "No AWS credentials for Bedrock. Provide providerConfig.accessKeyId and secretAccessKey, or configure AWS_ACCESS_KEY_ID and AWS_SECRET_ACCESS_KEY."
    end
  else Throw (ErrorObject ("Unknown provider: " +:+ provider) None).

(** [createMembrane], called by server.ts with the formatter and retry
    options as a fourth argument; they go to the instance as they come. *)
Definition createMembrane (provider : ProviderName) (apiKey : option string)
    (providerConfig : option ProviderConfig) (options : option CreateMembraneOptions)
    : M Membrane :=
  fb <- gets fallbackConfig ;;
  adapter <- lift (createAdapter fb provider apiKey providerConfig) ;;
  ret {| mb_adapter := adapter; mb_assistantParticipant := "Claude"; mb_options := options |}.

Definition updateProviderHealth (provider : ProviderName) (healthy : bool) : M unit :=
  now <- Date_now ;;
  modify (set_providerHealth (insert provider (healthy, now))).

(** [fallbackConfig = ..] *)
Definition set_fallbackConfig (f : FallbackConfig -> FallbackConfig) (s : State) : State :=
  mkState (sessions s) (heap s) (activeStreams s) (controllers s) (f (fallbackConfig s))
          (providerHealth s) (clock s) (ticks s) (random s) (draws s) (reply s) (history s).

(** [!!a] on a value that is a string, [null] or [undefined]. *)
Definition truthy_str (a : option string) : bool :=
  match nonempty a with
  | Some _ => true
  | None => false
  end.

Definition hasServerKey (fb : FallbackConfig) (provider : ProviderName) : bool :=
  if String.eqb provider "anthropic" then truthy_str (fb_anthropic_apiKey fb)
  else if String.eqb provider "openrouter" then truthy_str (fb_openrouter_apiKey fb)
  else if String.eqb provider "openai" then truthy_str (fb_openai_apiKey fb)
  else if String.eqb provider "openai-compatible" then truthy_str (fb_compatible_baseUrl fb)
  else if String.eqb provider "openai-completions" then truthy_str (fb_completions_baseUrl fb)
  else if String.eqb provider "bedrock" then
    truthy_str (fb_bedrock_accessKeyId fb) && truthy_str (fb_bedrock_secretAccessKey fb)
  else false.

(** [for (const x of items) { body x }] *)
Fixpoint for_of {A : Type} (items : list A) (body : A -> M unit) : M unit :=
  match items with
  | [] => ret tt
  | x :: rest => body x ;;; for_of rest body
  end.

(** The body of the loop of [initializeProviders]. *)
Definition track_if_configured (provider : ProviderName) : M unit :=
  fb <- gets fallbackConfig ;;
  if hasServerKey fb provider then
    now <- Date_now ;;
    modify (set_providerHealth (insert provider (true, now)))
  else ret tt.

Definition initializeProviders (config : Config) : M unit :=
  modify (set_fallbackConfig (fun _ => initializeProviders_fallback config)) ;;;
  let providers :=
    ["anthropic"; "openrouter"; "openai"; "openai-compatible"; "openai-completions"; "bedrock"] in
  for_of providers track_if_configured.

(** The result of [getProviderHealth]. *)
Record ProviderHealthStatus : Type := mkProviderHealthStatus {
  ph_configured : bool;
  ph_healthy : bool;
}.

Definition getProviderHealth (provider : ProviderName) : M ProviderHealthStatus :=
  health <- gets (fun s => providerHealth s !! provider) ;;
  match health with
  | None => ret {| ph_configured := false; ph_healthy := true |}
  | Some health => ret {| ph_configured := true; ph_healthy := health.1 |}
  end.

Definition getConfiguredProviders : M (list ProviderName) :=
  let providers :=
    ["anthropic"; "openrouter"; "openai"; "openai-compatible"; "openai-completions"; "bedrock"] in
  fb <- gets fallbackConfig ;;
  ret (List.filter (hasServerKey fb) providers).

Definition getAvailableProviders : list ProviderName :=
  ["anthropic"; "openrouter"; "openai"; "openai-compatible"; "openai-completions"; "bedrock"].

(* ===================================================================== *)
(** ** server.ts: helpers *)
(* ===================================================================== *)

Definition generateStreamId : M string :=
  now <- Date_now ;;
  r <- Math_random_suffix ;;
  ret ("str_" +:+ toString36 now +:+ "_" +:+ r).

Definition cleanupStream (streamId : string) : M unit :=
  modify (set_activeStreams (delete streamId)).

(** [new AbortController()]: a fresh controller whose signal is not
    aborted. *)
Definition new_AbortController : M nat :=
  c <- gets (fun s => length (controllers s)) ;;
  modify (set_controllers (fun cs => cs ++ [false])) ;;;
  ret c.

(** [activeStreams.set(streamId, abortController)] *)
Definition activeStreams_set (streamId : string) (abortController : nat) : M unit :=
  modify (set_history (fun h => h ++ [Registered streamId])) ;;;
  modify (set_activeStreams (insert streamId abortController)).

(** The registration lines of the three streaming handlers:
    [const abortController = new AbortController();
     activeStreams.set(streamId, abortController);] *)
Definition register (streamId : string) : M nat :=
  abortController <- new_AbortController ;;
  activeStreams_set streamId abortController ;;;
  ret abortController.

(** [controller.abort()] *)
Definition AbortController_abort (controller : nat) : M unit :=
  modify (set_controllers (alter (fun _ => true) controller)).

(** [reply.code(status).send(body)] *)
Definition reply_code_send (status : Z) (body : ReplyBody) : M unit :=
  modify (set_reply (fun r =>
    mkReply (Some status) (Some body) (rp_head r) (rp_events r) (rp_ended r))).

(** [reply.send(body)] *)
Definition reply_send (body : ReplyBody) : M unit :=
  modify (set_reply (fun r =>
    mkReply (rp_status r) (Some body) (rp_head r) (rp_events r) (rp_ended r))).

(** [reply.raw.writeHead(status, headers)] *)
Definition writeHead (status : Z) : M unit :=
  modify (set_reply (fun r =>
    mkReply (rp_status r) (rp_body r) (Some status) (rp_events r) (rp_ended r))).

(** [sendEvent(event)] *)
Definition sendEvent (event : StreamEvent) : M unit :=
  modify (set_reply (fun r =>
    mkReply (rp_status r) (rp_body r) (rp_head r) (rp_events r ++ [event]) (rp_ended r))).

(** [reply.raw.end()] *)
Definition raw_end : M unit :=
  modify (set_reply (fun r =>
    mkReply (rp_status r) (rp_body r) (rp_head r) (rp_events r) true)).

Definition normalize_message (m : Message) : NormalizedMessage :=
  {| nm_participant := msg_participant m;
     nm_content := match msg_content m with
                   | ContentString text => [text_block text]
                   | ContentBlocks blocks => blocks
                   end |}.

Definition normalize_tool (t : ToolDefinition) : ToolDefinition :=
  {| td_name := td_name t; td_description := td_description t;
     td_inputSchema := td_inputSchema t |}.

(** [Math.min] on integers. *)
Definition Math_min (a b : Z) : Z := if a <? b then a else b.

Definition buildNormalizedRequest (req : CompletionRequest) (config : Config) : NormalizedRequest :=
  let messages := map normalize_message (cr_messages req) in
  let tools := map normalize_tool <$> cr_tools req in
  {| nr_messages := messages;
     nr_system := cr_system req;
     nr_tools := tools;
     nr_toolMode := cr_toolMode req;
     nr_config :=
       {| gc_model := default (cfg_defaultModel config) (cr_model req);
          gc_maxTokens := Math_min (default 4096 (cr_maxTokens req)) (cfg_maxTokensLimit config);
          gc_temperature := default (1 # 1)%Q (cr_temperature req);
          gc_thinking := cr_thinking req |};
     nr_stopSequences := cr_stopSequences req;
     nr_promptCaching := cr_promptCaching req;
     nr_cacheTtl := cr_cacheTtl req;
     nr_maxParticipantsForStop := cr_maxParticipantsForStop req;
     nr_providerParams := cr_providerParams req |}.

(** [toolCalls.length > 0 && stopReason === 'tool_use'] *)
Definition wants_tools (response : NormalizedResponse) : bool :=
  (0 <? Z.of_nat (length (resp_toolCalls response))) && String.eqb (resp_stopReason response) "tool_use".

Definition buildCompletionResponse (response : NormalizedResponse) (provider : string)
    (durationMs : Z) : CompletionResponse :=
  {| cres_content := resp_content response;
     cres_rawAssistantText := resp_rawAssistantText response;
     cres_toolCalls := resp_toolCalls response;
     cres_toolResults :=
       map (fun r => mkToolResult (tr_toolUseId r) (tr_content r) (tr_isError r))
           (resp_toolResults response);
     cres_stopReason := resp_stopReason response;
     cres_usage := resp_usage response;
     cres_model := resp_model_actual response;
     cres_provider := provider;
     cres_durationMs := durationMs;
     cres_requiresToolResults := Some (wants_tools response);
     cres_context := None |}.

(** The [done] payload of an aborted round. *)
Definition aborted_payload (aborted : AbortedResponse) (model provider : string)
    (durationMs : Z) (context : option (JsValue * JsValue)) : CompletionResponse :=
  {| cres_content := default [] (ab_partialContent aborted);
     cres_rawAssistantText := default "" (ab_rawAssistantText aborted);
     cres_toolCalls := default [] (ab_toolCalls aborted);
     cres_toolResults := [];
     cres_stopReason := "end_turn";
     cres_usage := default (mkUsageInfo 0 0 None None) (ab_partialUsage aborted);
     cres_model := model;
     cres_provider := provider;
     cres_durationMs := durationMs;
     cres_requiresToolResults := None;
     cres_context := context |}.

Record ErrorInfo : Type := mkErrorInfo {
  ei_code : string;
  ei_message : string;
  ei_retryable : bool;
}.

Definition retryable_code (code : JsValue) : bool :=
  match code with
  | JStr c => String.eqb c "rate_limit" || String.eqb c "overloaded" || String.eqb c "timeout"
  | _ => false
  end.

Definition parseError (error : Thrown) : ErrorInfo :=
  match error with
  | ErrorObject message (Some code) =>
      {| ei_code := match code with JStr c => c | _ => "unknown_error" end;
         ei_message := message;
         ei_retryable := retryable_code code |}
  | ErrorObject message None =>
      {| ei_code := "internal_error"; ei_message := message; ei_retryable := false |}
  | NotAnError rendered =>
      {| ei_code := "unknown_error"; ei_message := rendered; ei_retryable := false |}
  end.

Definition error_event (info : ErrorInfo) : StreamEvent :=
  ev_error (ei_code info) (ei_message info) (ei_retryable info).

Definition handleError (error : Thrown) : M unit :=
  let errorInfo := parseError error in
  let statusCode :=
    if String.eqb (ei_code errorInfo) "rate_limit" then 429
    else if String.eqb (ei_code errorInfo) "unauthorized" then 401
    else if String.eqb (ei_code errorInfo) "invalid_request" then 400
    else if String.eqb (ei_code errorInfo) "not_found" then 404
    else 500 in
  reply_code_send statusCode
    (body_error (ei_code errorInfo) (ei_message errorInfo) (ei_retryable errorInfo) JUndefined).

(* ===================================================================== *)
(** ** server.ts: the invocation collaborator *)
(* ===================================================================== *)

(** The [meta] argument of [onChunk]. *)
Record ChunkMeta : Type := mkChunkMeta {
  meta_type : option string;
  meta_visible : option bool;
  meta_blockIndex : option Z;
}.

(** The argument of [onBlock]; [be_content] is [Some c] exactly when
    ['content' in blockEvent.block]. *)
Record BlockEvent : Type := mkBlockEvent {
  be_event : string;
  be_index : Z;
  be_type : string;
  be_content : option JsValue;
}.

Inductive Callback : Type :=
  | OnChunk (chunk : string) (meta : ChunkMeta)
  | OnBlock (blockEvent : BlockEvent)
  | OnPreToolContent (content : string)
  | OnUsage (usage : UsageInfo).

(** One call of [membrane.stream]: the callbacks fired before the call
    settled, and whether it resolved or rejected. *)
Record StreamRun : Type := mkStreamRun {
  sr_callbacks : list Callback;
  sr_outcome : Result StreamResponse;
}.

(** One call of [processContext]; it resolves to
    [{ response, state, info }]. *)
Record ContextRun : Type := mkContextRun {
  xr_callbacks : list Callback;
  xr_outcome : Result (StreamResponse * JsValue * JsValue);
}.

Fixpoint fire {L : Type} (on : L -> Callback -> M L) (callbacks : list Callback)
    (locals : L) : M L :=
  match callbacks with
  | [] => ret locals
  | cb :: rest => locals' <- on locals cb ;; fire on rest locals'
  end.

(** [await membrane.stream(request, { ..callbacks })] *)
Definition membrane_stream {L : Type} (request : NormalizedRequest) (run : StreamRun)
    (on : L -> Callback -> M L) (locals : L) : M (L * StreamResponse) :=
  modify (set_history (fun h => h ++ [CalledStream request])) ;;;
  locals' <- fire on (sr_callbacks run) locals ;;
  response <- lift (sr_outcome run) ;;
  ret (locals', response).

(** [await membrane.complete(request, { timeoutMs })] *)
Definition membrane_complete (request : NormalizedRequest)
    (outcome : Result NormalizedResponse) : M NormalizedResponse :=
  modify (set_history (fun h => h ++ [CalledComplete request])) ;;;
  lift outcome.

(** [await processContext(membrane, contextInput, contextState, { .. })] *)
Definition processContext (input : ContextInput) (run : ContextRun)
    (on : unit -> Callback -> M unit) : M (StreamResponse * JsValue * JsValue) :=
  modify (set_history (fun h => h ++ [CalledProcessContext input])) ;;;
  fire on (xr_callbacks run) tt ;;;
  lift (xr_outcome run).

(** The [onBlock] callback shared by the two streaming handlers. *)
Definition onBlock (blockEvent : BlockEvent) : M unit :=
  if String.eqb (be_event blockEvent) "block_start" then
    sendEvent (ev_block_start (be_index blockEvent) (be_type blockEvent))
  else if String.eqb (be_event blockEvent) "block_complete" then
    sendEvent (ev_block_complete (be_index blockEvent) (be_type blockEvent)
                 (default JUndefined (be_content blockEvent)))
  else ret tt.

Definition chunk_event (chunk : string) (meta : ChunkMeta) : StreamEvent :=
  ev_chunk chunk (default "text" (meta_type meta)) (default true (meta_visible meta))
           (default 0 (meta_blockIndex meta)).

(** The mutable locals of the fresh-stream handler that the callbacks
    write: [rawAssistantText] and [totalUsage]. *)
Record StreamLocals : Type := mkStreamLocals {
  loc_rawAssistantText : string;
  loc_totalUsage : UsageInfo;
}.

(** Callbacks of POST /v1/stream. *)
Definition stream_callbacks (locals : StreamLocals) (cb : Callback) : M StreamLocals :=
  match cb with
  | OnChunk chunk meta =>
      sendEvent (chunk_event chunk meta) ;;;
      ret (mkStreamLocals (loc_rawAssistantText locals +:+ chunk) (loc_totalUsage locals))
  | OnBlock blockEvent => onBlock blockEvent ;;; ret locals
  | OnPreToolContent content => sendEvent (ev_pre_tool_content content) ;;; ret locals
  | OnUsage usage =>
      sendEvent (ev_usage usage) ;;;
      ret (mkStreamLocals (loc_rawAssistantText locals) usage)
  end.

(** Callbacks of POST /v1/continue. *)
Definition continue_callbacks (_ : unit) (cb : Callback) : M unit :=
  match cb with
  | OnChunk chunk meta => sendEvent (chunk_event chunk meta)
  | OnBlock blockEvent => onBlock blockEvent
  | OnPreToolContent content => sendEvent (ev_pre_tool_content content)
  | OnUsage usage => sendEvent (ev_usage usage)
  end.

(** Callbacks of POST /v1/context/stream; no [onBlock] is passed. *)
Definition context_callbacks (_ : unit) (cb : Callback) : M unit :=
  match cb with
  | OnChunk chunk _ => sendEvent (ev_chunk chunk "text" true 0)
  | OnBlock _ => ret tt
  | OnPreToolContent content => sendEvent (ev_pre_tool_content content)
  | OnUsage usage => sendEvent (ev_usage usage)
  end.

(* ===================================================================== *)
(** ** server.ts: the handlers *)
(* ===================================================================== *)

Definition invalid_body (issues : JsValue) : M unit :=
  reply_code_send 400 (body_error "invalid_request" "Invalid request body" false issues).

Definition session_usage (usage : UsageInfo) : SessionUsage :=
  mkSessionUsage (inputTokens usage) (outputTokens usage).

Definition membrane_options (req : CompletionRequest) : option CreateMembraneOptions :=
  Some (mkCreateMembraneOptions (cr_formatter req) (cr_retry req)).

Definition use_continue_endpoint : StreamEvent :=
  ev_error "use_continue_endpoint"
    "To continue with tool results, use POST /v1/continue with sessionId and toolResults"
    false.

(** POST /v1/complete *)
Definition complete_handler (config : Config) (parseResult : ParseResult)
    (outcome : Result NormalizedResponse) : M unit :=
  match parseResult with
  | ParseFailure issues => invalid_body issues
  | ParseSuccess req =>
      let provider := default (cfg_defaultProvider config) (cr_provider req) in
      try_catch_finally
        (membrane <- createMembrane provider (cr_apiKey req) (cr_providerConfig req)
                       (membrane_options req) ;;
         let normalizedRequest := buildNormalizedRequest req config in
         startMs <- Date_now ;;
         response <- membrane_complete normalizedRequest outcome ;;
         updateProviderHealth provider true ;;;
         now <- Date_now ;;
         reply_send (body_completion (buildCompletionResponse response provider (now - startMs))))
        (fun error => updateProviderHealth provider false ;;; handleError error)
        (ret tt)
  end.

(** POST /v1/stream *)
Definition stream_handler (config : Config) (parseResult : ParseResult)
    (run : StreamRun) : M unit :=
  match parseResult with
  | ParseFailure issues => invalid_body issues
  | ParseSuccess req =>
      let provider := default (cfg_defaultProvider config) (cr_provider req) in
      streamId <- generateStreamId ;;
      abortController <- register streamId ;;
      writeHead 200 ;;;
      sendEvent (ev_stream_start streamId) ;;;
      try_catch_finally
        (membrane <- createMembrane provider (cr_apiKey req) (cr_providerConfig req)
                       (membrane_options req) ;;
         let normalizedRequest := buildNormalizedRequest req config in
         startMs <- Date_now ;;
         match cr_continueFrom req with
         | Some _ =>
             sendEvent use_continue_endpoint ;;;
             raw_end ;;;
             cleanupStream streamId
         | None =>
             streamed <- membrane_stream normalizedRequest run stream_callbacks
                           (mkStreamLocals "" (mkUsageInfo 0 0 None None)) ;;
             let response := streamed.2 in
             updateProviderHealth provider true ;;;
             match response with
             | NormalResponse normalResponse =>
                 (if wants_tools normalResponse then
                    session <- createSession provider normalizedRequest
                                 {| init_rawAssistantText := resp_rawAssistantText normalResponse;
                                    init_contentBlocks := resp_content normalResponse;
                                    init_toolCalls := resp_toolCalls normalResponse;
                                    init_executedToolResults := [];
                                    init_usage := session_usage (resp_usage normalResponse) |}
                                 {| opt_apiKey := cr_apiKey req;
                                    opt_providerConfig := cr_providerConfig req;
                                    opt_membraneOptions := membrane_options req;
                                    opt_ttlMs := None |} ;;
                    created <- deref session ;;
                    sendEvent (ev_tool_calls (resp_toolCalls normalResponse) (ss_id created))
                  else ret tt) ;;;
                 now <- Date_now ;;
                 sendEvent (ev_done (buildCompletionResponse normalResponse provider (now - startMs)))
             | Aborted aborted =>
                 now <- Date_now ;;
                 sendEvent (ev_done (aborted_payload aborted
                                       (default (cfg_defaultModel config) (cr_model req))
                                       provider (now - startMs) None))
             end
         end)
        (fun error =>
           updateProviderHealth provider false ;;;
           sendEvent (error_event (parseError error)))
        (cleanupStream streamId ;;; raw_end)
  end.

(** What POST /v1/continue reads from its body.  The body is cast, not
    validated: the two properties can hold any value, [JUndefined] when
    the property is missing.  The reads themselves are made by
    [continue_endpoint] below; they fail on a body that is [null] or
    missing. *)
Record ContinueBody : Type := mkContinueBody {
  body_sessionId : JsValue;
  body_toolResults : JsValue;
}.

(** [r => ({ toolUseId: r.toolUseId, content: r.content, isError: r.isError })] *)
Definition to_toolResult (r : JsValue) : Result ToolResult :=
  match get_prop "toolUseId" r with
  | Throw e => Throw e
  | Ok toolUseId =>
      match get_prop "content" r with
      | Throw e => Throw e
      | Ok content =>
          match get_prop "isError" r with
          | Throw e => Throw e
          | Ok isError => Ok (mkToolResult toolUseId content isError)
          end
      end
  end.

(** [items.map(to_toolResult)]; the first element that throws ends it. *)
Fixpoint map_toolResults (items : list JsValue) : Result (list ToolResult) :=
  match items with
  | [] => Ok []
  | r :: rest =>
      match to_toolResult r with
      | Throw e => Throw e
      | Ok t =>
          match map_toolResults rest with
          | Throw e => Throw e
          | Ok ts => Ok (t :: ts)
          end
      end
  end.

(** [session.executedToolResults.push(...toolResults)] *)
Definition push_executedToolResults (toolResults : list ToolResult)
    (session : SessionState) : SessionState :=
  {| ss_id := ss_id session;
     ss_createdAt := ss_createdAt session;
     ss_expiresAt := ss_expiresAt session;
     ss_provider := ss_provider session;
     ss_apiKey := ss_apiKey session;
     ss_providerConfig := ss_providerConfig session;
     ss_membraneOptions := ss_membraneOptions session;
     ss_request := ss_request session;
     ss_rawAssistantText := ss_rawAssistantText session;
     ss_contentBlocks := ss_contentBlocks session;
     ss_toolCalls := ss_toolCalls session;
     ss_executedToolResults := ss_executedToolResults session ++ toolResults;
     ss_usage := ss_usage session |}.

(** [{ ...request, messages }] *)
Definition with_messages (request : NormalizedRequest) (messages : list NormalizedMessage)
    : NormalizedRequest :=
  {| nr_messages := messages;
     nr_system := nr_system request;
     nr_tools := nr_tools request;
     nr_toolMode := nr_toolMode request;
     nr_config := nr_config request;
     nr_stopSequences := nr_stopSequences request;
     nr_promptCaching := nr_promptCaching request;
     nr_cacheTtl := nr_cacheTtl request;
     nr_maxParticipantsForStop := nr_maxParticipantsForStop request;
     nr_providerParams := nr_providerParams request |}.

(** The request of a continuation round: the stored messages, then the
    assistant turn with the stored content blocks, then one user turn with
    the tool results. *)
Definition continuedRequest (session : SessionState) (toolResults : list ToolResult)
    : NormalizedRequest :=
  with_messages (ss_request session)
    (nr_messages (ss_request session)
     ++ [ {| nm_participant := "Claude"; nm_content := ss_contentBlocks session |};
          {| nm_participant := "User";
             nm_content :=
               map (fun r => tool_result_block (tr_toolUseId r) (tr_content r) (tr_isError r))
                   toolResults |} ]).

(** The updates a continuation round passes to [updateSession]. *)
Definition round_updates (session : SessionState) (normalResponse : NormalizedResponse)
    : SessionUpdates :=
  {| upd_rawAssistantText :=
       Some (ss_rawAssistantText session +:+ resp_rawAssistantText normalResponse);
     upd_contentBlocks := Some (resp_content normalResponse);
     upd_toolCalls := Some (resp_toolCalls normalResponse);
     upd_executedToolResults := None;
     upd_usage :=
       Some {| su_inputTokens :=
                 su_inputTokens (ss_usage session) + inputTokens (resp_usage normalResponse);
               su_outputTokens :=
                 su_outputTokens (ss_usage session) + outputTokens (resp_usage normalResponse) |} |}.

(** POST /v1/continue, after the [await]: what the handler does with the
    settled response.  [session] is the object that [getSession] returned,
    [startMs] the time read just before the invocation. *)
Definition continue_settle (sessionId : string) (session : nat) (startMs : Z)
    (response : StreamResponse) : M unit :=
  stored <- deref session ;;
  updateProviderHealth (ss_provider stored) true ;;;
  match response with
  | NormalResponse normalResponse =>
      (if wants_tools normalResponse then
         stored <- deref session ;;
         updateSession sessionId (round_updates stored normalResponse) ;;;
         sendEvent (ev_tool_calls (resp_toolCalls normalResponse) sessionId)
       else deleteSession sessionId) ;;;
      stored <- deref session ;;
      now <- Date_now ;;
      sendEvent (ev_done (buildCompletionResponse normalResponse (ss_provider stored)
                            (now - startMs)))
  | Aborted aborted =>
      deleteSession sessionId ;;;
      stored <- deref session ;;
      now <- Date_now ;;
      sendEvent (ev_done (aborted_payload aborted (gc_model (nr_config (ss_request stored)))
                            (ss_provider stored) (now - startMs) None))
  end.

(** POST /v1/continue, the [try] block: up to the [await], then
    [continue_settle]. [items] are the elements of [body.toolResults]. *)
Definition continue_invoke (sessionId : string) (session : nat) (items : list JsValue)
    (run : StreamRun) : M unit :=
  stored <- deref session ;;
  membrane <- createMembrane (ss_provider stored) (ss_apiKey stored)
                (ss_providerConfig stored) (ss_membraneOptions stored) ;;
  toolResults <- lift (map_toolResults items) ;;
  mutate session (push_executedToolResults toolResults) ;;;
  stored <- deref session ;;
  let request := continuedRequest stored toolResults in
  startMs <- Date_now ;;
  streamed <- membrane_stream request run continue_callbacks tt ;;
  continue_settle sessionId session startMs streamed.2.

(** The part of POST /v1/continue that follows a successful session
    lookup; [sessionId] is [body.sessionId]. *)
Definition continue_round (sessionId : string) (session : nat) (items : list JsValue)
    (run : StreamRun) : M unit :=
  streamId <- generateStreamId ;;
  abortController <- register streamId ;;
  writeHead 200 ;;;
  sendEvent (ev_stream_start streamId) ;;;
  try_catch_finally
    (continue_invoke sessionId session items run)
    (fun error =>
       stored <- deref session ;;
       updateProviderHealth (ss_provider stored) false ;;;
       sendEvent (error_event (parseError error)))
    (cleanupStream streamId ;;; raw_end).

(** POST /v1/continue, from the two properties of the body.
    [sessions.get] finds nothing under a key that is not a string. *)
Definition continue_handler (body : ContinueBody) (run : StreamRun) : M unit :=
  if negb (truthy (body_sessionId body)) || negb (Array_isArray (body_toolResults body)) then
    reply_code_send 400
      (body_error "invalid_request" "sessionId and toolResults are required" false JUndefined)
  else
    session <- match body_sessionId body with
               | JStr id => getSession id
               | _ => ret None
               end ;;
    match session, body_sessionId body, body_toolResults body with
    | Some session, JStr sessionId, JArr items => continue_round sessionId session items run
    | _, _, _ =>
        reply_code_send 404
          (body_error "session_not_found" "Session not found or expired" false JUndefined)
    end.

(** POST /v1/continue, from [request.body] as it arrives: any JSON value,
    [JUndefined] when the request has no body.  [body.sessionId] throws a
    [TypeError] on [undefined] and [null]; that happens outside the [try]
    block, so the exception leaves the handler (and Fastify answers 500).
    On any other body the reads cannot fail and give the same values every
    time. *)
Definition continue_endpoint (body : JsValue) (run : StreamRun) : M unit :=
  sessionId <- lift (get_prop "sessionId" body) ;;
  toolResults <- lift (get_prop "toolResults" body) ;;
  continue_handler {| body_sessionId := sessionId; body_toolResults := toolResults |} run.

(** DELETE /v1/sessions/:sessionId *)
Definition delete_session_handler (sessionId : string) : M unit :=
  deleteSession sessionId ;;;
  reply_code_send 204 body_empty.

(** POST /v1/abort/:streamId *)
Definition abort_handler (streamId : string) : M unit :=
  controller <- gets (fun s => activeStreams s !! streamId) ;;
  match controller with
  | None =>
      reply_code_send 404
        (body_error "stream_not_found" "Stream not found or already completed" false JUndefined)
  | Some controller =>
      AbortController_abort controller ;;;
      cleanupStream streamId ;;;
      reply_code_send 200 (body_aborted streamId)
  end.

(** ContextRequestSchema after a successful [safeParse], the fields the
    handler reads. *)
Record ContextRequest : Type := mkContextRequest {
  xq_messages : list Message;
  xq_model : option string;
  xq_provider : option ProviderName;
  xq_maxTokens : option Z;
  xq_temperature : option Q;
  xq_system : option string;
  xq_tools : option (list ToolDefinition);
  xq_thinking : JsValue;
  xq_contextConfig : JsValue;
  xq_contextState : JsValue;
  xq_apiKey : option string;
  xq_providerConfig : option ProviderConfig;
  xq_formatter : JsValue;
  xq_retry : JsValue;
}.

Inductive ContextParseResult : Type :=
  | ContextParseFailure (issues : JsValue)
  | ContextParseSuccess (data : ContextRequest).

Definition contextInput (req : ContextRequest) (config : Config) : ContextInput :=
  {| ci_messages := map normalize_message (xq_messages req);
     ci_system := xq_system req;
     ci_tools := map normalize_tool <$> xq_tools req;
     ci_config :=
       {| gc_model := default (cfg_defaultModel config) (xq_model req);
          gc_maxTokens := Math_min (default 4096 (xq_maxTokens req)) (cfg_maxTokensLimit config);
          gc_temperature := default (1 # 1)%Q (xq_temperature req);
          gc_thinking := xq_thinking req |};
     ci_context := xq_contextConfig req |}.

Definition with_context (context : JsValue * JsValue) (result : CompletionResponse)
    : CompletionResponse :=
  {| cres_content := cres_content result;
     cres_rawAssistantText := cres_rawAssistantText result;
     cres_toolCalls := cres_toolCalls result;
     cres_toolResults := cres_toolResults result;
     cres_stopReason := cres_stopReason result;
     cres_usage := cres_usage result;
     cres_model := cres_model result;
     cres_provider := cres_provider result;
     cres_durationMs := cres_durationMs result;
     cres_requiresToolResults := cres_requiresToolResults result;
     cres_context := Some context |}.

(** POST /v1/context/stream *)
Definition context_stream_handler (config : Config) (parseResult : ContextParseResult)
    (run : ContextRun) : M unit :=
  match parseResult with
  | ContextParseFailure issues => invalid_body issues
  | ContextParseSuccess req =>
      let provider := default (cfg_defaultProvider config) (xq_provider req) in
      streamId <- generateStreamId ;;
      abortController <- register streamId ;;
      writeHead 200 ;;;
      sendEvent (ev_stream_start streamId) ;;;
      try_catch_finally
        (membrane <- createMembrane provider (xq_apiKey req) (xq_providerConfig req)
                       (Some (mkCreateMembraneOptions (xq_formatter req) (xq_retry req))) ;;
         startMs <- Date_now ;;
         processed <- processContext (contextInput req config) run context_callbacks ;;
         let '(response, newState, info) := processed in
         updateProviderHealth provider true ;;;
         match response with
         | NormalResponse normalResponse =>
             now <- Date_now ;;
             sendEvent (ev_done (with_context (newState, info)
                                   (buildCompletionResponse normalResponse provider
                                      (now - startMs))))
         | Aborted aborted =>
             now <- Date_now ;;
             sendEvent (ev_done (aborted_payload aborted
                                   (default (cfg_defaultModel config) (xq_model req))
                                   provider (now - startMs) (Some (newState, info))))
         end)
        (fun error =>
           updateProviderHealth provider false ;;;
           sendEvent (error_event (parseError error)))
        (cleanupStream streamId ;;; raw_end)
  end.

(** A handler starts on the reply object of its own request. *)
Definition serve (handler : M unit) (s : State) : Result unit * State :=
  handler (set_reply (fun _ => fresh_reply) s).

(* ===================================================================== *)
(** ** server.ts: authentication and monitoring *)
(* ===================================================================== *)

(** [s.startsWith(prefix)] *)
Definition startsWith (s prefix : string) : bool := String.prefix prefix s.

(** [s.slice(start)] for a [start] that is not negative. *)
Fixpoint slice (start : nat) (s : string) : string :=
  match start, s with
  | O, _ => s
  | S n, String _ rest => slice n rest
  | S _, EmptyString => EmptyString
  end.

(** The [onRequest] hook; [createServer] installs it when
    [config.apiToken] is set.  [authorization] is
    [request.headers.authorization]. *)
Definition onRequest (apiToken : string) (url : string) (authorization : option string)
    : M unit :=
  if String.eqb url "/health" then ret tt
  else
    match authorization with
    | None =>
        reply_code_send 401
          (body_error "unauthorized" "Missing or invalid Authorization header" false JUndefined)
    | Some authHeader =>
        if String.eqb authHeader "" || negb (startsWith authHeader "Bearer ") then
          reply_code_send 401
            (body_error "unauthorized" "Missing or invalid Authorization header" false
               JUndefined)
        else
          let token := slice 7 authHeader in
          if negb (String.eqb token apiToken) then
            reply_code_send 401 (body_error "unauthorized" "Invalid API token" false JUndefined)
          else ret tt
    end.

(** [if (config.apiToken) { app.addHook('onRequest', ..) }] *)
Definition authenticate (apiToken : option string) (url : string)
    (authorization : option string) : M unit :=
  match nonempty apiToken with
  | Some token => onRequest token url authorization
  | None => ret tt
  end.

Definition VERSION : string := "1.0.0".

(** HealthResponse *)
Record HealthResponse : Type := mkHealthResponse {
  hr_status : string;
  hr_version : string;
  hr_uptime : Z;
  hr_providers : list (ProviderName * ProviderHealthStatus);
}.

(** GET /health; [startTime] is the module-level constant. *)
Definition health_handler (startTime : Z) : M HealthResponse :=
  anthropic <- getProviderHealth "anthropic" ;;
  openrouter <- getProviderHealth "openrouter" ;;
  openai <- getProviderHealth "openai" ;;
  compatible <- getProviderHealth "openai-compatible" ;;
  completions <- getProviderHealth "openai-completions" ;;
  bedrock <- getProviderHealth "bedrock" ;;
  let providers :=
    [("anthropic", anthropic); ("openrouter", openrouter); ("openai", openai);
     ("openai-compatible", compatible); ("openai-completions", completions);
     ("bedrock", bedrock)] in
  let configuredCount := length (List.filter ph_configured (map snd providers)) in
  let healthyCount :=
    length (List.filter (fun p => ph_configured p && ph_healthy p) (map snd providers)) in
  let status :=
    if (configuredCount =? 0)%nat then "ok"
    else if (0 <? healthyCount)%nat then "ok"
    else "degraded" in
  now <- Date_now ;;
  ret {| hr_status := status; hr_version := VERSION; hr_uptime := now - startTime;
         hr_providers := providers |}.

(** The body of GET /v1/stats. *)
Record StatsResponse : Type := mkStatsResponse {
  st_uptime : Z;
  st_activeSessions : nat;
  st_activeStreams : nat;
  st_providers : list ProviderName;
}.

(** GET /v1/stats *)
Definition stats_handler (startTime : Z) : M StatsResponse :=
  now <- Date_now ;;
  activeSessions <- getSessionCount ;;
  activeStreams <- gets (fun s => size (activeStreams s)) ;;
  providers <- getConfiguredProviders ;;
  ret {| st_uptime := now - startTime; st_activeSessions := activeSessions;
         st_activeStreams := activeStreams; st_providers := providers |}.

(* ===================================================================== *)
(** ** config.ts *)
(* ===================================================================== *)

(** [if (cond) list.push(item)] *)
Definition push_if (cond : bool) (item : string) (items : list string) : list string :=
  if cond then items ++ [item] else items.

(** The double quote character. *)
Definition dquote : string := String (Ascii.ascii_of_nat 34) EmptyString.

(** [providerHasFallback[key]] for a key that no built-in prototype
    defines; [false] stands for [undefined] as well. *)
Fixpoint has_fallback (key : string) (entries : list (string * bool)) : bool :=
  match entries with
  | [] => false
  | (k, v) :: rest => if String.eqb key k then v else has_fallback key rest
  end.

(** [validateConfig] only writes to the console: the lines it writes. *)
Definition validateConfig (config : Config) : list string :=
  let configuredProviders := [] in
  let configuredProviders :=
    push_if (truthy_str (cfg_anthropicApiKey config)) "anthropic" configuredProviders in
  let configuredProviders :=
    push_if (truthy_str (cfg_openrouterApiKey config)) "openrouter" configuredProviders in
  let configuredProviders :=
    push_if (truthy_str (cfg_openaiApiKey config)) "openai" configuredProviders in
  let configuredProviders :=
    push_if (truthy_str (cfg_openaiCompatibleBaseUrl config)) "openai-compatible"
      configuredProviders in
  let configuredProviders :=
    push_if (truthy_str (cfg_openaiCompletionsBaseUrl config)) "openai-completions"
      configuredProviders in
  let configuredProviders :=
    push_if (truthy_str (cfg_bedrockAccessKeyId config)
             && truthy_str (cfg_bedrockSecretAccessKey config)) "bedrock"
      configuredProviders in
  let summary :=
    if (length configuredProviders =? 0)%nat then
      "NOTE: No fallback provider keys configured. Running in pure BYOK mode - clients must provide their own credentials."
    else "Server fallback providers: " +:+ String.concat ", " configuredProviders in
  let providerHasFallback :=
    [("anthropic", truthy_str (cfg_anthropicApiKey config));
     ("openrouter", truthy_str (cfg_openrouterApiKey config));
     ("openai", truthy_str (cfg_openaiApiKey config));
     ("openai-compatible", truthy_str (cfg_openaiCompatibleBaseUrl config));
     ("openai-completions", truthy_str (cfg_openaiCompletionsBaseUrl config));
     ("bedrock", truthy_str (cfg_bedrockAccessKeyId config)
                 && truthy_str (cfg_bedrockSecretAccessKey config))] in
  if negb (has_fallback (cfg_defaultProvider config) providerHasFallback) then
    [summary;
     "NOTE: DEFAULT_PROVIDER is " +:+ dquote +:+ cfg_defaultProvider config +:+ dquote
     +:+ " but no fallback credentials are set. Clients must provide credentials."]
  else [summary].

(* ===================================================================== *)
(** ** Notions used in the statements *)
(* ===================================================================== *)

(** The state a request leaves behind, and how its handler completed. *)
Definition after (handler : M unit) (s : State) : State := (serve handler s).2.
Definition completion (handler : M unit) (s : State) : Result unit := (serve handler s).1.

(** A server that has just started: empty maps, nothing allocated. *)
Definition boot (config : Config) (clock : nat -> Z) (random : nat -> string) : State :=
  {| sessions := ∅; heap := []; activeStreams := ∅; controllers := [];
     fallbackConfig := initializeProviders_fallback config;
     providerHealth := ∅; clock := clock; ticks := 0; random := random; draws := 0;
     reply := fresh_reply; history := [] |}.

(** [respects R m]: whatever [m] does and however it completes, the state
    it leaves is related by [R] to the state it started from. For a
    reflexive and transitive [R] this is preserved by every combinator of
    the monad, so it is enough to check the primitive state changes. *)
Definition respects {A : Type} (R : State -> State -> Prop) (m : M A) : Prop :=
  forall s : State, R s (m s).2.

(** The registry with one identifier left out of consideration. *)
Definition registry_but (streamId : string) (s1 s2 : State) : Prop :=
  delete streamId (activeStreams s2) = delete streamId (activeStreams s1).

(** The history only grows. *)
Definition history_extends (s1 s2 : State) : Prop :=
  exists added : list Effect, history s2 = history s1 ++ added.

(** The identifier that the next call of [generateStreamId] returns. *)
Definition next_stream_id (s : State) : string :=
  "str_" +:+ toString36 (clock s (ticks s)) +:+ "_" +:+ random s (draws s).

(** What is left to show for a streaming handler once its identifier is
    known: the rest of the handler touches no other entry of the registry,
    only adds to the history, and ends by removing the identifier. *)
Definition round_closed (streamId : string) (s s' : State) : Prop :=
  activeStreams s' !! streamId = None /\
  activeStreams s' = delete streamId (activeStreams s) /\
  Registered streamId ∈ history s' /\
  rp_ended (reply s') = true.

(** The events that one callback puts on the wire. *)
Definition block_events (blockEvent : BlockEvent) : list StreamEvent :=
  if String.eqb (be_event blockEvent) "block_start" then
    [ev_block_start (be_index blockEvent) (be_type blockEvent)]
  else if String.eqb (be_event blockEvent) "block_complete" then
    [ev_block_complete (be_index blockEvent) (be_type blockEvent)
       (default JUndefined (be_content blockEvent))]
  else [].

Definition forwarded (cb : Callback) : list StreamEvent :=
  match cb with
  | OnChunk chunk meta => [chunk_event chunk meta]
  | OnBlock blockEvent => block_events blockEvent
  | OnPreToolContent content => [ev_pre_tool_content content]
  | OnUsage usage => [ev_usage usage]
  end.

Definition forwarded_context (cb : Callback) : list StreamEvent :=
  match cb with
  | OnChunk chunk _ => [ev_chunk chunk "text" true 0]
  | OnBlock _ => []
  | OnPreToolContent content => [ev_pre_tool_content content]
  | OnUsage usage => [ev_usage usage]
  end.

(** The locals of the fresh-stream handler after a callback. *)
Definition locals_after (locals : StreamLocals) (cb : Callback) : StreamLocals :=
  match cb with
  | OnChunk chunk _ =>
      mkStreamLocals (loc_rawAssistantText locals +:+ chunk) (loc_totalUsage locals)
  | OnUsage usage => mkStreamLocals (loc_rawAssistantText locals) usage
  | _ => locals
  end.

(** Writing a batch of events to the reply. *)
Definition emit (events : list StreamEvent) (s : State) : State :=
  set_reply (fun r => mkReply (rp_status r) (rp_body r) (rp_head r)
                        (rp_events r ++ events) (rp_ended r)) s.

(** Events that close a round or announce tool calls. *)
Definition is_tool_calls (event : StreamEvent) : bool :=
  match event with ev_tool_calls _ _ => true | _ => false end.

Definition is_done (event : StreamEvent) : bool :=
  match event with ev_done _ => true | _ => false end.

(** The session identifier that a fresh-stream round starting in [s]
    generates when it creates a session: the handler has read the clock
    three times and drawn one random suffix by then. *)
Definition round_session_id (s : State) : string :=
  "sess_" +:+ toString36 (clock s (3 + ticks s)%nat) +:+ "_" +:+ random s (1 + draws s)%nat.

(** The session that such a round creates. *)
Definition round_session (config : Config) (req : CompletionRequest)
    (response : NormalizedResponse) (s : State) : SessionState :=
  {| ss_id := round_session_id s;
     ss_createdAt := clock s (4 + ticks s)%nat;
     ss_expiresAt := clock s (4 + ticks s)%nat + default_ttlMs;
     ss_provider := default (cfg_defaultProvider config) (cr_provider req);
     ss_apiKey := cr_apiKey req;
     ss_providerConfig := cr_providerConfig req;
     ss_membraneOptions := membrane_options req;
     ss_request := buildNormalizedRequest req config;
     ss_rawAssistantText := resp_rawAssistantText response;
     ss_contentBlocks := resp_content response;
     ss_toolCalls := resp_toolCalls response;
     ss_executedToolResults := [];
     ss_usage := session_usage (resp_usage response) |}.

(** The stored record once [updateSession] has merged a round into it. *)
Definition merged (pushed : SessionState) (response : NormalizedResponse) (now : Z)
    : SessionState :=
  with_expiresAt (now + 5 * 60 * 1000) (Object_assign pushed (round_updates pushed response)).

(** What a settled round leaves alone. *)
Definition settled_frame (s s' : State) : Prop :=
  activeStreams s' = activeStreams s /\
  history s' = history s /\
  controllers s' = controllers s /\
  clock s' = clock s /\
  length (heap s') = length (heap s).

(** The state in which the [try] block of a streaming handler starts: the
    identifier generated and registered, the head written, [stream_start]
    sent. *)
Definition started (s : State) : State :=
  emit [ev_stream_start (next_stream_id s)]
    (set_reply (fun r => mkReply (rp_status r) (rp_body r) (Some 200) (rp_events r) (rp_ended r))
       (register (next_stream_id s) (set_draws S (set_ticks S s))).2).

(** The state left by the [finally] block. *)
Definition closed (streamId : string) (s : State) : State :=
  set_reply (fun r => mkReply (rp_status r) (rp_body r) (rp_head r) (rp_events r) true)
    (set_activeStreams (delete streamId) s).

(** The state in which the collaborator's call settles, in a continuation
    round that reached the invocation in [s]. *)
Definition invoked (s : State) (l : nat) (stored : SessionState)
    (toolResults : list ToolResult) (run : StreamRun) : State :=
  emit (flat_map forwarded (sr_callbacks run))
    (set_history
       (fun h => h ++ [CalledStream
                         (continuedRequest (push_executedToolResults toolResults stored)
                            toolResults)])
       (set_ticks S (set_heap (alter (push_executedToolResults toolResults) l) s))).

(** A round that announces tool calls: one [tool_calls] event, next to
    last, followed by the one [done] event. *)
Definition announces_tools (events : list StreamEvent) (calls : list ToolCall)
    (sessionId : string) : Prop :=
  exists before result,
    events = before ++ [ev_tool_calls calls sessionId; ev_done result] /\
    Forall (fun event => is_tool_calls event = false /\ is_done event = false) before.

(** A round that ends with [done] and has no [tool_calls] event. *)
Definition plain_round (events : list StreamEvent) : Prop :=
  exists before result,
    events = before ++ [ev_done result] /\
    Forall (fun event => is_tool_calls event = false /\ is_done event = false) before.



(** The requests of the server.  [PostContinue] carries the two properties
    that [continue_endpoint] reads from the body. *)
Inductive Request : Type :=
  | PostComplete (parseResult : ParseResult) (outcome : Result NormalizedResponse)
  | PostStream (parseResult : ParseResult) (run : StreamRun)
  | PostContinue (body : ContinueBody) (run : StreamRun)
  | DeleteSession (sessionId : string)
  | PostAbort (streamId : string)
  | PostContextStream (parseResult : ContextParseResult) (run : ContextRun).

Definition route (config : Config) (request : Request) : M unit :=
  match request with
  | PostComplete parseResult outcome => complete_handler config parseResult outcome
  | PostStream parseResult run => stream_handler config parseResult run
  | PostContinue body run => continue_handler body run
  | DeleteSession sessionId => delete_session_handler sessionId
  | PostAbort streamId => abort_handler streamId
  | PostContextStream parseResult run => context_stream_handler config parseResult run
  end.

(** The record differs from the earlier one by tool results appended to
    [executedToolResults], and by nothing else. *)
Definition appended_only (x x' : SessionState) : Prop :=
  exists toolResults, x' = push_executedToolResults toolResults x.

(** The record is what a live [updateSession] between [s] and [s'] makes
    of the earlier one (after tool results were appended, perhaps none):
    [Object.assign] with some updates, and the expiration set to a reading
    of the clock plus five minutes.  The reading is one taken between [s]
    and [s']: [Date_now] reads [clock s (ticks s)] and moves [ticks] on,
    so these are the readings at [ticks s], .., [ticks s' - 1]. *)
Definition refreshed (s s' : State) (x x' : SessionState) : Prop :=
  exists (n : nat) (toolResults : list ToolResult) (updates : SessionUpdates),
    (ticks s <= n < ticks s')%nat /\
    x' = with_expiresAt (clock s n + 5 * 60 * 1000)
           (Object_assign (push_executedToolResults toolResults x) updates).

Definition records_guarded (s s' : State) : Prop :=
  clock s' = clock s /\
  (ticks s <= ticks s')%nat /\
  forall l x, heap s !! l = Some x ->
    exists x', heap s' !! l = Some x' /\ (appended_only x x' \/ refreshed s s' x x').

(** Every call recorded by [s'] was recorded by [s] or is allowed. *)
Definition calls_within (allowed : Effect -> Prop) (s s' : State) : Prop :=
  forall e, e ∈ history s' -> e ∈ history s \/ allowed e.

(** What a handler may record for the request it serves. *)
Definition allowed_for (sent : NormalizedRequest) (e : Effect) : Prop :=
  match e with
  | Registered _ => True
  | CalledStream request | CalledComplete request => request = sent
  | CalledProcessContext _ => False
  end.

Definition allowed_for_context (sent : ContextInput) (e : Effect) : Prop :=
  match e with
  | Registered _ => True
  | CalledProcessContext input => input = sent
  | _ => False
  end.

(* ===================================================================== *)
(** ** Example data *)
(* ===================================================================== *)

Definition example_config : Config :=
  {| cfg_anthropicApiKey := Some "sk-server";
     cfg_openrouterApiKey := None;
     cfg_openaiApiKey := None;
     cfg_openaiBaseUrl := None;
     cfg_openaiCompatibleApiKey := None;
     cfg_openaiCompatibleBaseUrl := None;
     cfg_openaiCompletionsApiKey := None;
     cfg_openaiCompletionsBaseUrl := None;
     cfg_bedrockAccessKeyId := None;
     cfg_bedrockSecretAccessKey := None;
     cfg_bedrockRegion := None;
     cfg_defaultProvider := "anthropic";
     cfg_defaultModel := "claude-sonnet-4-20250514";
     cfg_maxTokensLimit := 32000;
     cfg_requestTimeoutMs := 300000 |}.

(** A clock that advances by one millisecond per reading, and a random
    source that keeps returning the same suffix. *)
Definition example_clock (n : nat) : Z := 1000 + Z.of_nat n.
Definition example_random (_ : nat) : string := "k3x9q2ab".

Definition example_boot : State := boot example_config example_clock example_random.

(** The example server with one stream registered under ["str_a"]. *)
Definition example_streaming : State := (register "str_a" example_boot).2.

Definition example_completion_request : CompletionRequest :=
  {| cr_messages := [ {| msg_participant := "User";
                         msg_content := ContentString "What is the weather in Paris?" |} ];
     cr_model := None; cr_provider := None; cr_maxTokens := None; cr_temperature := None;
     cr_system := None; cr_tools := None; cr_toolMode := None; cr_thinking := JUndefined;
     cr_stopSequences := None; cr_promptCaching := None; cr_cacheTtl := None;
     cr_maxParticipantsForStop := None; cr_continueFrom := None;
     cr_providerParams := JUndefined; cr_apiKey := None; cr_providerConfig := None;
     cr_formatter := JUndefined; cr_retry := JUndefined |}.

Definition example_request : NormalizedRequest :=
  buildNormalizedRequest example_completion_request example_config.

Definition example_tool_call : ToolCall :=
  JObj [("id", JStr "toolu_1"); ("name", JStr "get_weather");
        ("input", JObj [("city", JStr "Paris")])].

(** A first round that used 10 input and 5 output tokens. *)
Definition example_init : SessionInit :=
  {| init_rawAssistantText := "Let me check.";
     init_contentBlocks := [text_block "Let me check."; example_tool_call];
     init_toolCalls := [example_tool_call];
     init_executedToolResults := [];
     init_usage := mkSessionUsage 10 5 |}.

Definition no_updates : SessionUpdates :=
  {| upd_rawAssistantText := None; upd_contentBlocks := None; upd_toolCalls := None;
     upd_executedToolResults := None; upd_usage := None |}.

(** A session created with a ttl of one second on the example server. *)
Definition short_lived : State :=
  (createSession "anthropic" example_request example_init
     {| opt_apiKey := None; opt_providerConfig := None; opt_membraneOptions := None;
        opt_ttlMs := Some 1000 |}
     example_boot).2.

(** The same, on a server whose clock advances five seconds per reading. *)
Definition short_lived_late : State :=
  (createSession "anthropic" example_request example_init
     {| opt_apiKey := None; opt_providerConfig := None; opt_membraneOptions := None;
        opt_ttlMs := Some 1000 |}
     (boot example_config (fun n => 1000 + 5000 * Z.of_nat n) example_random)).2.

Definition example_continueFrom : ContinueFrom :=
  {| cf_sessionId := "sess_rs_k3x9q2ab";
     cf_toolResults := [JObj [("toolUseId", JStr "toolu_1"); ("content", JStr "18 C, sunny")]] |}.

(** The example request, with tool results attached through [continueFrom]. *)
Definition example_continueFrom_request : CompletionRequest :=
  {| cr_messages := cr_messages example_completion_request;
     cr_model := None; cr_provider := None; cr_maxTokens := None; cr_temperature := None;
     cr_system := None; cr_tools := None; cr_toolMode := None; cr_thinking := JUndefined;
     cr_stopSequences := None; cr_promptCaching := None; cr_cacheTtl := None;
     cr_maxParticipantsForStop := None; cr_continueFrom := Some example_continueFrom;
     cr_providerParams := JUndefined; cr_apiKey := None; cr_providerConfig := None;
     cr_formatter := JUndefined; cr_retry := JUndefined |}.

Definition example_usage : UsageInfo :=
  {| inputTokens := 3; outputTokens := 2; cacheCreationTokens := None;
     cacheReadTokens := None |}.

(** A response that ends the turn. *)
Definition example_final_response : NormalizedResponse :=
  {| resp_content := [text_block "It is 18 C and sunny in Paris."];
     resp_rawAssistantText := "It is 18 C and sunny in Paris.";
     resp_toolCalls := [];
     resp_toolResults := [];
     resp_stopReason := "end_turn";
     resp_usage := example_usage;
     resp_model_actual := "claude-sonnet-4-20250514" |}.

(** A response that asks for one tool call. *)
Definition example_tool_response : NormalizedResponse :=
  {| resp_content := [text_block "Let me check."; example_tool_call];
     resp_rawAssistantText := "Let me check.";
     resp_toolCalls := [example_tool_call];
     resp_toolResults := [];
     resp_stopReason := "tool_use";
     resp_usage := example_usage;
     resp_model_actual := "claude-sonnet-4-20250514" |}.

(** A response that stops for tool use and carries no tool call. *)
Definition example_empty_tool_response : NormalizedResponse :=
  {| resp_content := [text_block "Let me check."];
     resp_rawAssistantText := "Let me check.";
     resp_toolCalls := [];
     resp_toolResults := [];
     resp_stopReason := "tool_use";
     resp_usage := example_usage;
     resp_model_actual := "claude-sonnet-4-20250514" |}.

Definition example_chunk : Callback :=
  OnChunk "Let me check." {| meta_type := None; meta_visible := None; meta_blockIndex := None |}.

Definition run_of (response : NormalizedResponse) : StreamRun :=
  {| sr_callbacks := [example_chunk; OnUsage example_usage];
     sr_outcome := Ok (NormalResponse response) |}.

(** A server without any fallback credentials. *)
Definition keyless_config : Config :=
  {| cfg_anthropicApiKey := None;
     cfg_openrouterApiKey := None;
     cfg_openaiApiKey := None;
     cfg_openaiBaseUrl := None;
     cfg_openaiCompatibleApiKey := None;
     cfg_openaiCompatibleBaseUrl := None;
     cfg_openaiCompletionsApiKey := None;
     cfg_openaiCompletionsBaseUrl := None;
     cfg_bedrockAccessKeyId := None;
     cfg_bedrockSecretAccessKey := None;
     cfg_bedrockRegion := None;
     cfg_defaultProvider := "anthropic";
     cfg_defaultModel := "claude-sonnet-4-20250514";
     cfg_maxTokensLimit := 32000;
     cfg_requestTimeoutMs := 300000 |}.

(** The example server with one suspended conversation: the session
    ["sess_rs_k3x9q2ab"], created at time 1001 after a first round that
    used 10 input and 5 output tokens. *)
Definition example_suspended : State :=
  (createSession "anthropic" example_request example_init
     {| opt_apiKey := None; opt_providerConfig := None; opt_membraneOptions := None;
        opt_ttlMs := None |}
     example_boot).2.

(** The record of that session. *)
Definition example_session : SessionState :=
  {| ss_id := "sess_rs_k3x9q2ab";
     ss_createdAt := 1001;
     ss_expiresAt := 301001;
     ss_provider := "anthropic";
     ss_apiKey := None;
     ss_providerConfig := None;
     ss_membraneOptions := None;
     ss_request := example_request;
     ss_rawAssistantText := "Let me check.";
     ss_contentBlocks := [text_block "Let me check."; example_tool_call];
     ss_toolCalls := [example_tool_call];
     ss_executedToolResults := [];
     ss_usage := mkSessionUsage 10 5 |}.

Definition example_toolResults : list ToolResult :=
  [mkToolResult (JStr "toolu_1") (JStr "18 C, sunny") JUndefined].

Definition example_items : list JsValue :=
  [JObj [("toolUseId", JStr "toolu_1"); ("content", JStr "18 C, sunny")]].

Definition example_continue_body : ContinueBody :=
  {| body_sessionId := JStr "sess_rs_k3x9q2ab"; body_toolResults := JArr example_items |}.

Definition example_context_request : ContextRequest :=
  {| xq_messages := cr_messages example_completion_request;
     xq_model := None; xq_provider := None; xq_maxTokens := None; xq_temperature := None;
     xq_system := None; xq_tools := None; xq_thinking := JUndefined;
     xq_contextConfig :=
       JObj [("rolling", JObj [("threshold", JNum (50 # 1)); ("buffer", JNum (20 # 1))])];
     xq_contextState := JUndefined;
     xq_apiKey := None; xq_providerConfig := None;
     xq_formatter := JUndefined; xq_retry := JUndefined |}.

Definition example_context_run : ContextRun :=
  {| xr_callbacks := [example_chunk; OnUsage example_usage];
     xr_outcome := Ok (NormalResponse example_tool_response, JObj [], JObj []) |}.

(** A collaborator that rejects the call. *)
Definition example_failing_run : StreamRun :=
  {| sr_callbacks := [];
     sr_outcome := Throw (ErrorObject "Overloaded" (Some (JStr "overloaded"))) |}.

(** The example request asking for 100000 output tokens. *)
Definition example_greedy_request : CompletionRequest :=
  {| cr_messages := cr_messages example_completion_request;
     cr_model := None; cr_provider := None; cr_maxTokens := Some 100000;
     cr_temperature := None;
     cr_system := None; cr_tools := None; cr_toolMode := None; cr_thinking := JUndefined;
     cr_stopSequences := None; cr_promptCaching := None; cr_cacheTtl := None;
     cr_maxParticipantsForStop := None; cr_continueFrom := None;
     cr_providerParams := JUndefined; cr_apiKey := None; cr_providerConfig := None;
     cr_formatter := JUndefined; cr_retry := JUndefined |}.

(* ===================================================================== *)
(** ** Further notions: the store, credentials and the event protocol *)
(* ===================================================================== *)

(** The identifier that the next call of [generateSessionId] returns. *)
Definition next_session_id (s : State) : string :=
  "sess_" +:+ toString36 (clock s (ticks s)) +:+ "_" +:+ random s (draws s).

(** Every key of the store refers to a record, and that record carries
    the key as its [id]. *)
Definition store_wf (s : State) : Prop :=
  forall (id : string) (l : nat),
    sessions s !! id = Some l -> exists x, heap s !! l = Some x /\ ss_id x = id.

Definition store_wf_kept (s s' : State) : Prop := store_wf s -> store_wf s'.



(** The key an adapter was built with; Bedrock adapters have none. *)
Definition adapter_apiKey (adapter : Adapter) : option string :=
  match adapter with
  | AnthropicAdapter apiKey => Some apiKey
  | OpenRouterAdapter apiKey _ _ => Some apiKey
  | OpenAIAdapter apiKey _ _ => Some apiKey
  | OpenAICompatibleAdapter apiKey _ => Some apiKey
  | OpenAICompletionsAdapter apiKey _ _ _ => Some apiKey
  | BedrockAdapter _ _ _ _ => None
  end.

(** What the health map holds for a provider, as [getProviderHealth]
    reports it. *)
Definition recorded (s : State) (provider : ProviderName) : ProviderHealthStatus :=
  match providerHealth s !! provider with
  | None => {| ph_configured := false; ph_healthy := true |}
  | Some health => {| ph_configured := true; ph_healthy := health.1 |}
  end.

(** The status that GET /health derives from the reports. *)
Definition health_status (values : list ProviderHealthStatus) : string :=
  if (length (List.filter ph_configured values) =? 0)%nat then "ok"
  else if (0 <? length (List.filter (fun p => ph_configured p && ph_healthy p) values))%nat
       then "ok"
       else "degraded".

(** The state after the server has handled the requests, one after the
    other. *)
Fixpoint handle_all (config : Config) (requests : list Request) (s : State) : State :=
  match requests with
  | [] => s
  | request :: rest => handle_all config rest (after (route config request) s)
  end.

(** A completion request that fails: its credentials do not resolve
    against the fallback configuration [fb], or the collaborator rejects
    the call. *)
Definition failing_completion (config : Config) (fb : FallbackConfig) (request : Request)
    : Prop :=
  exists (req : CompletionRequest) (outcome : Result NormalizedResponse) (e : Thrown),
    request = PostComplete (ParseSuccess req) outcome /\
    (createAdapter fb (default (cfg_defaultProvider config) (cr_provider req))
       (cr_apiKey req) (cr_providerConfig req) = Throw e
     \/ outcome = Throw e).

(** The fallback configuration stays, and no health record is removed. *)
Definition health_kept (s s' : State) : Prop :=
  fallbackConfig s' = fallbackConfig s /\
  forall p : ProviderName,
    is_Some (providerHealth s !! p) -> is_Some (providerHealth s' !! p).

(** No available provider is recorded as healthy. *)
Definition none_healthy (s : State) : Prop :=
  forall (p : ProviderName) (t : Z),
    p ∈ getAvailableProviders -> providerHealth s !! p <> Some (true, t).

(** The event protocol of one streaming round: [stream_start] first,
    exactly one terminal event ([done] or [error]) last, and in between
    only events that are neither. *)
Definition is_error (event : StreamEvent) : bool :=
  match event with ev_error _ _ _ => true | _ => false end.

Definition is_stream_start (event : StreamEvent) : bool :=
  match event with ev_stream_start _ => true | _ => false end.

Definition inner_event (event : StreamEvent) : Prop :=
  is_stream_start event = false /\ is_done event = false /\ is_error event = false.

Definition stream_protocol (streamId : string) (events : list StreamEvent) : Prop :=
  exists (middle : list StreamEvent) (terminal : StreamEvent),
    events = ev_stream_start streamId :: middle ++ [terminal] /\
    Forall inner_event middle /\
    (is_done terminal = true \/ is_error terminal = true).

(* ===================================================================== *)
(** ** Further example data *)
(* ===================================================================== *)

(** The record of the session of [short_lived_late]: created at 6000 with
    a ttl of one second, looked up next at 11000. *)
Definition expired_session : SessionState :=
  {| ss_id := "sess_rs_k3x9q2ab";
     ss_createdAt := 6000;
     ss_expiresAt := 7000;
     ss_provider := "anthropic";
     ss_apiKey := None;
     ss_providerConfig := None;
     ss_membraneOptions := None;
     ss_request := example_request;
     ss_rawAssistantText := "Let me check.";
     ss_contentBlocks := [text_block "Let me check."; example_tool_call];
     ss_toolCalls := [example_tool_call];
     ss_executedToolResults := [];
     ss_usage := mkSessionUsage 10 5 |}.

(** The example request with a key of the client's own. *)
Definition example_byok_request : CompletionRequest :=
  {| cr_messages := cr_messages example_completion_request;
     cr_model := None; cr_provider := None; cr_maxTokens := None; cr_temperature := None;
     cr_system := None; cr_tools := None; cr_toolMode := None; cr_thinking := JUndefined;
     cr_stopSequences := None; cr_promptCaching := None; cr_cacheTtl := None;
     cr_maxParticipantsForStop := None; cr_continueFrom := None;
     cr_providerParams := JUndefined; cr_apiKey := Some "sk-client"; cr_providerConfig := None;
     cr_formatter := JUndefined; cr_retry := JUndefined |}.

(** A collaborator that is aborted after one chunk. *)
Definition example_aborted : AbortedResponse :=
  {| ab_partialContent := Some [text_block "Let me"];
     ab_rawAssistantText := Some "Let me";
     ab_toolCalls := None;
     ab_partialUsage := None |}.

Definition example_aborted_run : StreamRun :=
  {| sr_callbacks := [example_chunk]; sr_outcome := Ok (Aborted example_aborted) |}.

(** The session of [example_suspended], created with a ttl of three
    milliseconds: live when a continuation request looks it up (at
    1002), expired when the round is merged (at 1006). *)
Definition example_expiring : State :=
  (createSession "anthropic" example_request example_init
     {| opt_apiKey := None; opt_providerConfig := None; opt_membraneOptions := None;
        opt_ttlMs := Some 3 |}
     example_boot).2.

(* ===================================================================== *)
(** ** Running handlers: basic facts *)
(* ===================================================================== *)

Lemma Math_min_spec a b : Math_min a b = Z.min a b.
Proof. unfold Math_min. destruct (Z.ltb_spec a b); lia. Qed.

Lemma abort_handler_found s streamId c :
  activeStreams s !! streamId = Some c ->
  abort_handler streamId s =
    (Ok tt, set_reply (fun r => mkReply (Some 200) (Some (body_aborted streamId))
                                  (rp_head r) (rp_events r) (rp_ended r))
              (set_activeStreams (delete streamId)
                 (set_controllers (alter (fun _ => true) c) s))).
Proof.
  intros H. unfold abort_handler, bind, gets. rewrite H. reflexivity.
Qed.

Lemma abort_handler_missing s streamId :
  activeStreams s !! streamId = None ->
  abort_handler streamId s =
    (Ok tt, set_reply (fun r => mkReply (Some 404)
                (Some (body_error "stream_not_found" "Stream not found or already completed"
                         false JUndefined))
                (rp_head r) (rp_events r) (rp_ended r)) s).
Proof.
  intros H. unfold abort_handler, bind, gets. rewrite H. reflexivity.
Qed.

(* ===================================================================== *)
(** ** Transition invariants *)
(* ===================================================================== *)

Section Respects.
Variable R : State -> State -> Prop.
Hypothesis R_refl : forall s, R s s.
Hypothesis R_trans : forall s1 s2 s3, R s1 s2 -> R s2 s3 -> R s1 s3.

Lemma respects_ret {A} (a : A) : respects R (ret a).
Proof. intros s. apply R_refl. Qed.

Lemma respects_throw {A} (e : Thrown) : respects R (@throw A e).
Proof. intros s. apply R_refl. Qed.

Lemma respects_lift {A} (r : Result A) : respects R (lift r).
Proof. intros s. apply R_refl. Qed.

Lemma respects_gets {A} (f : State -> A) : respects R (gets f).
Proof. intros s. apply R_refl. Qed.

Lemma respects_deref (l : nat) : respects R (deref l).
Proof. intros s. unfold deref. destruct (heap s !! l); apply R_refl. Qed.

Lemma respects_modify (f : State -> State) :
  (forall s, R s (f s)) -> respects R (modify f).
Proof. intros H s. apply H. Qed.

Lemma respects_Date_now :
  (forall s, R s (set_ticks S s)) -> respects R Date_now.
Proof. intros H s. apply H. Qed.

Lemma respects_Math_random_suffix :
  (forall s, R s (set_draws S s)) -> respects R Math_random_suffix.
Proof. intros H s. apply H. Qed.

Lemma respects_bind {A B} (m : M A) (k : A -> M B) :
  respects R m -> (forall a, respects R (k a)) -> respects R (bind m k).
Proof.
  intros Hm Hk s. unfold bind. specialize (Hm s).
  destruct (m s) as [[a | e] s1]; simpl in *.
  - eapply R_trans; [exact Hm | apply Hk].
  - exact Hm.
Qed.

Lemma respects_try_catch_finally {A} (body : M A) (handler : Thrown -> M A)
    (final : M unit) :
  respects R body -> (forall e, respects R (handler e)) -> respects R final ->
  respects R (try_catch_finally body handler final).
Proof.
  intros Hb Hh Hf s. unfold try_catch_finally. specialize (Hb s).
  destruct (body s) as [[a | e] s1]; simpl in *.
  - specialize (Hf s1). destruct (final s1) as [[[] | e'] s3]; simpl in *;
      eapply R_trans; eauto.
  - specialize (Hh e s1). destruct (handler e s1) as [r2 s2]; simpl in *.
    specialize (Hf s2). destruct (final s2) as [[[] | e'] s3]; simpl in *;
      eapply R_trans; eauto.
Qed.

Lemma respects_fire {L} (on : L -> Callback -> M L) (callbacks : list Callback) :
  (forall locals cb, respects R (on locals cb)) ->
  forall locals, respects R (fire on callbacks locals).
Proof.
  intros Hon. induction callbacks as [ | cb rest IH]; intros locals; simpl.
  - apply respects_ret.
  - apply respects_bind; [apply Hon | intros locals'; apply IH].
Qed.
End Respects.

(** Breaks a [respects] goal down to the primitive state changes of the
    computation, which are left as goals [forall s, R s (f s)]. *)
Ltac respects_step :=
  match goal with
  | |- respects _ (bind _ _) => apply respects_bind; [ assumption .. | | intros ? ]
  | |- respects _ (ret _) => apply respects_ret; assumption
  | |- respects _ (throw _) => apply respects_throw; assumption
  | |- respects _ (lift _) => apply respects_lift; assumption
  | |- respects _ (gets _) => apply respects_gets; assumption
  | |- respects _ (deref _) => apply respects_deref; assumption
  | |- respects _ (modify _) => apply respects_modify
  | |- respects _ Date_now => apply respects_Date_now
  | |- respects _ Math_random_suffix => apply respects_Math_random_suffix
  | |- respects _ (try_catch_finally _ _ _) =>
      apply respects_try_catch_finally; [ assumption .. | | intros ? | ]
  | |- respects _ (fire _ _ _) => apply respects_fire; [ assumption .. | intros ? ? ]
  | |- respects _ (match ?x with _ => _ end) => destruct x
  | |- respects _ (let _ := _ in _) => cbv zeta
  end.

Ltac respects_unfold :=
  unfold complete_handler, stream_handler, continue_handler, continue_round,
    continue_invoke, continue_settle, context_stream_handler, abort_handler,
    delete_session_handler, invalid_body,
    membrane_stream, membrane_complete, processContext,
    stream_callbacks, continue_callbacks, context_callbacks, onBlock,
    createSession, getSession, updateSession, deleteSession, generateSessionId, mutate,
    createMembrane, updateProviderHealth, handleError,
    generateStreamId, register, new_AbortController, activeStreams_set, cleanupStream,
    AbortController_abort, reply_code_send, reply_send, writeHead, sendEvent, raw_end.

Ltac respects_all := repeat first [ respects_step | progress respects_unfold ].

(* ===================================================================== *)
(** ** The active-stream registry *)
(* ===================================================================== *)

(** C3. For a stream identifier present in the registry, an abort request
    signals cancellation on the stored controller, removes the entry and
    answers 200 with [{ aborted: true, streamId }]; a second abort for the
    same identifier answers 404 [stream_not_found] and leaves the registry
    and the controllers as they are; and so does any abort for an
    identifier that is not in the registry. *)
Theorem abort_succeeds_exactly_once (s : State) (streamId : string) (c : nat) (b : bool) :
  activeStreams s !! streamId = Some c ->
  controllers s !! c = Some b ->
  let not_found :=
    body_error "stream_not_found" "Stream not found or already completed" false JUndefined in
  let s1 := after (abort_handler streamId) s in
  let s2 := after (abort_handler streamId) s1 in
  (completion (abort_handler streamId) s = Ok tt /\
   rp_status (reply s1) = Some 200 /\
   rp_body (reply s1) = Some (body_aborted streamId) /\
   controllers s1 !! c = Some true /\
   activeStreams s1 = delete streamId (activeStreams s) /\
   activeStreams s1 !! streamId = None) /\
  (rp_status (reply s2) = Some 404 /\
   rp_body (reply s2) = Some not_found /\
   activeStreams s2 = activeStreams s1 /\
   controllers s2 = controllers s1) /\
  (forall (s' : State) (other : string),
     activeStreams s' !! other = None ->
     let s'' := after (abort_handler other) s' in
     rp_status (reply s'') = Some 404 /\
     rp_body (reply s'') = Some not_found /\
     activeStreams s'' = activeStreams s' /\
     controllers s'' = controllers s' /\
     size (activeStreams s'') = size (activeStreams s')).
Proof.
  intros Hreg Hctl not_found s1 s2.
  assert (Hmiss : forall (s' : State) (other : string),
             activeStreams s' !! other = None ->
             let s'' := after (abort_handler other) s' in
             rp_status (reply s'') = Some 404 /\
             rp_body (reply s'') = Some not_found /\
             activeStreams s'' = activeStreams s' /\
             controllers s'' = controllers s' /\
             size (activeStreams s'') = size (activeStreams s')).
  { intros s' other Hnone. unfold after, serve. cbv zeta.
    rewrite abort_handler_missing by exact Hnone. repeat split; reflexivity. }
  assert (Hs1 : serve (abort_handler streamId) s = (Ok tt, s1)).
  { unfold s1, after, serve. rewrite abort_handler_found with (c := c) by exact Hreg.
    reflexivity. }
  assert (Hgone : activeStreams s1 !! streamId = None).
  { unfold s1, after, serve. rewrite abort_handler_found with (c := c) by exact Hreg.
    simpl. apply lookup_delete_eq. }
  split; [ | split ].
  - unfold completion. rewrite Hs1. repeat split; try exact Hgone.
    + unfold s1, after, serve. rewrite abort_handler_found with (c := c) by exact Hreg.
      reflexivity.
    + unfold s1, after, serve. rewrite abort_handler_found with (c := c) by exact Hreg.
      reflexivity.
    + unfold s1, after, serve. rewrite abort_handler_found with (c := c) by exact Hreg.
      simpl. rewrite list_lookup_alter_eq, Hctl. reflexivity.
    + unfold s1, after, serve. rewrite abort_handler_found with (c := c) by exact Hreg.
      reflexivity.
  - destruct (Hmiss s1 streamId Hgone) as (H1 & H2 & H3 & H4 & _). fold s2 in H1, H2, H3, H4.
    repeat split; assumption.
  - exact Hmiss.
Qed.

Lemma abort_succeeds_exactly_once_witness :
  activeStreams example_streaming !! "str_a" = Some 0%nat /\
  controllers example_streaming !! 0%nat = Some false /\
  rp_status (reply (after (abort_handler "str_a") example_streaming)) = Some 200 /\
  rp_status (reply (after (abort_handler "str_a")
                      (after (abort_handler "str_a") example_streaming))) = Some 404.
Proof.
  assert (Hreg : activeStreams example_streaming !! "str_a" = Some 0%nat) by reflexivity.
  assert (Hctl : controllers example_streaming !! 0%nat = Some false) by reflexivity.
  pose proof (abort_succeeds_exactly_once example_streaming "str_a" 0 false Hreg Hctl) as H.
  cbv zeta in H. destruct H as [(_ & H200 & _) [(H404 & _) _]].
  repeat split; assumption.
Defined.

Lemma register_eq (s : State) (streamId : string) :
  register streamId s =
    (Ok (length (controllers s)),
     set_activeStreams (insert streamId (length (controllers s)))
       (set_history (fun h => h ++ [Registered streamId])
          (set_controllers (fun cs => cs ++ [false]) s))).
Proof. reflexivity. Qed.

(** C8, as the code has it. Registration never fails: it allocates a new
    controller that is not aborted and stores it under the identifier,
    whether or not the identifier was present; when it was present, the
    stored controller is replaced. *)
Theorem register_stores_fresh_handle (s : State) (streamId : string) :
  let fresh := length (controllers s) in
  let s' := (register streamId s).2 in
  (register streamId s).1 = Ok fresh /\
  controllers s !! fresh = None /\
  controllers s' = controllers s ++ [false] /\
  controllers s' !! fresh = Some false /\
  activeStreams s' = <[streamId := fresh]> (activeStreams s) /\
  activeStreams s' !! streamId = Some fresh /\
  (forall other : string, other <> streamId ->
     activeStreams s' !! other = activeStreams s !! other).
Proof.
  cbv zeta. rewrite register_eq. simpl. repeat split.
  - apply lookup_ge_None. lia.
  - rewrite lookup_app_r by lia. replace (_ - _)%nat with 0%nat by lia. reflexivity.
  - apply lookup_insert_eq.
  - intros other Hne. apply lookup_insert_ne. congruence.
Qed.

(** C8 fails as stated: registering an identifier that is already in the
    registry completes normally and replaces the stored controller. *)
Lemma register_present_overwrites :
  activeStreams example_streaming !! "str_a" = Some 0%nat /\
  (register "str_a" example_streaming).1 = Ok 1%nat /\
  activeStreams (register "str_a" example_streaming).2 !! "str_a" = Some 1%nat.
Proof. repeat split; reflexivity. Qed.

(* ===================================================================== *)
(** ** The session store *)
(* ===================================================================== *)

Lemma getSession_absent (s : State) (id : string) :
  sessions s !! id = None -> getSession id s = (Ok None, s).
Proof. intros H. unfold getSession, bind, gets. rewrite H. reflexivity. Qed.

Lemma getSession_expired (s : State) (id : string) (l : nat) (session : SessionState) :
  sessions s !! id = Some l -> heap s !! l = Some session ->
  ss_expiresAt session < clock s (ticks s) ->
  getSession id s = (Ok None, set_sessions (delete id) (set_ticks S s)).
Proof.
  intros Hid Hl Hexp. unfold getSession, bind, gets, deref, Date_now. rewrite Hid, Hl.
  apply Z.ltb_lt in Hexp. rewrite Hexp. reflexivity.
Qed.

Lemma getSession_live (s : State) (id : string) (l : nat) (session : SessionState) :
  sessions s !! id = Some l -> heap s !! l = Some session ->
  clock s (ticks s) <= ss_expiresAt session ->
  getSession id s = (Ok (Some l), set_ticks S s).
Proof.
  intros Hid Hl Hlive. unfold getSession, bind, gets, deref, Date_now. rewrite Hid, Hl.
  destruct (Z.ltb_spec (ss_expiresAt session) (clock s (ticks s))); [lia | reflexivity].
Qed.

Lemma updateSession_live (s : State) (id : string) (l : nat) (session : SessionState)
    (updates : SessionUpdates) :
  sessions s !! id = Some l -> heap s !! l = Some session ->
  clock s (ticks s) <= ss_expiresAt session ->
  updateSession id updates s =
    (Ok (Some l),
     set_heap (alter (with_expiresAt (clock s (S (ticks s)) + 5 * 60 * 1000)) l)
       (set_ticks S
          (set_heap (alter (fun session => Object_assign session updates) l)
             (set_ticks S s)))).
Proof.
  intros Hid Hl Hlive. unfold updateSession, bind.
  rewrite (getSession_live s id l session Hid Hl Hlive). reflexivity.
Qed.

Lemma updateSession_absent (s : State) (id : string) (updates : SessionUpdates) :
  sessions s !! id = None -> updateSession id updates s = (Ok None, s).
Proof.
  intros H. unfold updateSession, bind. rewrite (getSession_absent s id H). reflexivity.
Qed.

Lemma updateSession_expired (s : State) (id : string) (l : nat) (session : SessionState)
    (updates : SessionUpdates) :
  sessions s !! id = Some l -> heap s !! l = Some session ->
  ss_expiresAt session < clock s (ticks s) ->
  updateSession id updates s = (Ok None, set_sessions (delete id) (set_ticks S s)).
Proof.
  intros Hid Hl Hexp. unfold updateSession, bind.
  rewrite (getSession_expired s id l session Hid Hl Hexp). reflexivity.
Qed.

(** C5, as the code has it. [updateSession] on a session that is still
    live merges the given fields into the stored record and sets its
    [expiresAt] to the time of the update plus five minutes (300000 ms),
    whatever ttl the session was created with and however close to
    expiring it was; the map of sessions and every other record are left
    alone.  On an expired session it returns null after evicting the entry,
    on an absent one it returns null and changes nothing; in neither case
    is a record created or modified. *)
Theorem updateSession_slides_by_five_minutes (s : State) (id : string) (l : nat)
    (session : SessionState) (updates : SessionUpdates) :
  sessions s !! id = Some l ->
  heap s !! l = Some session ->
  let now_checked := clock s (ticks s) in
  let now_updated := clock s (S (ticks s)) in
  let s' := (updateSession id updates s).2 in
  (now_checked <= ss_expiresAt session ->
     (updateSession id updates s).1 = Ok (Some l) /\
     sessions s' = sessions s /\
     heap s' !! l = Some (with_expiresAt (now_updated + 300000) (Object_assign session updates)) /\
     (forall l' : nat, l' <> l -> heap s' !! l' = heap s !! l')) /\
  (ss_expiresAt session < now_checked ->
     (updateSession id updates s).1 = Ok None /\
     sessions s' = delete id (sessions s) /\
     heap s' = heap s) /\
  (forall (s0 : State) (absent : string),
     sessions s0 !! absent = None ->
     (updateSession absent updates s0).1 = Ok None /\
     (updateSession absent updates s0).2 = s0).
Proof.
  intros Hid Hl. cbv zeta. split; [ | split ].
  - intros Hlive. rewrite (updateSession_live s id l session updates Hid Hl Hlive). simpl.
    repeat split.
    + rewrite !list_lookup_alter_eq, Hl. reflexivity.
    + intros l' Hne. rewrite !list_lookup_alter_ne by congruence. reflexivity.
  - intros Hexp. rewrite (updateSession_expired s id l session updates Hid Hl Hexp).
    repeat split.
  - intros s0 absent Habs. rewrite (updateSession_absent s0 absent updates Habs).
    split; reflexivity.
Qed.

Lemma updateSession_slides_by_five_minutes_witness :
  sessions short_lived !! "sess_rs_k3x9q2ab" = Some 0%nat /\
  (ss_expiresAt <$> heap short_lived !! 0%nat) = Some 2001 /\
  (ss_expiresAt <$>
     heap (updateSession "sess_rs_k3x9q2ab" no_updates short_lived).2 !! 0%nat) = Some 301003.
Proof.
  assert (Hid : sessions short_lived !! "sess_rs_k3x9q2ab" = Some 0%nat) by reflexivity.
  split; [exact Hid | split; [reflexivity | ]].
  pose proof (updateSession_slides_by_five_minutes short_lived "sess_rs_k3x9q2ab" 0 _
                no_updates Hid eq_refl) as H.
  cbv zeta in H. destruct H as [Hlive _].
  destruct Hlive as (_ & _ & Hrec & _).
  - vm_compute. discriminate.
  - rewrite Hrec. reflexivity.
Defined.

(** C5 fails as stated. A session created with a ttl of 1000 ms and
    updated at time 1003 expires at 1003 + 300000, not at 1003 + 1000; and
    an update on an expired session does change the store: it evicts the
    entry. *)
Lemma update_ignores_creation_ttl :
  ((ss_expiresAt <$> heap short_lived !! 0%nat) = Some (1001 + 1000) /\
   clock short_lived (S (ticks short_lived)) = 1003 /\
   (ss_expiresAt <$>
      heap (updateSession "sess_rs_k3x9q2ab" no_updates short_lived).2 !! 0%nat)
     = Some (1003 + 300000) /\
   1003 + 300000 <> 1003 + 1000) /\
  (sessions short_lived_late !! "sess_rs_k3x9q2ab" = Some 0%nat /\
   (updateSession "sess_rs_k3x9q2ab" no_updates short_lived_late).1 = Ok None /\
   sessions (updateSession "sess_rs_k3x9q2ab" no_updates short_lived_late).2
     !! "sess_rs_k3x9q2ab" = None).
Proof. repeat split; try reflexivity. vm_compute. discriminate. Qed.

(* ===================================================================== *)
(** ** Registration and cleanup of streams *)
(* ===================================================================== *)

Lemma registry_but_refl streamId s : registry_but streamId s s.
Proof. reflexivity. Qed.

Lemma registry_but_trans streamId s1 s2 s3 :
  registry_but streamId s1 s2 -> registry_but streamId s2 s3 -> registry_but streamId s1 s3.
Proof. unfold registry_but. congruence. Qed.

Ltac registry_but_prim :=
  intros ?; unfold registry_but; simpl;
  rewrite ?delete_insert_eq, ?delete_delete_eq; reflexivity.

Lemma history_extends_refl s : history_extends s s.
Proof. exists []. symmetry. apply app_nil_r. Qed.

Lemma history_extends_trans s1 s2 s3 :
  history_extends s1 s2 -> history_extends s2 s3 -> history_extends s1 s3.
Proof.
  intros [a Ha] [b Hb]. exists (a ++ b). rewrite Hb, Ha. symmetry. apply app_assoc.
Qed.

Ltac history_extends_prim :=
  intros ?; unfold history_extends; simpl;
  first [ eexists; reflexivity | exists []; symmetry; apply app_nil_r ].

(** What the [finally] block establishes holds however the [try] went. *)
Lemma finally_establishes {A} (body : M A) (handler : Thrown -> M A) (final : M unit)
    (Q : State -> Prop) :
  (forall s, Q (final s).2) ->
  forall s, Q (try_catch_finally body handler final s).2.
Proof.
  intros HQ s. unfold try_catch_finally.
  destruct (body s) as [[a | e] s1].
  - specialize (HQ s1). destruct (final s1) as [[[] | e'] s3]; exact HQ.
  - destruct (handler e s1) as [r2 s2]. specialize (HQ s2).
    destruct (final s2) as [[[] | e'] s3]; exact HQ.
Qed.

Lemma round_closed_intro (streamId : string) (s s1 s' : State) :
  delete streamId (activeStreams s1) = delete streamId (activeStreams s) ->
  Registered streamId ∈ history s1 ->
  registry_but streamId s1 s' ->
  history_extends s1 s' ->
  activeStreams s' !! streamId = None /\ rp_ended (reply s') = true ->
  round_closed streamId s s'.
Proof.
  intros H1 Hin Hreg [added Hadd] [Hnone Hend]. unfold round_closed, registry_but in *.
  repeat split; try assumption.
  - rewrite <- H1, <- Hreg. symmetry. apply delete_id. exact Hnone.
  - rewrite Hadd. apply elem_of_app. left. exact Hin.
Qed.

(** The common argument: run the handler up to the registration, then use
    the two transition invariants and the [finally] block. *)
Ltac close_round s :=
  let Hr1 := fresh "Hr1" in let Ht1 := fresh "Ht1" in
  let Hr2 := fresh "Hr2" in let Ht2 := fresh "Ht2" in
  let Hm := fresh "Hm" in
  pose proof (registry_but_refl (next_stream_id s)) as Hr1;
  pose proof (registry_but_trans (next_stream_id s)) as Ht1;
  pose proof history_extends_refl as Hr2;
  pose proof history_extends_trans as Ht2;
  unfold bind at 1; unfold generateStreamId at 1;
  unfold bind at 1; unfold Date_now at 1; unfold bind at 1; unfold Math_random_suffix at 1;
  unfold ret at 1; fold (next_stream_id s);
  unfold bind at 1; rewrite register_eq;
  apply round_closed_intro
    with (s1 := (register (next_stream_id s) (set_draws S (set_ticks S s))).2);
  [ rewrite register_eq; simpl; apply delete_insert_eq
  | rewrite register_eq; simpl; apply elem_of_app; right;
    apply list_elem_of_singleton; reflexivity
  | match goal with
    | |- registry_but _ _ (?m _).2 =>
        assert (Hm : respects (registry_but (next_stream_id s)) m)
          by (respects_all; registry_but_prim)
    end; apply Hm
  | match goal with
    | |- history_extends _ (?m _).2 =>
        assert (Hm : respects history_extends m) by (respects_all; history_extends_prim)
    end; apply Hm
  | unfold bind at 1; unfold writeHead at 1; unfold modify at 1;
    unfold bind at 1; unfold sendEvent at 1; unfold modify at 1;
    apply (finally_establishes _ _ _
             (fun s' => activeStreams s' !! next_stream_id s = None
                        /\ rp_ended (reply s') = true));
    intros ?; simpl; split; [apply lookup_delete_eq | reflexivity] ].

Lemma stream_handler_closes (config : Config) (req : CompletionRequest) (run : StreamRun)
    (s : State) :
  round_closed (next_stream_id s) s (stream_handler config (ParseSuccess req) run s).2.
Proof. unfold stream_handler. close_round s. Qed.

Lemma continue_round_closes (sessionId : string) (session : nat) (items : list JsValue)
    (run : StreamRun) (s : State) :
  round_closed (next_stream_id s) s (continue_round sessionId session items run s).2.
Proof. unfold continue_round. close_round s. Qed.

Lemma context_stream_handler_closes (config : Config) (req : ContextRequest)
    (run : ContextRun) (s : State) :
  round_closed (next_stream_id s) s
    (context_stream_handler config (ContextParseSuccess req) run s).2.
Proof. unfold context_stream_handler. close_round s. Qed.

(** C2. In each of the three streaming handlers (fresh stream,
    continuation, context stream), whatever callbacks the collaborator
    fires and however the invocation ends (a normal response, an aborted
    response, or an exception), the stream identifier that the handler
    registered is not in the registry when the handler finishes, every
    other entry of the registry is as it was, and the reply stream has been
    ended.  The identifier is in the registry right after registration;
    and the cleanup step never fails and removes the identifier whether or
    not it is still there (an abort request may have removed it in the
    meantime). *)
Theorem stream_deregistered_on_every_exit (config : Config) (s : State) :
  let streamId := next_stream_id s in
  (forall s0 : State, activeStreams (register streamId s0).2 !! streamId
                      = Some (length (controllers s0))) /\
  (forall s0 : State,
     (cleanupStream streamId s0).1 = Ok tt /\
     activeStreams (cleanupStream streamId s0).2 = delete streamId (activeStreams s0) /\
     activeStreams (cleanupStream streamId (after (abort_handler streamId) s0)).2 !! streamId
       = None) /\
  (forall (req : CompletionRequest) (run : StreamRun),
     round_closed streamId s (stream_handler config (ParseSuccess req) run s).2) /\
  (forall (sessionId : string) (session : nat) (items : list JsValue) (run : StreamRun),
     round_closed streamId s (continue_round sessionId session items run s).2) /\
  (forall (req : ContextRequest) (run : ContextRun),
     round_closed streamId s
       (context_stream_handler config (ContextParseSuccess req) run s).2).
Proof.
  cbv zeta. split; [ | split; [ | split; [ | split ] ] ].
  - intros s0. rewrite register_eq. simpl. apply lookup_insert_eq.
  - intros s0. split; [reflexivity | split; [reflexivity | ]].
    unfold cleanupStream, modify. simpl. apply lookup_delete_eq.
  - intros req run. apply stream_handler_closes.
  - intros sessionId session items run. apply continue_round_closes.
  - intros req run. apply context_stream_handler_closes.
Qed.

(* ===================================================================== *)
(** ** The fresh-stream handler *)
(* ===================================================================== *)

(** Unfolds a handler down to the state changes it makes. *)
Ltac run_handler :=
  unfold after, completion, serve, stream_handler, continue_handler, continue_round,
    context_stream_handler, complete_handler, try_catch_finally,
    membrane_stream, membrane_complete, processContext, createMembrane, createSession,
    updateProviderHealth, generateStreamId, generateSessionId, register, new_AbortController,
    activeStreams_set, cleanupStream, deleteSession, writeHead, sendEvent, raw_end,
    reply_code_send, reply_send, invalid_body, handleError, mutate,
    bind, ret, gets, lift, modify, throw, Date_now, Math_random_suffix.

Lemma stream_handler_continueFrom (config : Config) (s : State)
    (req : CompletionRequest) (cf : ContinueFrom) (run : StreamRun) :
  cr_continueFrom req = Some cf ->
  let streamId := next_stream_id s in
  let provider := default (cfg_defaultProvider config) (cr_provider req) in
  let s' := after (stream_handler config (ParseSuccess req) run) s in
  (exists code message retryable,
     rp_events (reply s') = [ev_stream_start streamId; ev_error code message retryable]) /\
  (forall adapter,
     createAdapter (fallbackConfig s) provider (cr_apiKey req) (cr_providerConfig req)
       = Ok adapter ->
     rp_events (reply s') = [ev_stream_start streamId; use_continue_endpoint]) /\
  rp_ended (reply s') = true /\
  history s' = history s ++ [Registered streamId] /\
  activeStreams s' = delete streamId (activeStreams s) /\
  sessions s' = sessions s /\
  heap s' = heap s.
Proof.
  intros Hcf. cbv zeta. run_handler. simpl.
  destruct (createAdapter (fallbackConfig s) (default (cfg_defaultProvider config) (cr_provider req))
              (cr_apiKey req) (cr_providerConfig req)) as [adapter | e] eqn:Hadapter.
  - rewrite Hcf. simpl. repeat split.
    + eexists _, _, _. reflexivity.
    + rewrite !delete_delete_eq, delete_insert_eq. reflexivity.
  - simpl. repeat split.
    + eexists _, _, _. reflexivity.
    + intros adapter Hok. discriminate Hok.
    + apply delete_insert_eq.
Qed.

(** C1, as the code has it. A fresh-stream request that passes schema
    validation and carries [continueFrom] is answered with [stream_start]
    followed by exactly one [error] event, and the stream is ended; the
    error is [use_continue_endpoint] whenever a membrane instance can be
    created for the request, which the handler does before it looks at
    [continueFrom].  The stream identifier is registered before the check,
    once, and is removed again before the handler returns; the
    collaborator is not invoked and the session store is not touched.  A
    body that fails schema validation, with or without a [continueFrom]
    field, is answered 400 [invalid_request] and nothing else: no event is
    sent, no identifier is registered and the collaborator is not
    invoked. *)
Theorem continueFrom_rejected_after_registration (config : Config) (s : State)
    (req : CompletionRequest) (cf : ContinueFrom) (run : StreamRun) :
  cr_continueFrom req = Some cf ->
  let streamId := next_stream_id s in
  let provider := default (cfg_defaultProvider config) (cr_provider req) in
  let s' := after (stream_handler config (ParseSuccess req) run) s in
  (exists code message retryable,
     rp_events (reply s') = [ev_stream_start streamId; ev_error code message retryable]) /\
  (forall adapter,
     createAdapter (fallbackConfig s) provider (cr_apiKey req) (cr_providerConfig req)
       = Ok adapter ->
     rp_events (reply s') = [ev_stream_start streamId; use_continue_endpoint]) /\
  rp_ended (reply s') = true /\
  history s' = history s ++ [Registered streamId] /\
  activeStreams s' = delete streamId (activeStreams s) /\
  sessions s' = sessions s /\
  heap s' = heap s /\
  (forall issues : JsValue,
     let rejected := after (stream_handler config (ParseFailure issues) run) s in
     completion (stream_handler config (ParseFailure issues) run) s = Ok tt /\
     rp_status (reply rejected) = Some 400 /\
     rp_body (reply rejected)
       = Some (body_error "invalid_request" "Invalid request body" false issues) /\
     rp_head (reply rejected) = None /\
     rp_events (reply rejected) = [] /\
     history rejected = history s /\
     activeStreams rejected = activeStreams s /\
     controllers rejected = controllers s /\
     sessions rejected = sessions s).
Proof.
  intros Hcf.
  destruct (stream_handler_continueFrom config s req cf run Hcf)
    as (Hevents & Hadvice & Hended & Hhistory & Hregistry & Hsessions & Hheap).
  cbv zeta.
  split; [exact Hevents | ]. split; [exact Hadvice | ]. split; [exact Hended | ].
  split; [exact Hhistory | ]. split; [exact Hregistry | ]. split; [exact Hsessions | ].
  split; [exact Hheap | ].
  intros issues. repeat split.
Qed.

Lemma continueFrom_rejected_after_registration_witness :
  cr_continueFrom example_continueFrom_request = Some example_continueFrom /\
  rp_events (reply (after (stream_handler example_config
                             (ParseSuccess example_continueFrom_request)
                             (run_of example_final_response))
                      example_boot))
  = [ev_stream_start "str_rs_k3x9q2ab"; use_continue_endpoint].
Proof.
  split; [reflexivity | ].
  pose proof (continueFrom_rejected_after_registration example_config example_boot
                example_continueFrom_request example_continueFrom
                (run_of example_final_response) eq_refl) as H.
  cbv zeta in H. destruct H as (_ & Hok & _).
  exact (Hok (AnthropicAdapter "sk-server") eq_refl).
Defined.

(** C1 fails as stated. While a request with [continueFrom] is handled, a
    stream identifier is registered in the registry; and on a server that
    has no credentials for the request, the [error] event is the one of
    [createMembrane], not the redirection to the continuation entry
    point. *)
Lemma continueFrom_request_is_registered :
  history (after (stream_handler example_config
                    (ParseSuccess example_continueFrom_request)
                    (run_of example_final_response))
             example_boot)
  = [Registered "str_rs_k3x9q2ab"] /\
  rp_events (reply (after (stream_handler keyless_config
                             (ParseSuccess example_continueFrom_request)
                             (run_of example_final_response))
                      (boot keyless_config example_clock example_random)))
  = [ev_stream_start "str_rs_k3x9q2ab";
     ev_error "internal_error"
       "No API key for Anthropic. Provide apiKey in request or configure ANTHROPIC_API_KEY."
       false].
Proof. split; reflexivity. Qed.

Lemma emit_nil s : emit [] s = s.
Proof.
  destruct s as [? ? ? ? ? ? ? ? ? ? [? ? ? ? ?] ?]. unfold emit, set_reply. simpl.
  rewrite app_nil_r. reflexivity.
Qed.

Lemma emit_app a b s : emit b (emit a s) = emit (a ++ b) s.
Proof.
  destruct s as [? ? ? ? ? ? ? ? ? ? [? ? ? ? ?] ?]. unfold emit, set_reply. simpl.
  rewrite app_assoc. reflexivity.
Qed.

Lemma onBlock_emits blockEvent s :
  onBlock blockEvent s = (Ok tt, emit (block_events blockEvent) s).
Proof.
  unfold onBlock, block_events.
  destruct (String.eqb (be_event blockEvent) "block_start"); [reflexivity | ].
  destruct (String.eqb (be_event blockEvent) "block_complete"); [reflexivity | ].
  unfold ret. rewrite emit_nil. reflexivity.
Qed.

Lemma fire_stream_callbacks (callbacks : list Callback) (locals : StreamLocals) (s : State) :
  fire stream_callbacks callbacks locals s =
    (Ok (fold_left locals_after callbacks locals), emit (flat_map forwarded callbacks) s).
Proof.
  revert locals s. induction callbacks as [ | cb rest IH]; intros locals s; simpl.
  - unfold ret. rewrite emit_nil. reflexivity.
  - unfold bind at 1.
    assert (Hcb : stream_callbacks locals cb s = (Ok (locals_after locals cb), emit (forwarded cb) s)).
    { destruct cb; simpl; try reflexivity.
      unfold bind. rewrite onBlock_emits. reflexivity. }
    rewrite Hcb, IH, emit_app. reflexivity.
Qed.

Lemma fire_continue_callbacks (callbacks : list Callback) (s : State) :
  fire continue_callbacks callbacks tt s = (Ok tt, emit (flat_map forwarded callbacks) s).
Proof.
  revert s. induction callbacks as [ | cb rest IH]; intros s; simpl.
  - unfold ret. rewrite emit_nil. reflexivity.
  - unfold bind at 1.
    assert (Hcb : continue_callbacks tt cb s = (Ok tt, emit (forwarded cb) s)).
    { destruct cb; simpl; try reflexivity. apply onBlock_emits. }
    rewrite Hcb, IH, emit_app. reflexivity.
Qed.

Lemma fire_context_callbacks (callbacks : list Callback) (s : State) :
  fire context_callbacks callbacks tt s =
    (Ok tt, emit (flat_map forwarded_context callbacks) s).
Proof.
  revert s. induction callbacks as [ | cb rest IH]; intros s; simpl.
  - unfold ret. rewrite emit_nil. reflexivity.
  - unfold bind at 1.
    assert (Hcb : context_callbacks tt cb s = (Ok tt, emit (forwarded_context cb) s)).
    { destruct cb; simpl; try reflexivity. unfold ret. rewrite emit_nil. reflexivity. }
    rewrite Hcb, IH, emit_app. reflexivity.
Qed.

Lemma forwarded_plain (callbacks : list Callback) :
  Forall (fun event => is_tool_calls event = false /\ is_done event = false)
         (flat_map forwarded callbacks).
Proof.
  induction callbacks as [ | cb rest IH]; simpl; [constructor | ].
  apply Forall_app. split; [ | exact IH].
  destruct cb; simpl; repeat constructor.
  unfold block_events.
  destruct (String.eqb (be_event blockEvent) "block_start"); [repeat constructor | ].
  destruct (String.eqb (be_event blockEvent) "block_complete"); repeat constructor.
Qed.

Lemma forwarded_context_plain (callbacks : list Callback) :
  Forall (fun event => is_tool_calls event = false /\ is_done event = false)
         (flat_map forwarded_context callbacks).
Proof.
  induction callbacks as [ | cb rest IH]; simpl; [constructor | ].
  apply Forall_app. split; [ | exact IH].
  destruct cb; simpl; repeat constructor.
Qed.

Lemma wants_tools_true (response : NormalizedResponse) :
  wants_tools response = true <->
  resp_stopReason response = "tool_use" /\ resp_toolCalls response <> [].
Proof.
  unfold wants_tools. rewrite andb_true_iff, String.eqb_eq, Z.ltb_lt.
  destruct (resp_toolCalls response); simpl; split; intros [H1 H2]; split;
    try assumption; try lia; congruence.
Qed.

Lemma wants_tools_false (response : NormalizedResponse) :
  wants_tools response = false <->
  resp_stopReason response <> "tool_use" \/ resp_toolCalls response = [].
Proof.
  destruct (wants_tools response) eqn:H.
  - apply wants_tools_true in H. destruct H as [H1 H2]. split; [discriminate | ].
    intros [H' | H']; contradiction.
  - split; [ | reflexivity ]. intros _.
    destruct (String.eqb_spec (resp_stopReason response) "tool_use") as [He | Hne];
      [ | left; exact Hne ].
    destruct (resp_toolCalls response) eqn:Hc; [right; reflexivity | ].
    exfalso. assert (wants_tools response = true); [ | congruence ].
    apply wants_tools_true. rewrite Hc. split; [exact He | discriminate].
Qed.

Lemma stream_round_with_tools (config : Config) (s : State) (req : CompletionRequest)
    (run : StreamRun) (adapter : Adapter) (response : NormalizedResponse) :
  cr_continueFrom req = None ->
  createAdapter (fallbackConfig s) (default (cfg_defaultProvider config) (cr_provider req))
    (cr_apiKey req) (cr_providerConfig req) = Ok adapter ->
  sr_outcome run = Ok (NormalResponse response) ->
  wants_tools response = true ->
  let s' := after (stream_handler config (ParseSuccess req) run) s in
  rp_events (reply s') =
    ev_stream_start (next_stream_id s)
    :: flat_map forwarded (sr_callbacks run)
    ++ [ev_tool_calls (resp_toolCalls response) (round_session_id s);
        ev_done (buildCompletionResponse response
                   (default (cfg_defaultProvider config) (cr_provider req))
                   (clock s (5 + ticks s)%nat - clock s (1 + ticks s)%nat))] /\
  sessions s' = <[round_session_id s := length (heap s)]> (sessions s) /\
  heap s' = heap s ++ [round_session config req response s].
Proof.
  intros Hcf Had Hout Hw. cbv zeta. run_handler. simpl.
  rewrite Had. simpl. rewrite Hcf. rewrite fire_stream_callbacks. simpl. rewrite Hout. simpl.
  rewrite Hw. unfold deref. simpl.
  rewrite list_lookup_middle by reflexivity. simpl.
  repeat split. rewrite <- app_assoc. reflexivity.
Qed.

Lemma stream_round_without_tools (config : Config) (s : State) (req : CompletionRequest)
    (run : StreamRun) (adapter : Adapter) (response : NormalizedResponse) :
  cr_continueFrom req = None ->
  createAdapter (fallbackConfig s) (default (cfg_defaultProvider config) (cr_provider req))
    (cr_apiKey req) (cr_providerConfig req) = Ok adapter ->
  sr_outcome run = Ok (NormalResponse response) ->
  wants_tools response = false ->
  let s' := after (stream_handler config (ParseSuccess req) run) s in
  rp_events (reply s') =
    ev_stream_start (next_stream_id s)
    :: flat_map forwarded (sr_callbacks run)
    ++ [ev_done (buildCompletionResponse response
                   (default (cfg_defaultProvider config) (cr_provider req))
                   (clock s (3 + ticks s)%nat - clock s (1 + ticks s)%nat))] /\
  sessions s' = sessions s /\
  heap s' = heap s.
Proof.
  intros Hcf Had Hout Hw. cbv zeta. run_handler. simpl.
  rewrite Had. simpl. rewrite Hcf. rewrite fire_stream_callbacks. simpl. rewrite Hout. simpl.
  rewrite Hw. simpl. repeat split.
Qed.

(* ===================================================================== *)
(** ** The continuation handler *)
(* ===================================================================== *)

Section ContinueSettle.
Variables (s : State) (sessionId : string) (l : nat) (pushed : SessionState).
Variables (startMs : Z) (response : NormalizedResponse).

Hypothesis Hid : sessions s !! sessionId = Some l.
Hypothesis Hl : heap s !! l = Some pushed.

Let settled := continue_settle sessionId l startMs (NormalResponse response) s.

Ltac enter_settle :=
  unfold settled, continue_settle; run_handler; unfold deref; simpl;
  rewrite Hl; simpl.

Ltac leave_settle :=
  unfold settled_frame; repeat split; simpl;
  rewrite <- ?app_assoc; rewrite ?length_alter, ?list_lookup_alter_eq, ?Hl; simpl; reflexivity.

(** Another tool round, the session still live when it is merged. *)
Lemma continue_settle_merges :
  wants_tools response = true ->
  clock s (1 + ticks s)%nat <= ss_expiresAt pushed ->
  settled.1 = Ok tt /\
  rp_events (reply settled.2) =
    rp_events (reply s)
    ++ [ev_tool_calls (resp_toolCalls response) sessionId;
        ev_done (buildCompletionResponse response (ss_provider pushed)
                   (clock s (3 + ticks s)%nat - startMs))] /\
  sessions settled.2 = sessions s /\
  heap settled.2 !! l = Some (merged pushed response (clock s (2 + ticks s)%nat)) /\
  settled_frame s settled.2.
Proof.
  intros Hw Hlive. enter_settle. rewrite Hw. simpl. rewrite Hl. simpl.
  erewrite updateSession_live;
    [ | simpl; exact Hid | simpl; exact Hl | simpl; exact Hlive ].
  simpl. rewrite !list_lookup_alter_eq, Hl. simpl.
  leave_settle.
Qed.

(** Another tool round, the session expired in the meantime. *)
Lemma continue_settle_too_late :
  wants_tools response = true ->
  ss_expiresAt pushed < clock s (1 + ticks s)%nat ->
  settled.1 = Ok tt /\
  rp_events (reply settled.2) =
    rp_events (reply s)
    ++ [ev_tool_calls (resp_toolCalls response) sessionId;
        ev_done (buildCompletionResponse response (ss_provider pushed)
                   (clock s (2 + ticks s)%nat - startMs))] /\
  sessions settled.2 = delete sessionId (sessions s) /\
  heap settled.2 = heap s /\
  settled_frame s settled.2.
Proof.
  intros Hw Hlate. enter_settle. rewrite Hw. simpl. rewrite Hl. simpl.
  erewrite updateSession_expired;
    [ | simpl; exact Hid | simpl; exact Hl | simpl; exact Hlate ].
  simpl. rewrite Hl. simpl.
  leave_settle.
Qed.

(** A round that ends the conversation. *)
Lemma continue_settle_finishes :
  wants_tools response = false ->
  settled.1 = Ok tt /\
  rp_events (reply settled.2) =
    rp_events (reply s)
    ++ [ev_done (buildCompletionResponse response (ss_provider pushed)
                   (clock s (1 + ticks s)%nat - startMs))] /\
  sessions settled.2 = delete sessionId (sessions s) /\
  heap settled.2 = heap s /\
  settled_frame s settled.2.
Proof.
  intros Hw. enter_settle. rewrite Hw. simpl. rewrite Hl. simpl.
  leave_settle.
Qed.
End ContinueSettle.

Lemma continue_round_ok (sessionId : string) (l : nat) (items : list JsValue)
    (run : StreamRun) (s s2 : State) :
  continue_invoke sessionId l items run (started s) = (Ok tt, s2) ->
  continue_round sessionId l items run s = (Ok tt, closed (next_stream_id s) s2).
Proof.
  intros H. unfold continue_round.
  unfold bind at 1. unfold generateStreamId at 1.
  unfold bind at 1. unfold Date_now at 1. unfold bind at 1. unfold Math_random_suffix at 1.
  unfold ret at 1. fold (next_stream_id s).
  unfold bind at 1. rewrite register_eq.
  unfold bind at 1. unfold writeHead at 1. unfold modify at 1.
  unfold bind at 1. unfold sendEvent at 1. unfold modify at 1.
  unfold try_catch_finally.
  match goal with
  | |- context [continue_invoke sessionId l items run ?E] => change E with (started s)
  end.
  rewrite H. reflexivity.
Qed.

Section ContinueInvoke.
Variables (s : State) (sessionId : string) (l : nat) (stored : SessionState).
Variables (items : list JsValue) (toolResults : list ToolResult).
Variables (run : StreamRun) (adapter : Adapter) (response : StreamResponse).

Hypothesis Hl : heap s !! l = Some stored.
Hypothesis Hadapter :
  createAdapter (fallbackConfig s) (ss_provider stored) (ss_apiKey stored)
    (ss_providerConfig stored) = Ok adapter.
Hypothesis Hitems : map_toolResults items = Ok toolResults.
Hypothesis Houtcome : sr_outcome run = Ok response.

Lemma continue_invoke_settles :
  continue_invoke sessionId l items run s
  = continue_settle sessionId l (clock s (ticks s)) response
      (invoked s l stored toolResults run).
Proof.
  unfold continue_invoke, invoked. run_handler. unfold deref. simpl.
  rewrite Hl. simpl. rewrite Hadapter. simpl. rewrite Hitems. simpl.
  rewrite list_lookup_alter_eq, Hl. simpl.
  rewrite fire_continue_callbacks. simpl. rewrite Houtcome. reflexivity.
Qed.
End ContinueInvoke.

Lemma pair_eta {A B} (p : A * B) (a : A) : p.1 = a -> p = (a, p.2).
Proof. destruct p. simpl. congruence. Qed.

Section ContinueRound.
Variables (s : State) (sessionId : string) (l : nat) (stored : SessionState).
Variables (items : list JsValue) (toolResults : list ToolResult).
Variables (run : StreamRun) (adapter : Adapter) (response : NormalizedResponse).

Hypothesis Hid : sessions s !! sessionId = Some l.
Hypothesis Hl : heap s !! l = Some stored.
Hypothesis Hadapter :
  createAdapter (fallbackConfig s) (ss_provider stored) (ss_apiKey stored)
    (ss_providerConfig stored) = Ok adapter.
Hypothesis Hitems : map_toolResults items = Ok toolResults.
Hypothesis Houtcome : sr_outcome run = Ok (NormalResponse response).

Let pushed := push_executedToolResults toolResults stored.
Let s' := (continue_round sessionId l items run s).2.
Let at_settle := invoked (started s) l stored toolResults run.

Local Lemma at_settle_id : sessions at_settle !! sessionId = Some l.
Proof. exact Hid. Qed.

Local Lemma at_settle_l : heap at_settle !! l = Some pushed.
Proof.
  unfold at_settle, invoked, started, emit. simpl. rewrite list_lookup_alter_eq, Hl.
  reflexivity.
Qed.

Local Lemma round_settles :
  continue_invoke sessionId l items run (started s)
  = continue_settle sessionId l (clock s (1 + ticks s)%nat) (NormalResponse response)
      at_settle.
Proof.
  apply (continue_invoke_settles (started s) sessionId l stored items toolResults run
           adapter (NormalResponse response)); assumption.
Qed.

(** From the facts about the settled round to the facts about the whole
    round.  The result of the [try] block is named first, so that no
    later step looks into the handler again. *)
Ltac leave_round Hok Hev Hsess Hheap Hframe :=
  let r2 := fresh "r2" in let s2 := fresh "s2" in let Hinv := fresh "Hinv" in
  unfold settled_frame in Hframe; rewrite <- round_settles in Hok, Hev, Hsess, Hheap, Hframe;
  destruct (continue_invoke sessionId l items run (started s)) as [r2 s2] eqn:Hinv;
  simpl in Hok, Hev, Hsess, Hheap, Hframe; subst r2;
  destruct Hframe as (Hreg & Hhist & Hctl & Hclock & Hlen);
  unfold s'; rewrite (continue_round_ok _ _ _ _ _ _ Hinv);
  unfold closed; simpl;
  rewrite ?Hev, ?Hsess, ?Hheap, ?Hlen;
  unfold at_settle, invoked, started, emit; simpl;
  rewrite <- ?app_assoc; rewrite ?length_alter, ?list_lookup_alter_eq, ?Hl; simpl;
  repeat split; reflexivity.

(** Another tool round, the session still live when it is merged. *)
Lemma continue_round_merges :
  wants_tools response = true ->
  clock s (3 + ticks s)%nat <= ss_expiresAt stored ->
  rp_events (reply s') =
    rp_events (reply s)
    ++ ev_stream_start (next_stream_id s)
    :: flat_map forwarded (sr_callbacks run)
    ++ [ev_tool_calls (resp_toolCalls response) sessionId;
        ev_done (buildCompletionResponse response (ss_provider stored)
                   (clock s (5 + ticks s)%nat - clock s (1 + ticks s)%nat))] /\
  sessions s' = sessions s /\
  heap s' !! l = Some (merged pushed response (clock s (4 + ticks s)%nat)) /\
  length (heap s') = length (heap s).
Proof.
  intros Hw Hlive.
  destruct (continue_settle_merges at_settle sessionId l pushed (clock s (1 + ticks s)%nat)
              response at_settle_id at_settle_l Hw Hlive)
    as (Hok & Hev & Hsess & Hheap & Hframe).
  leave_round Hok Hev Hsess Hheap Hframe.
Qed.

(** Another tool round, the session expired in the meantime. *)
Lemma continue_round_too_late :
  wants_tools response = true ->
  ss_expiresAt stored < clock s (3 + ticks s)%nat ->
  rp_events (reply s') =
    rp_events (reply s)
    ++ ev_stream_start (next_stream_id s)
    :: flat_map forwarded (sr_callbacks run)
    ++ [ev_tool_calls (resp_toolCalls response) sessionId;
        ev_done (buildCompletionResponse response (ss_provider stored)
                   (clock s (4 + ticks s)%nat - clock s (1 + ticks s)%nat))] /\
  sessions s' = delete sessionId (sessions s) /\
  heap s' !! l = Some pushed /\
  length (heap s') = length (heap s).
Proof.
  intros Hw Hlate.
  destruct (continue_settle_too_late at_settle sessionId l pushed (clock s (1 + ticks s)%nat)
              response at_settle_id at_settle_l Hw Hlate)
    as (Hok & Hev & Hsess & Hheap & Hframe).
  leave_round Hok Hev Hsess Hheap Hframe.
Qed.

(** A round that ends the conversation. *)
Lemma continue_round_finishes :
  wants_tools response = false ->
  rp_events (reply s') =
    rp_events (reply s)
    ++ ev_stream_start (next_stream_id s)
    :: flat_map forwarded (sr_callbacks run)
    ++ [ev_done (buildCompletionResponse response (ss_provider stored)
                   (clock s (3 + ticks s)%nat - clock s (1 + ticks s)%nat))] /\
  sessions s' = delete sessionId (sessions s) /\
  heap s' !! l = Some pushed /\
  length (heap s') = length (heap s).
Proof.
  intros Hw.
  destruct (continue_settle_finishes at_settle sessionId l pushed (clock s (1 + ticks s)%nat)
              response at_settle_l Hw)
    as (Hok & Hev & Hsess & Hheap & Hframe).
  leave_round Hok Hev Hsess Hheap Hframe.
Qed.
End ContinueRound.

(** A well-formed continuation request on a live session enters the
    round, one clock reading later. *)
Lemma continue_handler_enters (s : State) (sessionId : string) (l : nat)
    (stored : SessionState) (items : list JsValue) (run : StreamRun) :
  sessionId <> "" ->
  sessions s !! sessionId = Some l ->
  heap s !! l = Some stored ->
  clock s (ticks s) <= ss_expiresAt stored ->
  continue_handler {| body_sessionId := JStr sessionId; body_toolResults := JArr items |} run s
  = continue_round sessionId l items run (set_ticks S s).
Proof.
  intros Hne Hid Hl Hlive. unfold continue_handler. simpl.
  destruct (String.eqb_spec sessionId "") as [He | _]; [contradiction | ]. simpl.
  unfold bind at 1. rewrite (getSession_live s sessionId l stored Hid Hl Hlive).
  reflexivity.
Qed.

(** C6, as the code has it. A continuation request on a live session
    whose round stops again for tool use.  When the response carries at
    least one tool call and the session has not expired by the time the
    handler merges the round (the store checks the expiration again at
    that point), the store holds the session's record afterwards, with the
    previous text followed by the round's text, the round's content blocks
    and tool calls in place of the previous ones, and as usage the sums of
    the previous totals and the round's usage (and it holds the tool
    results of the request, appended, and expires five minutes after the
    merge).  When the session has expired by then, it is evicted instead:
    nothing is merged, the record keeps its text and usage, and the
    [tool_calls] event is sent all the same.  When the response carries no
    tool call, the session is deleted and nothing is merged. *)
Theorem continuation_round_accumulates (s : State) (sessionId : string) (l : nat)
    (stored : SessionState) (items : list JsValue) (toolResults : list ToolResult)
    (run : StreamRun) (adapter : Adapter) (response : NormalizedResponse) :
  sessionId <> "" ->
  sessions s !! sessionId = Some l ->
  heap s !! l = Some stored ->
  clock s (ticks s) <= ss_expiresAt stored ->
  createAdapter (fallbackConfig s) (ss_provider stored) (ss_apiKey stored)
    (ss_providerConfig stored) = Ok adapter ->
  map_toolResults items = Ok toolResults ->
  sr_outcome run = Ok (NormalResponse response) ->
  resp_stopReason response = "tool_use" ->
  let body := {| body_sessionId := JStr sessionId; body_toolResults := JArr items |} in
  let s' := after (continue_handler body run) s in
  let unmerged := push_executedToolResults toolResults stored in
  (resp_toolCalls response <> [] ->
   clock s (4 + ticks s)%nat <= ss_expiresAt stored ->
     sessions s' !! sessionId = Some l /\
     exists record : SessionState,
       heap s' !! l = Some record /\
       ss_rawAssistantText record
         = ss_rawAssistantText stored +:+ resp_rawAssistantText response /\
       ss_contentBlocks record = resp_content response /\
       ss_toolCalls record = resp_toolCalls response /\
       su_inputTokens (ss_usage record)
         = su_inputTokens (ss_usage stored) + inputTokens (resp_usage response) /\
       su_outputTokens (ss_usage record)
         = su_outputTokens (ss_usage stored) + outputTokens (resp_usage response) /\
       ss_executedToolResults record = ss_executedToolResults stored ++ toolResults /\
       ss_expiresAt record = clock s (5 + ticks s)%nat + 300000) /\
  (resp_toolCalls response <> [] ->
   ss_expiresAt stored < clock s (4 + ticks s)%nat ->
     sessions s' !! sessionId = None /\
     heap s' !! l = Some unmerged /\
     ss_rawAssistantText unmerged = ss_rawAssistantText stored /\
     ss_usage unmerged = ss_usage stored /\
     announces_tools (rp_events (reply s')) (resp_toolCalls response) sessionId) /\
  (resp_toolCalls response = [] ->
     sessions s' !! sessionId = None /\
     heap s' !! l = Some unmerged /\
     ss_rawAssistantText unmerged = ss_rawAssistantText stored /\
     ss_usage unmerged = ss_usage stored /\
     plain_round (rp_events (reply s'))).
Proof.
  intros Hne Hid Hl Hlive Hadapter Hitems Houtcome Hstop body s' unmerged.
  unfold s', after, serve, body, unmerged.
  rewrite (continue_handler_enters (set_reply (fun _ => fresh_reply) s) sessionId l stored
             items run Hne Hid Hl Hlive).
  set (s0 := set_ticks S (set_reply (fun _ => fresh_reply) s)).
  destruct (wants_tools response) eqn:Hw.
  - assert (Hcalls : resp_toolCalls response <> []) by (apply wants_tools_true in Hw; tauto).
    destruct (Z.le_gt_cases (clock s0 (3 + ticks s0)%nat) (ss_expiresAt stored))
      as [Hstill | Hlate].
    + destruct (continue_round_merges s0 sessionId l stored items toolResults run adapter
                  response Hid Hl Hadapter Hitems Houtcome Hw Hstill)
        as (_ & Hsess & Hheap & _).
      destruct (continue_round sessionId l items run s0) as [r2 s2].
      simpl in Hsess, Hheap. simpl. rewrite Hsess, Hheap.
      split; [ | split ].
      * intros _ _. split; [exact Hid | ]. eexists. split; [reflexivity | repeat split].
      * intros _ Hexpired. exfalso. unfold s0 in Hstill. simpl in Hstill. lia.
      * intros Hnone. contradiction.
    + destruct (continue_round_too_late s0 sessionId l stored items toolResults run adapter
                  response Hid Hl Hadapter Hitems Houtcome Hw Hlate)
        as (Hev & Hsess & Hheap & _).
      destruct (continue_round sessionId l items run s0) as [r2 s2].
      simpl in Hev, Hsess, Hheap. simpl. rewrite Hev, Hsess, Hheap.
      split; [ | split ].
      * intros _ Hstill. exfalso. unfold s0 in Hlate. simpl in Hlate. lia.
      * intros _ _. split; [apply lookup_delete_eq | ]. split; [reflexivity | ].
        split; [reflexivity | ]. split; [reflexivity | ].
        exists (ev_stream_start (next_stream_id s0) :: flat_map forwarded (sr_callbacks run)),
               (buildCompletionResponse response (ss_provider stored)
                  (clock s0 (4 + ticks s0)%nat - clock s0 (1 + ticks s0)%nat)).
        split; [reflexivity | ].
        constructor; [split; reflexivity | apply forwarded_plain].
      * intros Hnone. contradiction.
  - assert (Hcalls : resp_toolCalls response = []).
    { apply wants_tools_false in Hw. destruct Hw as [Hw | Hw]; [contradiction | exact Hw]. }
    destruct (continue_round_finishes s0 sessionId l stored items toolResults run adapter
                response Hl Hadapter Hitems Houtcome Hw)
      as (Hev & Hsess & Hheap & _).
    destruct (continue_round sessionId l items run s0) as [r2 s2].
    simpl in Hev, Hsess, Hheap. simpl. rewrite Hev, Hsess, Hheap.
    split; [ | split ].
    + intros Hsome. contradiction.
    + intros Hsome. contradiction.
    + intros _. split; [apply lookup_delete_eq | ]. split; [reflexivity | ].
      split; [reflexivity | ]. split; [reflexivity | ].
      exists (ev_stream_start (next_stream_id s0) :: flat_map forwarded (sr_callbacks run)),
             (buildCompletionResponse response (ss_provider stored)
                (clock s0 (3 + ticks s0)%nat - clock s0 (1 + ticks s0)%nat)).
      split; [reflexivity | ].
      constructor; [split; reflexivity | apply forwarded_plain].
Qed.

(** Usage 10/5 continued by a round that reports 3/2 gives 13/7. *)
Lemma continuation_round_accumulates_witness :
  sessions example_suspended !! "sess_rs_k3x9q2ab" = Some 0%nat /\
  (ss_usage <$> heap example_suspended !! 0%nat) = Some (mkSessionUsage 10 5) /\
  resp_usage example_tool_response = mkUsageInfo 3 2 None None /\
  (ss_usage <$>
     heap (after (continue_handler example_continue_body (run_of example_tool_response))
             example_suspended) !! 0%nat)
  = Some (mkSessionUsage 13 7).
Proof.
  split; [reflexivity | split; [reflexivity | split; [reflexivity | ]]].
  destruct (continuation_round_accumulates example_suspended "sess_rs_k3x9q2ab" 0
              example_session example_items example_toolResults
              (run_of example_tool_response) (AnthropicAdapter "sk-server")
              example_tool_response)
    as (Hmerged & _).
  - discriminate.
  - reflexivity.
  - reflexivity.
  - vm_compute. discriminate.
  - reflexivity.
  - reflexivity.
  - reflexivity.
  - reflexivity.
  - cbv zeta in Hmerged. fold example_continue_body in Hmerged.
    destruct Hmerged as (_ & record & Hrecord & _ & _ & _ & Hin & Hout & _);
      [discriminate | vm_compute; discriminate | ].
    rewrite Hrecord. simpl.
    destruct (ss_usage record) as [i o]. simpl in Hin, Hout. subst i o. reflexivity.
Defined.

(** C6 fails as stated. A continuation round that stops for tool use
    does not always merge.  On a session that expires while the round is
    running, the round announces its tool call, but the session is gone
    afterwards and its record still has the usage 10/5; and a round that
    stops for tool use without a tool call deletes the session, the
    record again left at 10/5. *)
Lemma tool_use_round_without_merge :
  (let s' := after (continue_handler example_continue_body (run_of example_tool_response))
               example_expiring in
   resp_stopReason example_tool_response = "tool_use" /\
   (getSession "sess_rs_k3x9q2ab" example_expiring).1 = Ok (Some 0%nat) /\
   existsb is_tool_calls (rp_events (reply s')) = true /\
   sessions s' !! "sess_rs_k3x9q2ab" = None /\
   (ss_usage <$> heap s' !! 0%nat) = Some (mkSessionUsage 10 5)) /\
  (let s' := after (continue_handler example_continue_body
                      (run_of example_empty_tool_response))
               example_suspended in
   resp_stopReason example_empty_tool_response = "tool_use" /\
   sessions s' !! "sess_rs_k3x9q2ab" = None /\
   (ss_usage <$> heap s' !! 0%nat) = Some (mkSessionUsage 10 5)).
Proof. cbv zeta. repeat split; vm_compute; reflexivity. Qed.

(* ===================================================================== *)
(** ** Tool calls and sessions, round by round *)
(* ===================================================================== *)

Lemma context_round (config : Config) (s : State) (req : ContextRequest) (run : ContextRun)
    (adapter : Adapter) (response : NormalizedResponse) (newState info : JsValue) :
  createAdapter (fallbackConfig s) (default (cfg_defaultProvider config) (xq_provider req))
    (xq_apiKey req) (xq_providerConfig req) = Ok adapter ->
  xr_outcome run = Ok (NormalResponse response, newState, info) ->
  let s' := after (context_stream_handler config (ContextParseSuccess req) run) s in
  rp_events (reply s') =
    ev_stream_start (next_stream_id s)
    :: flat_map forwarded_context (xr_callbacks run)
    ++ [ev_done (with_context (newState, info)
                   (buildCompletionResponse response
                      (default (cfg_defaultProvider config) (xq_provider req))
                      (clock s (3 + ticks s)%nat - clock s (1 + ticks s)%nat)))] /\
  sessions s' = sessions s /\
  heap s' = heap s.
Proof.
  intros Had Hout. cbv zeta. run_handler. simpl.
  rewrite Had. simpl. rewrite fire_context_callbacks. simpl. rewrite Hout. simpl.
  repeat split.
Qed.

(** C4 fails as stated. A fresh-stream round that stops for tool use
    without any tool call emits no [tool_calls] event and creates no
    session; a continuation round that stops for tool use emits
    [tool_calls] and leaves the number of sessions as it was; a
    context-stream round that stops for tool use emits no [tool_calls]
    event and creates no session. *)
Lemma tool_use_round_without_session :
  (let s' := after (stream_handler example_config (ParseSuccess example_completion_request)
                      (run_of example_empty_tool_response)) example_boot in
   resp_stopReason example_empty_tool_response = "tool_use" /\
   existsb is_tool_calls (rp_events (reply s')) = false /\
   size (sessions s') = size (sessions example_boot)) /\
  (let s' := after (continue_handler example_continue_body (run_of example_tool_response))
               example_suspended in
   resp_stopReason example_tool_response = "tool_use" /\
   existsb is_tool_calls (rp_events (reply s')) = true /\
   size (sessions s') = size (sessions example_suspended)) /\
  (let s' := after (context_stream_handler example_config
                      (ContextParseSuccess example_context_request) example_context_run)
               example_boot in
   existsb is_tool_calls (rp_events (reply s')) = false /\
   size (sessions s') = size (sessions example_boot)).
Proof. cbv zeta. repeat split; vm_compute; reflexivity. Qed.

Lemma announces_tools_intro streamId callbacks calls sessionId result :
  announces_tools
    (ev_stream_start streamId
     :: flat_map forwarded callbacks ++ [ev_tool_calls calls sessionId; ev_done result])
    calls sessionId.
Proof.
  exists (ev_stream_start streamId :: flat_map forwarded callbacks), result.
  split; [reflexivity | ]. constructor; [split; reflexivity | apply forwarded_plain].
Qed.

Lemma plain_round_intro streamId callbacks result :
  plain_round (ev_stream_start streamId :: flat_map forwarded callbacks ++ [ev_done result]).
Proof.
  exists (ev_stream_start streamId :: flat_map forwarded callbacks), result.
  split; [reflexivity | ]. constructor; [split; reflexivity | apply forwarded_plain].
Qed.

Lemma plain_round_context_intro streamId callbacks result :
  plain_round
    (ev_stream_start streamId :: flat_map forwarded_context callbacks ++ [ev_done result]).
Proof.
  exists (ev_stream_start streamId :: flat_map forwarded_context callbacks), result.
  split; [reflexivity | ]. constructor; [split; reflexivity | apply forwarded_context_plain].
Qed.

(** The continuation rounds of C4: [tool_calls] before [done] exactly when
    the round wants tools, and never a new session. *)
Lemma continuation_round_events (s : State) (sessionId : string) (l : nat)
    (stored : SessionState) (items : list JsValue) (toolResults : list ToolResult)
    (run : StreamRun) (adapter : Adapter) (response : NormalizedResponse) :
  sessionId <> "" ->
  sessions s !! sessionId = Some l ->
  heap s !! l = Some stored ->
  clock s (ticks s) <= ss_expiresAt stored ->
  createAdapter (fallbackConfig s) (ss_provider stored) (ss_apiKey stored)
    (ss_providerConfig stored) = Ok adapter ->
  map_toolResults items = Ok toolResults ->
  sr_outcome run = Ok (NormalResponse response) ->
  let body := {| body_sessionId := JStr sessionId; body_toolResults := JArr items |} in
  let s' := after (continue_handler body run) s in
  (resp_stopReason response = "tool_use" -> resp_toolCalls response <> [] ->
     announces_tools (rp_events (reply s')) (resp_toolCalls response) sessionId /\
     (sessions s' = sessions s \/ sessions s' = delete sessionId (sessions s))) /\
  (resp_stopReason response <> "tool_use" \/ resp_toolCalls response = [] ->
     plain_round (rp_events (reply s')) /\
     sessions s' = delete sessionId (sessions s)) /\
  length (heap s') = length (heap s).
Proof.
  intros Hne Hid Hl Hlive Hadapter Hitems Houtcome body s'.
  unfold s', after, serve, body.
  rewrite (continue_handler_enters (set_reply (fun _ => fresh_reply) s) sessionId l stored
             items run Hne Hid Hl Hlive).
  set (s0 := set_ticks S (set_reply (fun _ => fresh_reply) s)).
  destruct (wants_tools response) eqn:Hw.
  - destruct (Z.le_gt_cases (clock s0 (3 + ticks s0)%nat) (ss_expiresAt stored))
      as [Hstill | Hlate].
    + destruct (continue_round_merges s0 sessionId l stored items toolResults run adapter
                  response Hid Hl Hadapter Hitems Houtcome Hw Hstill)
        as (Hev & Hsess & _ & Hlen).
      destruct (continue_round sessionId l items run s0) as [r2 s2].
      simpl in Hev, Hsess, Hlen. simpl. rewrite Hev, Hsess.
      split; [ | split; [ | exact Hlen ] ].
      * intros _ _. split; [apply announces_tools_intro | left; reflexivity].
      * intros Hno. apply wants_tools_false in Hno. congruence.
    + destruct (continue_round_too_late s0 sessionId l stored items toolResults run adapter
                  response Hid Hl Hadapter Hitems Houtcome Hw Hlate)
        as (Hev & Hsess & _ & Hlen).
      destruct (continue_round sessionId l items run s0) as [r2 s2].
      simpl in Hev, Hsess, Hlen. simpl. rewrite Hev, Hsess.
      split; [ | split; [ | exact Hlen ] ].
      * intros _ _. split; [apply announces_tools_intro | right; reflexivity].
      * intros Hno. apply wants_tools_false in Hno. congruence.
  - destruct (continue_round_finishes s0 sessionId l stored items toolResults run adapter
                response Hl Hadapter Hitems Houtcome Hw)
      as (Hev & Hsess & _ & Hlen).
    destruct (continue_round sessionId l items run s0) as [r2 s2].
    simpl in Hev, Hsess, Hlen. simpl. rewrite Hev, Hsess.
    split; [ | split; [ | exact Hlen ] ].
    + intros Hstop Hcalls.
      assert (wants_tools response = true) by (apply wants_tools_true; split; assumption).
      congruence.
    + intros _. split; [apply plain_round_intro | reflexivity].
Qed.

(** C4, as the code has it. A fresh-stream round whose response stops for
    tool use and carries at least one tool call emits [tool_calls] right
    before [done] and creates one session, so the number of sessions goes
    up by one (the generated session identifier being new); a fresh-stream
    round whose response stops for another reason, or carries no tool
    call, emits no [tool_calls] event and creates no session.  A
    continuation round with tool calls emits [tool_calls] right before
    [done] and creates no session (the existing one is kept or, once
    expired, dropped); a continuation round without emits no [tool_calls]
    event and deletes the session.  A context-stream round emits no
    [tool_calls] event and creates no session, whatever its stop
    reason. *)
Theorem tool_calls_precede_done (config : Config) (s : State) (req : CompletionRequest)
    (run : StreamRun) (adapter : Adapter) (response : NormalizedResponse) :
  cr_continueFrom req = None ->
  createAdapter (fallbackConfig s) (default (cfg_defaultProvider config) (cr_provider req))
    (cr_apiKey req) (cr_providerConfig req) = Ok adapter ->
  sr_outcome run = Ok (NormalResponse response) ->
  let s' := after (stream_handler config (ParseSuccess req) run) s in
  (resp_stopReason response = "tool_use" -> resp_toolCalls response <> [] ->
     announces_tools (rp_events (reply s')) (resp_toolCalls response) (round_session_id s) /\
     sessions s' = <[round_session_id s := length (heap s)]> (sessions s) /\
     heap s' !! length (heap s) = Some (round_session config req response s) /\
     (sessions s !! round_session_id s = None ->
      size (sessions s') = S (size (sessions s)))) /\
  (resp_stopReason response <> "tool_use" \/ resp_toolCalls response = [] ->
     plain_round (rp_events (reply s')) /\
     sessions s' = sessions s /\
     heap s' = heap s) /\
  (forall (s1 : State) (sessionId : string) (l : nat) (stored : SessionState)
          (items : list JsValue) (toolResults : list ToolResult) (run1 : StreamRun)
          (adapter1 : Adapter) (response1 : NormalizedResponse),
     sessionId <> "" ->
     sessions s1 !! sessionId = Some l ->
     heap s1 !! l = Some stored ->
     clock s1 (ticks s1) <= ss_expiresAt stored ->
     createAdapter (fallbackConfig s1) (ss_provider stored) (ss_apiKey stored)
       (ss_providerConfig stored) = Ok adapter1 ->
     map_toolResults items = Ok toolResults ->
     sr_outcome run1 = Ok (NormalResponse response1) ->
     let body := {| body_sessionId := JStr sessionId; body_toolResults := JArr items |} in
     let s1' := after (continue_handler body run1) s1 in
     (resp_stopReason response1 = "tool_use" -> resp_toolCalls response1 <> [] ->
        announces_tools (rp_events (reply s1')) (resp_toolCalls response1) sessionId /\
        (sessions s1' = sessions s1 \/ sessions s1' = delete sessionId (sessions s1))) /\
     (resp_stopReason response1 <> "tool_use" \/ resp_toolCalls response1 = [] ->
        plain_round (rp_events (reply s1')) /\
        sessions s1' = delete sessionId (sessions s1)) /\
     length (heap s1') = length (heap s1)) /\
  (forall (s1 : State) (req1 : ContextRequest) (run1 : ContextRun) (adapter1 : Adapter)
          (response1 : NormalizedResponse) (newState info : JsValue),
     createAdapter (fallbackConfig s1)
       (default (cfg_defaultProvider config) (xq_provider req1))
       (xq_apiKey req1) (xq_providerConfig req1) = Ok adapter1 ->
     xr_outcome run1 = Ok (NormalResponse response1, newState, info) ->
     let s1' := after (context_stream_handler config (ContextParseSuccess req1) run1) s1 in
     plain_round (rp_events (reply s1')) /\
     sessions s1' = sessions s1 /\
     heap s1' = heap s1).
Proof.
  intros Hcf Hadapter Houtcome s'. split; [ | split; [ | split ] ].
  - intros Hstop Hcalls.
    assert (Hw : wants_tools response = true) by (apply wants_tools_true; split; assumption).
    destruct (stream_round_with_tools config s req run adapter response Hcf Hadapter
                Houtcome Hw) as (Hev & Hsess & Hheap).
    fold s' in Hev, Hsess, Hheap. rewrite Hev, Hsess, Hheap.
    split; [apply announces_tools_intro | ].
    split; [reflexivity | ].
    split; [apply list_lookup_middle; reflexivity | ].
    intros Hfresh. apply map_size_insert_None. exact Hfresh.
  - intros Hno. apply wants_tools_false in Hno.
    destruct (stream_round_without_tools config s req run adapter response Hcf Hadapter
                Houtcome Hno) as (Hev & Hsess & Hheap).
    fold s' in Hev, Hsess, Hheap. rewrite Hev, Hsess, Hheap.
    split; [apply plain_round_intro | split; reflexivity].
  - intros s1 sessionId l stored items toolResults run1 adapter1 response1.
    apply continuation_round_events.
  - intros s1 req1 run1 adapter1 response1 newState info Had Hout.
    destruct (context_round config s1 req1 run1 adapter1 response1 newState info Had Hout)
      as (Hev & Hsess & Hheap).
    cbv zeta. rewrite Hev, Hsess, Hheap.
    split; [apply plain_round_context_intro | split; reflexivity].
Qed.

Lemma tool_calls_precede_done_witness :
  cr_continueFrom example_completion_request = None /\
  sr_outcome (run_of example_tool_response) = Ok (NormalResponse example_tool_response) /\
  (let s' := after (stream_handler example_config (ParseSuccess example_completion_request)
                      (run_of example_tool_response)) example_boot in
   announces_tools (rp_events (reply s')) [example_tool_call] "sess_rv_k3x9q2ab" /\
   size (sessions s') = 1%nat).
Proof.
  split; [reflexivity | split; [reflexivity | ]].
  pose proof (tool_calls_precede_done example_config example_boot example_completion_request
                (run_of example_tool_response) (AnthropicAdapter "sk-server")
                example_tool_response eq_refl eq_refl eq_refl) as H.
  cbv zeta in H. destruct H as (Htools & _).
  destruct Htools as (Hann & _ & _ & Hsize); [reflexivity | discriminate | ].
  cbv zeta. split; [exact Hann | ].
  rewrite Hsize; reflexivity.
Defined.

(* ===================================================================== *)
(** ** Rejected continuation requests *)
(* ===================================================================== *)


Lemma continue_endpoint_reads (body : JsValue) (run : StreamRun) (s : State)
    (sessionId toolResults : JsValue) :
  get_prop "sessionId" body = Ok sessionId ->
  get_prop "toolResults" body = Ok toolResults ->
  serve (continue_endpoint body run) s
  = serve (continue_handler {| body_sessionId := sessionId;
                               body_toolResults := toolResults |} run) s.
Proof.
  intros Hsid Htr. unfold serve, continue_endpoint, bind, lift. rewrite Hsid, Htr.
  reflexivity.
Qed.

(** A continuation request either fails on reading its body, with nothing
    touched, or is the request [PostContinue] of [route]. *)
Lemma continue_endpoint_routed (config : Config) (body : JsValue) (run : StreamRun)
    (s : State) :
  (exists e, serve (continue_endpoint body run) s
             = (Throw e, set_reply (fun _ => fresh_reply) s)) \/
  (exists read : ContinueBody,
     serve (continue_endpoint body run) s = serve (route config (PostContinue read run)) s).
Proof.
  destruct body;
    try (right; eexists (mkContinueBody _ _);
         apply continue_endpoint_reads; reflexivity).
  - left. eexists. reflexivity.
  - left. eexists. reflexivity.
Qed.




(* ===================================================================== *)
(** ** Who changes a session record *)
(* ===================================================================== *)

Lemma push_nil (x : SessionState) : push_executedToolResults [] x = x.
Proof. destruct x. unfold push_executedToolResults. simpl. rewrite app_nil_r. reflexivity. Qed.

Lemma push_push (a b : list ToolResult) (x : SessionState) :
  push_executedToolResults b (push_executedToolResults a x) = push_executedToolResults (a ++ b) x.
Proof. unfold push_executedToolResults. simpl. rewrite app_assoc. reflexivity. Qed.

Lemma records_guarded_same (s s' : State) :
  clock s' = clock s -> heap s' = heap s -> (ticks s <= ticks s')%nat -> records_guarded s s'.
Proof.
  intros Hc Hh Ht. split; [exact Hc | ]. split; [exact Ht | ]. intros l x Hl. exists x.
  rewrite Hh. split; [exact Hl | ]. left. exists []. symmetry. apply push_nil.
Qed.

Lemma records_guarded_refl (s : State) : records_guarded s s.
Proof. apply records_guarded_same; reflexivity. Qed.

(** How the three record operations commute. *)
Lemma push_with_expiresAt (b : list ToolResult) (v : Z) (x : SessionState) :
  push_executedToolResults b (with_expiresAt v x)
  = with_expiresAt v (push_executedToolResults b x).
Proof. reflexivity. Qed.

Lemma assign_with_expiresAt (v : Z) (x : SessionState) (updates : SessionUpdates) :
  Object_assign (with_expiresAt v x) updates = with_expiresAt v (Object_assign x updates).
Proof. reflexivity. Qed.

Lemma with_expiresAt_twice (v w : Z) (x : SessionState) :
  with_expiresAt w (with_expiresAt v x) = with_expiresAt w x.
Proof. reflexivity. Qed.

Lemma push_assign (b : list ToolResult) (x : SessionState) (updates : SessionUpdates) :
  exists updates',
    push_executedToolResults b (Object_assign x updates)
    = Object_assign (push_executedToolResults b x) updates'.
Proof.
  destruct updates as [text blocks calls [results | ] usage].
  - exists {| upd_rawAssistantText := text; upd_contentBlocks := blocks;
              upd_toolCalls := calls; upd_executedToolResults := Some (results ++ b);
              upd_usage := usage |}.
    reflexivity.
  - exists {| upd_rawAssistantText := text; upd_contentBlocks := blocks;
              upd_toolCalls := calls; upd_executedToolResults := None;
              upd_usage := usage |}.
    reflexivity.
Qed.

Lemma assign_assign (x : SessionState) (first second : SessionUpdates) :
  exists updates, Object_assign (Object_assign x first) second = Object_assign x updates.
Proof.
  exists {| upd_rawAssistantText :=
              match upd_rawAssistantText second with
              | Some v => Some v | None => upd_rawAssistantText first end;
            upd_contentBlocks :=
              match upd_contentBlocks second with
              | Some v => Some v | None => upd_contentBlocks first end;
            upd_toolCalls :=
              match upd_toolCalls second with
              | Some v => Some v | None => upd_toolCalls first end;
            upd_executedToolResults :=
              match upd_executedToolResults second with
              | Some v => Some v | None => upd_executedToolResults first end;
            upd_usage :=
              match upd_usage second with
              | Some v => Some v | None => upd_usage first end |}.
  unfold Object_assign. simpl.
  destruct second as [[text | ] [blocks | ] [calls | ] [results | ] [usage | ]];
    reflexivity.
Qed.

Lemma records_guarded_trans (s1 s2 s3 : State) :
  records_guarded s1 s2 -> records_guarded s2 s3 -> records_guarded s1 s3.
Proof.
  intros (Hc12 & Ht12 & H12) (Hc23 & Ht23 & H23).
  split; [congruence | ]. split; [lia | ].
  intros l x Hl. destruct (H12 l x Hl) as (x' & Hl' & Hx').
  destruct (H23 l x' Hl') as (x'' & Hl'' & Hx''). exists x''. split; [exact Hl'' | ].
  destruct Hx' as [[a ->] | (n & a & u & Hn & ->)].
  - destruct Hx'' as [[b ->] | (m & b & w & Hm & ->)].
    + left. exists (a ++ b). apply push_push.
    + right. exists m, (a ++ b), w. split; [lia | ]. rewrite push_push, Hc12. reflexivity.
  - right. destruct Hx'' as [[b ->] | (m & b & w & Hm & ->)].
    + destruct (push_assign b (push_executedToolResults a x) u) as [u' Hu'].
      exists n, (a ++ b), u'. split; [lia | ].
      rewrite push_with_expiresAt, Hu', push_push. reflexivity.
    + destruct (push_assign b (push_executedToolResults a x) u) as [u' Hu'].
      destruct (assign_assign (push_executedToolResults (a ++ b) x) u' w) as [u'' Hu''].
      exists m, (a ++ b), u''. split; [lia | ].
      rewrite push_with_expiresAt, assign_with_expiresAt, with_expiresAt_twice, Hu',
        push_push, Hu'', Hc12.
      reflexivity.
Qed.

Lemma records_guarded_alloc (s : State) (session : SessionState) :
  records_guarded s (set_heap (fun h => h ++ [session]) s).
Proof.
  split; [reflexivity | ]. split; [reflexivity | ]. intros l x Hl. exists x. simpl.
  split; [apply lookup_app_l_Some; exact Hl | ]. left. exists []. symmetry. apply push_nil.
Qed.

Lemma records_guarded_push (s : State) (l0 : nat) (toolResults : list ToolResult) :
  records_guarded s (set_heap (alter (push_executedToolResults toolResults) l0) s).
Proof.
  split; [reflexivity | ]. split; [reflexivity | ]. intros l x Hl. simpl.
  destruct (decide (l0 = l)) as [-> | Hne].
  - exists (push_executedToolResults toolResults x). rewrite list_lookup_alter_eq, Hl.
    split; [reflexivity | ]. left. exists toolResults. reflexivity.
  - exists x. rewrite list_lookup_alter_ne by exact Hne.
    split; [exact Hl | ]. left. exists []. symmetry. apply push_nil.
Qed.

(** [updateSession] as a whole: the fields it assigns come with a reset of
    the expiration, to the reading it takes itself. *)
Lemma updateSession_guarded (id : string) (updates : SessionUpdates) :
  respects records_guarded (updateSession id updates).
Proof.
  intros s. destruct (sessions s !! id) as [l0 | ] eqn:Hid.
  - destruct (heap s !! l0) as [session | ] eqn:Hl0.
    + destruct (Z.le_gt_cases (clock s (ticks s)) (ss_expiresAt session)) as [Hlive | Hexp].
      * rewrite (updateSession_live s id l0 session updates Hid Hl0 Hlive). simpl.
        split; [reflexivity | ]. split; [simpl; lia | ]. intros l x Hl. simpl.
        destruct (decide (l0 = l)) as [-> | Hne].
        -- rewrite !list_lookup_alter_eq, Hl. simpl. eexists. split; [reflexivity | ].
           right. exists (S (ticks s)), [], updates. split; [simpl; lia | ].
           rewrite push_nil. reflexivity.
        -- rewrite !list_lookup_alter_ne by exact Hne. exists x.
           split; [exact Hl | ]. left. exists []. symmetry. apply push_nil.
      * rewrite (updateSession_expired s id l0 session updates Hid Hl0 Hexp).
        apply records_guarded_same; [reflexivity | reflexivity | simpl; lia].
    + unfold updateSession, getSession, bind, gets, deref. rewrite Hid, Hl0. simpl.
      apply records_guarded_refl.
  - rewrite (updateSession_absent s id updates Hid). apply records_guarded_refl.
Qed.

Ltac records_guarded_prim :=
  intros ?;
  first [ apply records_guarded_alloc
        | apply records_guarded_push
        | apply records_guarded_same; [reflexivity | reflexivity | simpl; lia] ].

Ltac records_guarded_all :=
  repeat first
    [ apply updateSession_guarded
    | respects_step
    | progress
        unfold route, complete_handler, stream_handler, continue_handler, continue_round,
          continue_invoke, continue_settle, context_stream_handler, abort_handler,
          delete_session_handler, invalid_body,
          membrane_stream, membrane_complete, processContext,
          stream_callbacks, continue_callbacks, context_callbacks, onBlock,
          createSession, getSession, deleteSession, generateSessionId, mutate,
          createMembrane, updateProviderHealth, handleError,
          generateStreamId, register, new_AbortController, activeStreams_set, cleanupStream,
          AbortController_abort, reply_code_send, reply_send, writeHead, sendEvent, raw_end ].

Lemma route_guarded (config : Config) (request : Request) :
  respects records_guarded (route config request).
Proof.
  pose proof records_guarded_refl as Hr.
  pose proof records_guarded_trans as Ht.
  destruct request; records_guarded_all; records_guarded_prim.
Qed.

(** C9, as the code has it. Whatever request the server handles, a session
    record that was stored before is afterwards one of two things.
    Either it is the same record with tool results appended to
    [executedToolResults] (every other field, [expiresAt] included, is as
    before): this is what the continuation handler does directly on the
    stored object, without [updateSession].  Or it is what
    [updateSession] makes of the record (with tool results appended
    first): [Object.assign] with some updates, and [expiresAt] set to five
    minutes after a reading of the clock that was taken while this request
    was handled.  So a change to any field other than
    [executedToolResults] comes with the expiration reset from the clock
    as read during the request. *)
Theorem session_fields_guarded (config : Config) (request : Request) (s : State) (l : nat)
    (x : SessionState) :
  heap s !! l = Some x ->
  let s' := after (route config request) s in
  exists x' : SessionState,
    heap s' !! l = Some x' /\
    ((appended_only x x' /\ ss_expiresAt x' = ss_expiresAt x /\
      ss_rawAssistantText x' = ss_rawAssistantText x /\
      ss_contentBlocks x' = ss_contentBlocks x /\
      ss_toolCalls x' = ss_toolCalls x /\
      ss_usage x' = ss_usage x)
     \/ (exists (n : nat) (toolResults : list ToolResult) (updates : SessionUpdates),
           (ticks s <= n < ticks s')%nat /\
           x' = with_expiresAt (clock s n + 5 * 60 * 1000)
                  (Object_assign (push_executedToolResults toolResults x) updates))).
Proof.
  intros Hl. cbv zeta. unfold after, serve.
  destruct (route_guarded config request (set_reply (fun _ => fresh_reply) s)) as (_ & _ & H).
  destruct (H l x Hl) as (x' & Hl' & Hx'). exists x'. split; [exact Hl' | ].
  destruct Hx' as [[toolResults ->] | Hrefreshed].
  - left. split; [exists toolResults; reflexivity | repeat split].
  - right. exact Hrefreshed.
Qed.

Lemma session_fields_guarded_witness :
  heap example_suspended !! 0%nat = Some example_session /\
  (let s' := after (route example_config
                      (PostContinue example_continue_body (run_of example_tool_response)))
               example_suspended in
   exists x' : SessionState,
     heap s' !! 0%nat = Some x' /\
     ss_usage x' = mkSessionUsage 13 7 /\
     ss_expiresAt x' = 1007 + 5 * 60 * 1000 /\
     refreshed example_suspended s' example_session x').
Proof.
  assert (Hl : heap example_suspended !! 0%nat = Some example_session) by reflexivity.
  split; [exact Hl | ]. cbv zeta.
  destruct (session_fields_guarded example_config
              (PostContinue example_continue_body (run_of example_tool_response))
              example_suspended 0 example_session Hl) as (x' & Hx' & Hcase).
  exists x'. split; [exact Hx' | ].
  assert (Husage : ss_usage x' = mkSessionUsage 13 7).
  { assert (H : (ss_usage <$> heap (after (route example_config
                     (PostContinue example_continue_body (run_of example_tool_response)))
                   example_suspended) !! 0%nat) = Some (mkSessionUsage 13 7))
      by (vm_compute; reflexivity).
    rewrite Hx' in H. simpl in H. injection H as H. exact H. }
  assert (Hexpires : ss_expiresAt x' = 1007 + 5 * 60 * 1000).
  { assert (H : (ss_expiresAt <$> heap (after (route example_config
                     (PostContinue example_continue_body (run_of example_tool_response)))
                   example_suspended) !! 0%nat) = Some (1007 + 5 * 60 * 1000))
      by (vm_compute; reflexivity).
    rewrite Hx' in H. simpl in H. injection H as H. exact H. }
  split; [exact Husage | ]. split; [exact Hexpires | ].
  destruct Hcase as [(_ & _ & _ & _ & _ & Hsame) | Hrefreshed].
  - rewrite Husage in Hsame. discriminate Hsame.
  - exact Hrefreshed.
Defined.

(** C9 fails as stated. A continuation request whose invocation fails
    leaves the session live, with the request's tool results appended to
    its [executedToolResults] and its [expiresAt] as it was: the handler
    changed a field of the stored record without [updateSession] and
    without resetting the expiration. *)
Lemma tool_results_appended_without_update :
  let s' := after (continue_handler example_continue_body example_failing_run)
              example_suspended in
  heap example_suspended !! 0%nat = Some example_session /\
  ss_executedToolResults example_session = [] /\
  sessions s' !! "sess_rs_k3x9q2ab" = Some 0%nat /\
  (ss_executedToolResults <$> heap s' !! 0%nat) = Some example_toolResults /\
  (ss_expiresAt <$> heap s' !! 0%nat) = Some (ss_expiresAt example_session) /\
  rp_events (reply s') =
    [ev_stream_start "str_rv_k3x9q2ab"; ev_error "overloaded" "Overloaded" true].
Proof. cbv zeta. repeat split; vm_compute; reflexivity. Qed.

(* ===================================================================== *)
(** ** The output-token budget *)
(* ===================================================================== *)

Lemma calls_within_refl allowed s : calls_within allowed s s.
Proof. intros e He. left. exact He. Qed.

Lemma calls_within_trans allowed s1 s2 s3 :
  calls_within allowed s1 s2 -> calls_within allowed s2 s3 -> calls_within allowed s1 s3.
Proof.
  intros H12 H23 e He. destruct (H23 e He) as [H2 | Ha]; [ | right; exact Ha].
  apply H12. exact H2.
Qed.

Ltac calls_within_prim :=
  let e := fresh "e" in let He := fresh "He" in
  intros ? e He; simpl in He;
  first
    [ left; exact He
    | apply elem_of_app in He; destruct He as [He | He];
      [ left; exact He
      | apply list_elem_of_singleton in He; subst e; right; simpl; eauto ] ].

Lemma complete_handler_calls (config : Config) (req : CompletionRequest)
    (outcome : Result NormalizedResponse) :
  respects (calls_within (allowed_for (buildNormalizedRequest req config)))
    (complete_handler config (ParseSuccess req) outcome).
Proof.
  pose proof (calls_within_refl (allowed_for (buildNormalizedRequest req config))) as Hr.
  pose proof (calls_within_trans (allowed_for (buildNormalizedRequest req config))) as Ht.
  respects_all; calls_within_prim.
Qed.

Lemma stream_handler_calls (config : Config) (req : CompletionRequest) (run : StreamRun) :
  respects (calls_within (allowed_for (buildNormalizedRequest req config)))
    (stream_handler config (ParseSuccess req) run).
Proof.
  pose proof (calls_within_refl (allowed_for (buildNormalizedRequest req config))) as Hr.
  pose proof (calls_within_trans (allowed_for (buildNormalizedRequest req config))) as Ht.
  respects_all; calls_within_prim.
Qed.

Lemma context_stream_handler_calls (config : Config) (req : ContextRequest)
    (run : ContextRun) :
  respects (calls_within (allowed_for_context (contextInput req config)))
    (context_stream_handler config (ContextParseSuccess req) run).
Proof.
  pose proof (calls_within_refl (allowed_for_context (contextInput req config))) as Hr.
  pose proof (calls_within_trans (allowed_for_context (contextInput req config))) as Ht.
  respects_all; calls_within_prim.
Qed.

(** C10. The [maxTokens] of the normalized request built for an accepted
    request is the smaller of the requested value (4096 when the request
    gives none) and the server's [maxTokensLimit], hence never above the
    limit; and the request that the completion handler and the
    fresh-stream handler pass to the collaborator is that normalized
    request, as is, with the same cap, the input that the context-stream
    handler passes to [processContext].  A continuation round sends the
    configuration stored in the session. *)
Theorem maxTokens_capped_by_server_limit (config : Config) (req : CompletionRequest) :
  let sent := buildNormalizedRequest req config in
  let limit := cfg_maxTokensLimit config in
  gc_maxTokens (nr_config sent) = Z.min (default 4096 (cr_maxTokens req)) limit /\
  (forall requested, cr_maxTokens req = Some requested ->
     gc_maxTokens (nr_config sent) = Z.min requested limit) /\
  (cr_maxTokens req = None -> gc_maxTokens (nr_config sent) = Z.min 4096 limit) /\
  gc_maxTokens (nr_config sent) <= limit /\
  (forall (s : State) (outcome : Result NormalizedResponse) (request : NormalizedRequest),
     CalledComplete request
       ∈ history (after (complete_handler config (ParseSuccess req) outcome) s) ->
     CalledComplete request ∈ history s \/ request = sent) /\
  (forall (s : State) (run : StreamRun) (request : NormalizedRequest),
     CalledStream request ∈ history (after (stream_handler config (ParseSuccess req) run) s) ->
     CalledStream request ∈ history s \/ request = sent) /\
  (forall (s : State) (creq : ContextRequest) (run : ContextRun) (input : ContextInput),
     CalledProcessContext input
       ∈ history (after (context_stream_handler config (ContextParseSuccess creq) run) s) ->
     CalledProcessContext input ∈ history s \/
     gc_maxTokens (ci_config input) = Z.min (default 4096 (xq_maxTokens creq)) limit) /\
  (forall (stored : SessionState) (toolResults : list ToolResult),
     nr_config (continuedRequest stored toolResults) = nr_config (ss_request stored)).
Proof.
  cbv zeta. repeat split.
  - apply Math_min_spec.
  - intros requested Hreq. simpl. rewrite Hreq. apply Math_min_spec.
  - intros Hnone. simpl. rewrite Hnone. apply Math_min_spec.
  - simpl. rewrite Math_min_spec. apply Z.le_min_r.
  - intros s outcome request Hin.
    destruct (complete_handler_calls config req outcome
                (set_reply (fun _ => fresh_reply) s) _ Hin) as [Hold | Hnew].
    + left. exact Hold.
    + right. exact Hnew.
  - intros s run request Hin.
    destruct (stream_handler_calls config req run
                (set_reply (fun _ => fresh_reply) s) _ Hin) as [Hold | Hnew].
    + left. exact Hold.
    + right. exact Hnew.
  - intros s creq run input Hin.
    destruct (context_stream_handler_calls config creq run
                (set_reply (fun _ => fresh_reply) s) _ Hin) as [Hold | Hnew].
    + left. exact Hold.
    + right. simpl in Hnew. subst input. apply Math_min_spec.
Qed.

(** On the example server, whose limit is 32000, the collaborator is
    called once, with a budget of 32000. *)
Example greedy_request_is_capped :
  exists request : NormalizedRequest,
    history (after (stream_handler example_config (ParseSuccess example_greedy_request)
                      (run_of example_final_response)) example_boot)
    = [Registered "str_rs_k3x9q2ab"; CalledStream request] /\
    gc_maxTokens (nr_config request) = 32000.
Proof. eexists. split; reflexivity. Qed.

(* ===================================================================== *)
(** ** The session store: creation, lookup, eviction *)
(* ===================================================================== *)

Lemma createSession_eq (provider : ProviderName) (request : NormalizedRequest)
    (state : SessionInit) (options : CreateSessionOptions) (s : State) :
  createSession provider request state options s =
    (Ok (length (heap s)),
     set_sessions (insert (next_session_id s) (length (heap s)))
       (set_heap
          (fun h => h ++ [ {| ss_id := next_session_id s;
                              ss_createdAt := clock s (S (ticks s));
                              ss_expiresAt :=
                                clock s (S (ticks s)) + default default_ttlMs (opt_ttlMs options);
                              ss_provider := provider;
                              ss_apiKey := opt_apiKey options;
                              ss_providerConfig := opt_providerConfig options;
                              ss_membraneOptions := opt_membraneOptions options;
                              ss_request := request;
                              ss_rawAssistantText := init_rawAssistantText state;
                              ss_contentBlocks := init_contentBlocks state;
                              ss_toolCalls := init_toolCalls state;
                              ss_executedToolResults := init_executedToolResults state;
                              ss_usage := init_usage state |} ])
          (set_ticks S (set_draws S (set_ticks S s))))).
Proof. reflexivity. Qed.

(** A session that has just been created is stored under the generated
    identifier, with [createdAt] the time of creation and [expiresAt] that
    time plus the given ttl (five minutes when none is given); no other
    key of the store changes.  A lookup of the identifier returns the new
    record as long as the clock has not passed [expiresAt], the instant
    [expiresAt] itself included, and returns nothing and removes the entry
    once it has. *)
Theorem created_session_is_found (provider : ProviderName) (request : NormalizedRequest)
    (state : SessionInit) (options : CreateSessionOptions) (s : State) :
  let ttlMs := default 300000 (opt_ttlMs options) in
  let id := next_session_id s in
  let created := createSession provider request state options s in
  let now := clock s (S (ticks s)) in
  let later := clock s (S (S (ticks s))) in
  exists (l : nat) (session : SessionState),
    created.1 = Ok l /\
    sessions created.2 !! id = Some l /\
    heap created.2 !! l = Some session /\
    ss_id session = id /\
    ss_createdAt session = now /\
    ss_expiresAt session = now + ttlMs /\
    (forall other : string, other <> id -> sessions created.2 !! other = sessions s !! other) /\
    (forall l' : nat, l' <> l -> heap created.2 !! l' = heap s !! l') /\
    (later <= now + ttlMs ->
       (getSession id created.2).1 = Ok (Some l) /\
       sessions (getSession id created.2).2 = sessions created.2) /\
    (now + ttlMs < later ->
       (getSession id created.2).1 = Ok None /\
       sessions (getSession id created.2).2 !! id = None).
Proof.
  cbv zeta. rewrite createSession_eq. eexists _, _. simpl.
  split; [reflexivity | ].
  split; [apply lookup_insert_eq | ].
  split; [apply list_lookup_middle; reflexivity | ].
  split; [reflexivity | ]. split; [reflexivity | ]. split; [reflexivity | ].
  split; [intros other Hne; apply lookup_insert_ne; congruence | ].
  split.
  { intros l' Hne. destruct (decide (l' < length (heap s))%nat) as [Hlt | Hge].
    - apply lookup_app_l. exact Hlt.
    - transitivity (@None SessionState).
      + apply lookup_ge_None_2. rewrite length_app. simpl. lia.
      + symmetry. apply lookup_ge_None_2. lia. }
  split.
  - intros Hlive. erewrite getSession_live.
    + split; reflexivity.
    + simpl. apply lookup_insert_eq.
    + simpl. apply list_lookup_middle. reflexivity.
    + simpl. exact Hlive.
  - intros Hlate. erewrite getSession_expired.
    + split; [reflexivity | ]. simpl. apply lookup_delete_eq.
    + simpl. apply lookup_insert_eq.
    + simpl. apply list_lookup_middle. reflexivity.
    + simpl. exact Hlate.
Qed.

(** [getSession] returns a record exactly when the store has an entry for
    the identifier whose record has not expired at the time of the lookup
    (a record that expires at that very instant is still returned).
    Whatever it returns, it leaves every other entry of the store and
    every record as they were. *)
Theorem getSession_returns_live_only (s : State) (id : string) (l : nat) :
  ((getSession id s).1 = Ok (Some l) <->
   sessions s !! id = Some l /\
   exists session, heap s !! l = Some session /\ clock s (ticks s) <= ss_expiresAt session) /\
  ((getSession id s).1 = Ok (Some l) -> sessions (getSession id s).2 = sessions s) /\
  (forall other : string,
     other <> id -> sessions (getSession id s).2 !! other = sessions s !! other) /\
  heap (getSession id s).2 = heap s.
Proof.
  destruct (sessions s !! id) as [l0 | ] eqn:Hid.
  - destruct (heap s !! l0) as [session | ] eqn:Hl0.
    + destruct (Z.le_gt_cases (clock s (ticks s)) (ss_expiresAt session)) as [Hlive | Hexp].
      * rewrite (getSession_live s id l0 session Hid Hl0 Hlive). simpl.
        repeat split; try reflexivity.
        -- congruence.
        -- injection H as <-. exists session. split; assumption.
        -- intros [Heq _]. congruence.
      * rewrite (getSession_expired s id l0 session Hid Hl0 Hexp). simpl.
        repeat split; try discriminate.
        -- intros [Heq (session' & Hl' & Hlive)]. exfalso.
           assert (l0 = l) as -> by congruence.
           assert (session' = session) as -> by congruence. lia.
        -- intros other Hne. apply lookup_delete_ne. congruence.
    + unfold getSession, bind, gets, deref. rewrite Hid, Hl0. simpl.
      repeat split; try discriminate.
      intros [Heq (session' & Hl' & _)]. exfalso.
      assert (l0 = l) as -> by congruence. congruence.
  - rewrite (getSession_absent s id Hid). simpl.
    repeat split; try discriminate.
    intros [Heq _]. discriminate Heq.
Qed.

(** Lazy eviction. A lookup of a session whose [expiresAt] lies before
    the current time returns nothing, removes the entry, and with it
    lowers the session count by exactly one; every other entry stays.  A
    second lookup again returns nothing and changes nothing further, not
    even reading the clock. *)
Theorem getSession_evicts_expired (s : State) (id : string) (l : nat)
    (session : SessionState) :
  sessions s !! id = Some l ->
  heap s !! l = Some session ->
  ss_expiresAt session < clock s (ticks s) ->
  let s' := (getSession id s).2 in
  (getSession id s).1 = Ok None /\
  sessions s' = delete id (sessions s) /\
  (exists n : nat, (getSessionCount s).1 = Ok (S n) /\ (getSessionCount s').1 = Ok n) /\
  getSession id s' = (Ok None, s').
Proof.
  intros Hid Hl Hexp. cbv zeta.
  rewrite (getSession_expired s id l session Hid Hl Hexp). simpl.
  split; [reflexivity | ]. split; [reflexivity | ]. split.
  - exists (size (delete id (sessions s))). unfold getSessionCount, gets. simpl.
    split; [ | reflexivity ]. f_equal.
    rewrite <- (insert_delete_id (sessions s) id l Hid) at 1.
    apply map_size_insert_None. apply lookup_delete_eq.
  - apply getSession_absent. simpl. apply lookup_delete_eq.
Qed.

Lemma getSession_evicts_expired_witness :
  (getSession "sess_rs_k3x9q2ab" short_lived_late).1 = Ok None /\
  (getSessionCount short_lived_late).1 = Ok 1%nat /\
  (getSessionCount (getSession "sess_rs_k3x9q2ab" short_lived_late).2).1 = Ok 0%nat.
Proof.
  destruct (getSession_evicts_expired short_lived_late "sess_rs_k3x9q2ab" 0
              expired_session)
    as (Hnone & _ & (n & Hbefore & Hafter) & _).
  - reflexivity.
  - vm_compute. reflexivity.
  - vm_compute. reflexivity.
  - split; [exact Hnone | ]. split; [reflexivity | ].
    rewrite Hafter. f_equal.
    assert (Hone : (getSessionCount short_lived_late).1 = Ok 1%nat) by reflexivity.
    rewrite Hone in Hbefore. injection Hbefore as <-. reflexivity.
Defined.

(** Deleting a session never fails, whether or not the session exists;
    it removes the entry and no other.  Deleting twice is the same as
    deleting once, deleting an identifier that is not stored changes
    nothing at all, and a lookup after the deletion finds nothing. *)
Theorem deleteSession_is_idempotent (s : State) (id : string) :
  let s' := (deleteSession id s).2 in
  (deleteSession id s).1 = Ok tt /\
  sessions s' !! id = None /\
  (forall other : string, other <> id -> sessions s' !! other = sessions s !! other) /\
  deleteSession id s' = (Ok tt, s') /\
  (sessions s !! id = None -> s' = s) /\
  getSession id s' = (Ok None, s').
Proof.
  cbv zeta. unfold deleteSession, modify. simpl.
  split; [reflexivity | ].
  split; [apply lookup_delete_eq | ].
  split; [intros other Hne; apply lookup_delete_ne; congruence | ].
  split; [unfold set_sessions; simpl; rewrite delete_delete_eq; reflexivity | ].
  split.
  - intros Hnone. destruct s. unfold set_sessions. simpl in *.
    rewrite (delete_id _ _ Hnone). reflexivity.
  - apply getSession_absent. simpl. apply lookup_delete_eq.
Qed.

Lemma sweep_eq (s : State) :
  sweep s =
    (Ok tt,
     set_sessions (filter (fun kv => expired_in (heap s) (clock s (ticks s)) kv.2 = false))
       (set_ticks S s)).
Proof. reflexivity. Qed.

(** One run of the periodic sweep. An entry is in the store afterwards
    exactly when it was there before and its record's [expiresAt] does not
    lie before the time the sweep read; the records themselves are not
    touched and the store does not grow.  For every identifier the sweep
    leaves the store as a lookup of that identifier at the same instant
    would: what the sweep removes is what lazy eviction would remove. *)
Theorem sweep_removes_exactly_expired (s : State) (id : string) :
  let now := clock s (ticks s) in
  let s' := (sweep s).2 in
  (sweep s).1 = Ok tt /\
  (forall l : nat,
     sessions s' !! id = Some l <->
     sessions s !! id = Some l /\ expired_in (heap s) now l = false) /\
  sessions s' !! id = sessions (getSession id s).2 !! id /\
  heap s' = heap s /\
  (size (sessions s') <= size (sessions s))%nat.
Proof.
  cbv zeta. rewrite sweep_eq. simpl.
  split; [reflexivity | ].
  split; [intros l; apply map_lookup_filter_Some | ].
  split; [ | split; [reflexivity | apply map_size_filter]].
  apply option_eq. intros l. rewrite map_lookup_filter_Some. simpl.
  destruct (sessions s !! id) as [l0 | ] eqn:Hid.
  - destruct (heap s !! l0) as [session | ] eqn:Hl0.
    + destruct (Z.le_gt_cases (clock s (ticks s)) (ss_expiresAt session)) as [Hlive | Hexp].
      * rewrite (getSession_live s id l0 session Hid Hl0 Hlive). simpl. rewrite ?Hid.
        split; [intros [H _]; exact H | ].
        intros H. split; [exact H | ]. injection H as <-.
        unfold expired_in. rewrite Hl0. apply Z.ltb_ge. exact Hlive.
      * rewrite (getSession_expired s id l0 session Hid Hl0 Hexp). simpl.
        rewrite lookup_delete_eq. split; [ | discriminate ].
        intros [H Hkeep]. exfalso. injection H as <-.
        unfold expired_in in Hkeep. rewrite Hl0 in Hkeep.
        apply Z.ltb_ge in Hkeep. lia.
    + unfold getSession, bind, gets, deref. rewrite Hid, Hl0. simpl. rewrite ?Hid.
      split; [intros [H _]; exact H | ].
      intros H. split; [exact H | ]. injection H as <-.
      unfold expired_in. rewrite Hl0. reflexivity.
  - rewrite (getSession_absent s id Hid). simpl. rewrite Hid.
    split; [intros [H _]; exact H | discriminate].
Qed.

(* ===================================================================== *)
(** ** Invariants of the session store *)
(* ===================================================================== *)

Lemma store_wf_kept_refl (s : State) : store_wf_kept s s.
Proof. intros H. exact H. Qed.

Lemma store_wf_kept_trans (s1 s2 s3 : State) :
  store_wf_kept s1 s2 -> store_wf_kept s2 s3 -> store_wf_kept s1 s3.
Proof. unfold store_wf_kept. auto. Qed.

Lemma store_wf_kept_same (s s' : State) :
  sessions s' = sessions s -> heap s' = heap s -> store_wf_kept s s'.
Proof. intros Hs Hh Hwf id l. rewrite Hs, Hh. apply Hwf. Qed.

Lemma store_wf_kept_delete (s : State) (id : string) :
  store_wf_kept s (set_sessions (delete id) s).
Proof.
  intros Hwf id' l Hl. simpl in *. apply lookup_delete_Some in Hl. destruct Hl as [_ Hl].
  apply Hwf. exact Hl.
Qed.

Lemma store_wf_kept_alter (s : State) (l0 : nat) (f : SessionState -> SessionState) :
  (forall x, ss_id (f x) = ss_id x) ->
  store_wf_kept s (set_heap (alter f l0) s).
Proof.
  intros Hf Hwf id l Hl. simpl in *. destruct (Hwf id l Hl) as (x & Hx & Hidx).
  destruct (decide (l0 = l)) as [-> | Hne].
  - exists (f x). rewrite list_lookup_alter_eq, Hx. split; [reflexivity | ].
    rewrite Hf. exact Hidx.
  - exists x. rewrite list_lookup_alter_ne by exact Hne. split; assumption.
Qed.

Lemma createSession_wf (provider : ProviderName) (request : NormalizedRequest)
    (state : SessionInit) (options : CreateSessionOptions) :
  respects store_wf_kept (createSession provider request state options).
Proof.
  intros s Hwf id l. rewrite createSession_eq. simpl. intros Hl.
  apply lookup_insert_Some in Hl. destruct Hl as [[<- <-] | [_ Hl]].
  - eexists. split; [apply list_lookup_middle; reflexivity | reflexivity].
  - destruct (Hwf id l Hl) as (x & Hx & Hidx). exists x.
    split; [apply lookup_app_l_Some; exact Hx | exact Hidx].
Qed.

Ltac store_wf_prim :=
  intros ?;
  first [ apply store_wf_kept_delete
        | apply store_wf_kept_alter; intros ?; reflexivity
        | apply store_wf_kept_same; reflexivity ].

Ltac store_wf_all :=
  repeat first
    [ apply createSession_wf
    | respects_step
    | progress
        unfold route, complete_handler, stream_handler, continue_handler, continue_round,
          continue_invoke, continue_settle, context_stream_handler, abort_handler,
          delete_session_handler, invalid_body,
          membrane_stream, membrane_complete, processContext,
          stream_callbacks, continue_callbacks, context_callbacks, onBlock,
          updateSession, getSession, deleteSession, mutate,
          createMembrane, updateProviderHealth, handleError,
          generateStreamId, register, new_AbortController, activeStreams_set, cleanupStream,
          AbortController_abort, reply_code_send, reply_send, writeHead, sendEvent, raw_end ].

Lemma route_keeps_store_wf (config : Config) (request : Request) :
  respects store_wf_kept (route config request).
Proof.
  pose proof store_wf_kept_refl as Hr.
  pose proof store_wf_kept_trans as Ht.
  destruct request; store_wf_all; store_wf_prim.
Qed.

(** Whatever request the server handles, the store stays well formed:
    every key refers to a record, and that record's [id] is the key it is
    stored under.  On such a store a lookup always completes normally. *)
Theorem store_stays_well_formed (config : Config) (request : Request) (s : State) :
  store_wf s ->
  let s' := after (route config request) s in
  store_wf s' /\
  forall id : string, exists found : option nat, (getSession id s').1 = Ok found.
Proof.
  intros Hwf. cbv zeta.
  assert (Hwf' : store_wf (after (route config request) s)).
  { unfold after, serve. apply route_keeps_store_wf. exact Hwf. }
  split; [exact Hwf' | ]. intros id.
  set (s' := after (route config request) s) in *.
  destruct (sessions s' !! id) as [l | ] eqn:Hid.
  - destruct (Hwf' id l Hid) as (x & Hx & _).
    destruct (Z.le_gt_cases (clock s' (ticks s')) (ss_expiresAt x)) as [Hlive | Hexp].
    + rewrite (getSession_live s' id l x Hid Hx Hlive). eexists. reflexivity.
    + rewrite (getSession_expired s' id l x Hid Hx Hexp). eexists. reflexivity.
  - rewrite (getSession_absent s' id Hid). eexists. reflexivity.
Qed.

Lemma store_stays_well_formed_witness :
  store_wf example_boot /\
  store_wf (after (route example_config
                     (PostStream (ParseSuccess example_completion_request)
                        (run_of example_tool_response)))
              example_boot).
Proof.
  assert (Hboot : store_wf example_boot).
  { intros id l Hl. change (sessions example_boot) with (∅ : gmap string nat) in Hl.
    rewrite lookup_empty in Hl. discriminate Hl. }
  split; [exact Hboot | ].
  apply (store_stays_well_formed example_config
           (PostStream (ParseSuccess example_completion_request)
              (run_of example_tool_response))
           example_boot Hboot).
Defined.












(* ===================================================================== *)
(** ** Credentials and provider health *)
(* ===================================================================== *)

Ltac case_provider provider :=
  repeat match goal with
         | |- context [String.eqb provider ?c] =>
             destruct (String.eqb_spec provider c); [ subst provider | ]
         end.

Ltac case_nonempty :=
  repeat match goal with
         | |- context [nonempty ?x] => destruct (nonempty x)
         end.

(** A provider counts as configured on the server exactly when a request
    that brings no credentials of its own can be served for it: the
    fallback alone yields an adapter. *)
Theorem server_key_suffices_exactly (fb : FallbackConfig) (provider : ProviderName) :
  hasServerKey fb provider = true <->
  exists adapter : Adapter, createAdapter fb provider None None = Ok adapter.
Proof.
  unfold hasServerKey, createAdapter, truthy_str, no_key.
  case_provider provider; simpl; case_nonempty; simpl;
    (split; [ intros H; try discriminate H; eexists; reflexivity
            | intros [adapter H]; try discriminate H; reflexivity ]).
Qed.

(** For the providers that take an API key, a key in the request is the
    one the adapter is built with, whatever the provider configuration of
    the request and the server's fallback hold; without a key in the
    request, a key in the request's provider configuration is used before
    the server's. *)
Theorem client_credentials_take_precedence (fb : FallbackConfig) (provider : ProviderName)
    (apiKey : option string) (config : option ProviderConfig) (adapter : Adapter)
    (key : string) :
  provider <> "bedrock" ->
  createAdapter fb provider apiKey config = Ok adapter ->
  key <> "" ->
  (apiKey = Some key -> adapter_apiKey adapter = Some key) /\
  (nonempty apiKey = None -> config ≫= pc_apiKey = Some key ->
     adapter_apiKey adapter = Some key).
Proof.
  intros Hprov Hok Hkey.
  assert (Hreq : forall rest, or_str (Some key) rest = Some key).
  { intros rest. simpl. destruct (String.eqb_spec key "") as [He | _]; [contradiction | ].
    reflexivity. }
  assert (Hfall : forall rest, nonempty apiKey = None -> or_str apiKey rest = rest).
  { intros rest. destruct apiKey as [k | ]; [ | reflexivity ]. simpl.
    destruct (String.eqb k ""); [reflexivity | discriminate]. }
  assert (Hnon : nonempty (Some key) = Some key) by apply Hreq.
  split.
  - intros ->. revert Hok. unfold createAdapter, no_key.
    case_provider provider; try contradiction; rewrite ?Hreq, ?Hnon; simpl;
      case_nonempty; intros Hok; try discriminate Hok; injection Hok as <-; reflexivity.
  - intros Hnone Hcfg. revert Hok. unfold createAdapter, no_key.
    case_provider provider; try contradiction;
      rewrite ?(Hfall _ Hnone), ?Hcfg, ?Hreq, ?Hnon; simpl;
      case_nonempty; intros Hok; try discriminate Hok; injection Hok as <-; reflexivity.
Qed.

Lemma client_credentials_take_precedence_witness :
  hasServerKey (fallbackConfig example_boot) "anthropic" = true /\
  createAdapter (fallbackConfig example_boot) "anthropic" (Some "sk-client") None
    = Ok (AnthropicAdapter "sk-client") /\
  adapter_apiKey (AnthropicAdapter "sk-client") = Some "sk-client".
Proof.
  split; [reflexivity | ]. split; [reflexivity | ].
  destruct (client_credentials_take_precedence (fallbackConfig example_boot) "anthropic"
              (Some "sk-client") None (AnthropicAdapter "sk-client") "sk-client")
    as [Hrequest _].
  - discriminate.
  - reflexivity.
  - discriminate.
  - apply Hrequest. reflexivity.
Defined.

(** [createAdapter] fails with [Unknown provider] exactly for the names
    that are not among the six available providers; for those six it
    either builds an adapter or reports the missing credential. *)
Theorem unknown_provider_exactly (fb : FallbackConfig) (provider : ProviderName)
    (apiKey : option string) (config : option ProviderConfig) :
  createAdapter fb provider apiKey config
    = Throw (ErrorObject ("Unknown provider: " +:+ provider) None)
  <-> provider ∉ getAvailableProviders.
Proof.
  unfold createAdapter, getAvailableProviders, no_key.
  case_provider provider;
    try (split;
         [ intros H; exfalso; revert H; case_nonempty; simpl; discriminate
         | intros H; exfalso; apply H; rewrite !elem_of_cons; tauto ]).
  split; [ | reflexivity ]. intros _.
  rewrite !not_elem_of_cons. repeat split; try assumption. apply not_elem_of_nil.
Qed.

Lemma hasServerKey_available (fb : FallbackConfig) (provider : ProviderName) :
  hasServerKey fb provider = true -> provider ∈ getAvailableProviders.
Proof.
  unfold hasServerKey, getAvailableProviders.
  case_provider provider; intros H; try discriminate H; rewrite !elem_of_cons; tauto.
Qed.

Lemma filter_sublist {A : Type} (f : A -> bool) (l : list A) : sublist (List.filter f l) l.
Proof.
  induction l as [ | x l IH]; simpl; [constructor | ].
  destruct (f x); [apply sublist_skip | apply sublist_cons]; exact IH.
Qed.

(** The providers that GET /v1/stats lists as configured are exactly
    those with a server key, in the order of the six available providers;
    computing the list changes nothing. *)
Theorem configured_providers_have_keys (s : State) (provider : ProviderName) :
  exists providers : list ProviderName,
    getConfiguredProviders s = (Ok providers, s) /\
    (provider ∈ providers <-> hasServerKey (fallbackConfig s) provider = true) /\
    sublist providers getAvailableProviders.
Proof.
  eexists. split; [reflexivity | ]. split; [ | apply filter_sublist ].
  rewrite list_elem_of_In, List.filter_In, <- list_elem_of_In. split.
  - intros [_ H]. exact H.
  - intros H. split; [ | exact H ]. exact (hasServerKey_available _ _ H).
Qed.

Lemma track_if_configured_eq (provider : ProviderName) (s : State) :
  track_if_configured provider s =
    (Ok tt,
     if hasServerKey (fallbackConfig s) provider
     then set_providerHealth (insert provider (true, clock s (ticks s))) (set_ticks S s)
     else s).
Proof.
  unfold track_if_configured, bind, gets. destruct (hasServerKey (fallbackConfig s) provider);
    reflexivity.
Qed.

Lemma for_of_track (providers : list ProviderName) (s : State) :
  let s' := (for_of providers track_if_configured s).2 in
  (for_of providers track_if_configured s).1 = Ok tt /\
  fallbackConfig s' = fallbackConfig s /\
  sessions s' = sessions s /\
  activeStreams s' = activeStreams s /\
  forall p : ProviderName,
    (p ∈ providers -> hasServerKey (fallbackConfig s) p = true ->
       exists t, providerHealth s' !! p = Some (true, t)) /\
    (p ∉ providers \/ hasServerKey (fallbackConfig s) p = false ->
       providerHealth s' !! p = providerHealth s !! p).
Proof.
  revert s. induction providers as [ | x rest IH]; intros s; cbv zeta.
  - simpl. repeat split; try reflexivity. intros Hin. apply elem_of_nil in Hin. contradiction.
  - simpl. unfold bind at 1 2 3 4 5 6. rewrite track_if_configured_eq.
    destruct (hasServerKey (fallbackConfig s) x) eqn:Hx.
    + set (s1 := set_providerHealth (insert x (true, clock s (ticks s))) (set_ticks S s)).
      destruct (IH s1) as (Hok & Hfb & Hsess & Hact & Hp).
      split; [exact Hok | ]. split; [exact Hfb | ]. split; [exact Hsess | ].
      split; [exact Hact | ]. intros p. destruct (Hp p) as [Hset Hkeep]. split.
      * intros Hin Hkey. destruct (decide (p ∈ rest)) as [Hrest | Hrest].
        -- apply Hset; assumption.
        -- apply elem_of_cons in Hin. destruct Hin as [-> | Hin]; [ | contradiction ].
           rewrite Hkeep by (left; exact Hrest). eexists. simpl. apply lookup_insert_eq.
      * intros Hout. assert (Hne : x <> p).
        { destruct Hout as [Hout | Hout].
          - apply not_elem_of_cons in Hout. destruct Hout as [Hne _]. congruence.
          - intros ->. congruence. }
        rewrite Hkeep.
        -- simpl. apply lookup_insert_ne. exact Hne.
        -- destruct Hout as [Hout | Hout]; [left | right; exact Hout].
           apply not_elem_of_cons in Hout. tauto.
    + destruct (IH s) as (Hok & Hfb & Hsess & Hact & Hp).
      split; [exact Hok | ]. split; [exact Hfb | ]. split; [exact Hsess | ].
      split; [exact Hact | ]. intros p. destruct (Hp p) as [Hset Hkeep]. split.
      * intros Hin Hkey. apply Hset; [ | exact Hkey ].
        apply elem_of_cons in Hin. destruct Hin as [-> | Hin]; [congruence | exact Hin].
      * intros Hout. apply Hkeep. destruct Hout as [Hout | Hout]; [left | right; exact Hout].
        apply not_elem_of_cons in Hout. tauto.
Qed.

Lemma getProviderHealth_eq (provider : ProviderName) (s : State) :
  getProviderHealth provider s = (Ok (recorded s provider), s).
Proof.
  unfold getProviderHealth, recorded, bind, gets. destruct (providerHealth s !! provider);
    reflexivity.
Qed.

Lemma initializeProviders_eq (config : Config) (s : State) :
  initializeProviders config s =
    for_of ["anthropic"; "openrouter"; "openai"; "openai-compatible"; "openai-completions";
            "bedrock"]
      track_if_configured (set_fallbackConfig (fun _ => initializeProviders_fallback config) s).
Proof. reflexivity. Qed.

(** Start-up. [initializeProviders] installs the server's fallback
    credentials and records as healthy exactly the providers that have a
    server key: for a provider that had no health record before,
    [getProviderHealth] afterwards reports [configured] exactly when the
    provider has a server key, and [healthy] in either case.  Sessions and
    streams are not involved. *)
Theorem initializeProviders_marks_configured (config : Config) (s : State)
    (provider : ProviderName) :
  providerHealth s !! provider = None ->
  let s' := (initializeProviders config s).2 in
  (initializeProviders config s).1 = Ok tt /\
  fallbackConfig s' = initializeProviders_fallback config /\
  (getProviderHealth provider s').1
    = Ok {| ph_configured := hasServerKey (initializeProviders_fallback config) provider;
            ph_healthy := true |} /\
  sessions s' = sessions s /\
  activeStreams s' = activeStreams s.
Proof.
  intros Hnone. cbv zeta. rewrite initializeProviders_eq.
  set (s0 := set_fallbackConfig (fun _ => initializeProviders_fallback config) s).
  destruct (for_of_track
              ["anthropic"; "openrouter"; "openai"; "openai-compatible"; "openai-completions";
               "bedrock"] s0) as (Hok & Hfb & Hsess & Hact & Hp).
  split; [exact Hok | ]. split; [exact Hfb | ].
  split; [ | split; [exact Hsess | exact Hact]].
  destruct (Hp provider) as [Hset Hkeep].
  change (fallbackConfig s0) with (initializeProviders_fallback config) in Hset, Hkeep.
  rewrite getProviderHealth_eq. cbn [fst]. unfold recorded. unfold ProviderName in *.
  destruct (hasServerKey (initializeProviders_fallback config) provider) eqn:Hkey.
  - destruct Hset as [t Ht]; [exact (hasServerKey_available _ _ Hkey) | reflexivity | ].
    rewrite Ht. reflexivity.
  - rewrite Hkeep by (right; reflexivity). change (providerHealth s0) with (providerHealth s).
    rewrite Hnone. reflexivity.
Qed.

Lemma initializeProviders_marks_configured_witness :
  providerHealth example_boot !! "anthropic" = None /\
  (getProviderHealth "anthropic" (initializeProviders example_config example_boot).2).1
    = Ok {| ph_configured := true; ph_healthy := true |}.
Proof.
  assert (Hnone : providerHealth example_boot !! "anthropic" = None) by reflexivity.
  split; [exact Hnone | ].
  destruct (initializeProviders_marks_configured example_config example_boot "anthropic" Hnone)
    as (_ & _ & Hhealth & _).
  exact Hhealth.
Defined.

(* ===================================================================== *)
(** ** The health report *)
(* ===================================================================== *)

Lemma health_handler_eq (startTime : Z) (s : State) :
  health_handler startTime s =
    (Ok {| hr_status := health_status (map (recorded s) getAvailableProviders);
           hr_version := VERSION;
           hr_uptime := clock s (ticks s) - startTime;
           hr_providers := map (fun p => (p, recorded s p)) getAvailableProviders |},
     set_ticks S s).
Proof.
  unfold health_handler. unfold bind. rewrite !getProviderHealth_eq. reflexivity.
Qed.

Lemma filter_length_zero {A : Type} (f : A -> bool) (l : list A) :
  length (List.filter f l) = 0%nat <-> forall v, In v l -> f v = false.
Proof.
  induction l as [ | x l IH]; simpl.
  - split; [intros _ v [] | reflexivity].
  - destruct (f x) eqn:Hx; simpl.
    + split; [discriminate | ]. intros H. specialize (H x (or_introl eq_refl)). congruence.
    + rewrite IH. split.
      * intros H v [<- | Hv]; [exact Hx | exact (H v Hv)].
      * intros H v Hv. apply H. right. exact Hv.
Qed.

Lemma health_status_degraded (values : list ProviderHealthStatus) :
  health_status values = "degraded" <->
  (exists v, In v values /\ ph_configured v = true) /\
  (forall v, In v values -> ph_configured v = true -> ph_healthy v = false).
Proof.
  unfold health_status.
  destruct (Nat.eqb_spec (length (List.filter ph_configured values)) 0) as [Hnone | Hsome].
  - split; [discriminate | ]. intros [(v & Hv & Hc) _]. exfalso.
    rewrite filter_length_zero in Hnone. specialize (Hnone v Hv). congruence.
  - assert (Hex : exists v, In v values /\ ph_configured v = true).
    { destruct (List.filter ph_configured values) as [ | v rest] eqn:Hf; [contradiction | ].
      exists v. apply List.filter_In. rewrite Hf. left. reflexivity. }
    destruct (Nat.ltb_spec 0
                (length (List.filter (fun p => ph_configured p && ph_healthy p) values)))
      as [Hpos | Hzero].
    + split; [discriminate | ]. intros [_ Hall]. exfalso.
      destruct (List.filter (fun p => ph_configured p && ph_healthy p) values)
        as [ | v rest] eqn:Hf; [simpl in Hpos; lia | ].
      assert (Hin : In v (List.filter (fun p => ph_configured p && ph_healthy p) values))
        by (rewrite Hf; left; reflexivity).
      apply List.filter_In in Hin. destruct Hin as [Hv Hb].
      apply andb_true_iff in Hb. destruct Hb as [Hc Hh].
      rewrite (Hall v Hv Hc) in Hh. discriminate Hh.
    + split; [ | reflexivity ]. intros _. split; [exact Hex | ].
      assert (Hz : length (List.filter (fun p => ph_configured p && ph_healthy p) values)
                   = 0%nat) by lia.
      rewrite filter_length_zero in Hz. intros v Hv Hc. specialize (Hz v Hv).
      rewrite Hc in Hz. exact Hz.
Qed.

Lemma health_degraded_iff (startTime : Z) (s : State) (h : HealthResponse) :
  (health_handler startTime s).1 = Ok h ->
  (hr_status h = "degraded" <->
   (exists p, p ∈ getAvailableProviders /\ is_Some (providerHealth s !! p)) /\
   (forall p b t, p ∈ getAvailableProviders -> providerHealth s !! p = Some (b, t) -> b = false)).
Proof.
  intros H.
  assert (Hs : hr_status h = health_status (map (recorded s) getAvailableProviders)).
  { rewrite health_handler_eq in H. injection H as H. rewrite <- H. reflexivity. }
  rewrite Hs, health_status_degraded. split.
  - intros [(v & Hv & Hc) Hall]. split.
    + apply List.in_map_iff in Hv. destruct Hv as (p & <- & Hp).
      exists p. split; [apply list_elem_of_In; exact Hp | ].
      unfold recorded in Hc. destruct (providerHealth s !! p); [eexists; reflexivity | ].
      discriminate Hc.
    + intros p b t Hp Hl.
      assert (Hin : In (recorded s p) (map (recorded s) getAvailableProviders)).
      { apply List.in_map. apply list_elem_of_In. exact Hp. }
      specialize (Hall _ Hin). unfold recorded in Hall. rewrite Hl in Hall.
      apply Hall. reflexivity.
  - intros [(p & Hp & [hl Hl]) Hall]. split.
    + exists (recorded s p). split.
      * apply List.in_map_iff. exists p. split; [reflexivity | apply list_elem_of_In; exact Hp].
      * unfold recorded. rewrite Hl. reflexivity.
    + intros v Hv Hc. apply List.in_map_iff in Hv. destruct Hv as (q & <- & Hq).
      unfold recorded in *. destruct (providerHealth s !! q) as [[b t] | ] eqn:Hlq;
        [ | discriminate Hc ].
      simpl. apply (Hall q b t); [apply list_elem_of_In; exact Hq | exact Hlq].
Qed.

(** GET /health reads the clock once and changes nothing else.  It
    reports [degraded] exactly when at least one of the six providers has
    a health record and none of the recorded ones is healthy; in every
    other case, in particular when nothing is recorded at all, it reports
    [ok]. *)
Theorem health_degraded_exactly (startTime : Z) (s : State) :
  exists h : HealthResponse,
    health_handler startTime s = (Ok h, set_ticks S s) /\
    hr_uptime h = clock s (ticks s) - startTime /\
    (hr_status h = "ok" \/ hr_status h = "degraded") /\
    (hr_status h = "degraded" <->
     (exists p, p ∈ getAvailableProviders /\ is_Some (providerHealth s !! p)) /\
     (forall p b t,
        p ∈ getAvailableProviders -> providerHealth s !! p = Some (b, t) -> b = false)).
Proof.
  eexists. split; [apply health_handler_eq | ]. split; [reflexivity | ]. split.
  - cbn [hr_status]. unfold health_status.
    destruct (_ =? _)%nat; [left; reflexivity | ].
    destruct (_ <? _)%nat; [left | right]; reflexivity.
  - apply (health_degraded_iff startTime s). rewrite health_handler_eq. reflexivity.
Qed.

(* ===================================================================== *)
(** ** Errors, authentication and request bodies *)
(* ===================================================================== *)

(** How a failure is reported.  The reply carries the code, message and
    retry flag that [parseError] extracts.  An error is flagged retryable
    exactly when it is an [Error] whose [code] is one of the strings
    [rate_limit], [overloaded] and [timeout]; of these only [rate_limit]
    has a status of its own (429), the other two are answered with 500
    like every code outside the four that are mapped.  An [Error] without
    a [code] is an [internal_error], a thrown value that is no [Error] an
    [unknown_error], both 500 and not retryable. *)
Theorem handleError_status_by_code (error : Thrown) (s : State) :
  let info := parseError error in
  let s' := (handleError error s).2 in
  (handleError error s).1 = Ok tt /\
  rp_body (reply s')
    = Some (body_error (ei_code info) (ei_message info) (ei_retryable info) JUndefined) /\
  (rp_status (reply s') = Some 429 <-> ei_code info = "rate_limit") /\
  (rp_status (reply s') = Some 500 <->
   ei_code info ∉ ["rate_limit"; "unauthorized"; "invalid_request"; "not_found"]) /\
  (ei_retryable info = true <->
   exists message code,
     error = ErrorObject message (Some (JStr code)) /\
     code ∈ ["rate_limit"; "overloaded"; "timeout"]) /\
  (ei_retryable info = true -> ei_code info <> "rate_limit" ->
   rp_status (reply s') = Some 500) /\
  (forall message, error = ErrorObject message None ->
     info = {| ei_code := "internal_error"; ei_message := message; ei_retryable := false |} /\
     rp_status (reply s') = Some 500) /\
  (forall rendered, error = NotAnError rendered ->
     info = {| ei_code := "unknown_error"; ei_message := rendered; ei_retryable := false |} /\
     rp_status (reply s') = Some 500).
Proof.
  cbv zeta. unfold handleError, reply_code_send, modify. simpl.
  split; [reflexivity | ]. split; [reflexivity | ].
  assert (Hretry : ei_retryable (parseError error) = true <->
                   exists message code,
                     error = ErrorObject message (Some (JStr code)) /\
                     code ∈ ["rate_limit"; "overloaded"; "timeout"]).
  { destruct error as [message [code | ] | rendered]; simpl.
    - destruct code; simpl;
        try (split; [discriminate | intros (m & c & H & _); discriminate H]).
      rewrite !orb_true_iff, !String.eqb_eq. split.
      + intros H. exists message, s0. split; [reflexivity | ].
        rewrite !elem_of_cons. tauto.
      + intros (m & c & H & Hin). injection H as _ <-.
        rewrite !elem_of_cons in Hin. destruct Hin as [H | [H | [H | H]]]; auto.
        apply elem_of_nil in H. contradiction.
    - split; [discriminate | intros (m & c & H & _); discriminate H].
    - split; [discriminate | intros (m & c & H & _); discriminate H]. }
  split; [ | split; [ | split; [exact Hretry | ]]].
  - destruct (String.eqb_spec (ei_code (parseError error)) "rate_limit") as [He | Hne].
    + split; [intros _; exact He | reflexivity].
    + split; [ | contradiction ].
      repeat match goal with
             | |- context [String.eqb ?a ?b] => destruct (String.eqb a b)
             end; discriminate.
  - rewrite !not_elem_of_cons.
    destruct (String.eqb_spec (ei_code (parseError error)) "rate_limit");
      [split; [discriminate | tauto] | ].
    destruct (String.eqb_spec (ei_code (parseError error)) "unauthorized");
      [split; [discriminate | tauto] | ].
    destruct (String.eqb_spec (ei_code (parseError error)) "invalid_request");
      [split; [discriminate | tauto] | ].
    destruct (String.eqb_spec (ei_code (parseError error)) "not_found");
      [split; [discriminate | tauto] | ].
    split; [ | reflexivity ]. intros _. repeat split; try assumption. apply not_elem_of_nil.
  - split; [ | split ].
    + intros Hr Hne. apply Hretry in Hr. destruct Hr as (m & c & -> & Hin). simpl in *.
      rewrite !elem_of_cons in Hin.
      destruct Hin as [-> | [-> | [-> | H]]];
        [contradiction | reflexivity | reflexivity | apply elem_of_nil in H; contradiction].
    + intros message ->. split; reflexivity.
    + intros rendered ->. split; reflexivity.
Qed.

Lemma append_cons (a : Ascii.ascii) (s rest : string) :
  String a s +:+ rest = String a (s +:+ rest).
Proof. reflexivity. Qed.

Lemma append_empty (rest : string) : EmptyString +:+ rest = rest.
Proof. reflexivity. Qed.

Lemma startsWith_slice (prefix s : string) :
  startsWith s prefix = true -> s = prefix +:+ slice (String.length prefix) s.
Proof.
  unfold startsWith. revert s. induction prefix as [ | a prefix IH]; intros s; simpl.
  - intros _. destruct s; reflexivity.
  - destruct s as [ | b s]; simpl; [discriminate | ].
    destruct (Ascii.ascii_dec a b) as [-> | _]; [ | discriminate ].
    intros H. rewrite append_cons. f_equal. apply IH. exact H.
Qed.

Lemma startsWith_append (prefix rest : string) : startsWith (prefix +:+ rest) prefix = true.
Proof.
  unfold startsWith. induction prefix as [ | a prefix IH].
  - rewrite append_empty. destruct rest; reflexivity.
  - rewrite append_cons. simpl.
    destruct (Ascii.ascii_dec a a) as [_ | Hne]; [exact IH | contradiction].
Qed.

Lemma slice_append (prefix rest : string) :
  slice (String.length prefix) (prefix +:+ rest) = rest.
Proof.
  induction prefix as [ | a prefix IH].
  - rewrite append_empty. destruct rest; reflexivity.
  - rewrite append_cons. simpl. exact IH.
Qed.

(** The authentication hook lets a request through (sends no reply)
    exactly when no token is configured on the server, or the request is
    for [/health], or its [Authorization] header is the string [Bearer ]
    followed by the configured token, with nothing before or after.  Every
    request it stops is answered with status 401 and code [unauthorized].
    The hook touches nothing but the reply. *)
Theorem authenticate_accepts_exactly (apiToken : option string) (url : string)
    (authorization : option string) (s : State) :
  let s' := after (authenticate apiToken url authorization) s in
  completion (authenticate apiToken url authorization) s = Ok tt /\
  (rp_body (reply s') = None <->
   nonempty apiToken = None \/
   url = "/health" \/
   exists token, nonempty apiToken = Some token /\
                 authorization = Some ("Bearer " +:+ token)) /\
  (rp_body (reply s') <> None ->
   rp_status (reply s') = Some 401 /\
   exists message,
     rp_body (reply s') = Some (body_error "unauthorized" message false JUndefined)) /\
  s' = set_reply (fun _ => reply s') s.
Proof.
  cbv zeta. unfold after, completion, serve, authenticate.
  destruct (nonempty apiToken) as [token | ] eqn:Htoken.
  2:{ unfold ret. simpl. repeat split; try tauto; intros H; contradiction. }
  unfold onRequest.
  destruct (String.eqb_spec url "/health") as [Hurl | Hurl].
  { unfold ret. simpl. repeat split; try tauto; intros H; contradiction. }
  assert (Hstop : forall message,
            let r := reply_code_send 401 (body_error "unauthorized" message false JUndefined)
                       (set_reply (fun _ => fresh_reply) s) in
            (forall h, authorization = Some h -> h <> "Bearer " +:+ token) ->
            r.1 = Ok tt /\
            (rp_body (reply r.2) = None <->
             Some token = None \/
             url = "/health" \/
             exists token', Some token = Some token' /\
                            authorization = Some ("Bearer " +:+ token')) /\
            (rp_body (reply r.2) <> None ->
             rp_status (reply r.2) = Some 401 /\
             exists message',
               rp_body (reply r.2)
               = Some (body_error "unauthorized" message' false JUndefined)) /\
            r.2 = set_reply (fun _ => reply r.2) s).
  { intros message r Hbad. subst r. unfold reply_code_send, modify. simpl.
    split; [reflexivity | ]. split; [ | split; [ | reflexivity ]].
    - split; [discriminate | ].
      intros [H | [H | (token' & H & Hauth)]]; [discriminate H | contradiction | ].
      injection H as <-. exfalso. exact (Hbad _ Hauth eq_refl).
    - intros _. split; [reflexivity | ]. eexists. reflexivity. }
  destruct authorization as [authHeader | ].
  2:{ apply Hstop. intros h H. discriminate H. }
  destruct (String.eqb_spec authHeader "") as [Hempty | Hnonempty].
  { cbn [orb]. apply Hstop. intros h H. injection H as <-. rewrite Hempty. discriminate. }
  cbn [orb]. destruct (startsWith authHeader "Bearer ") eqn:Hprefix.
  2:{ cbn [negb]. apply Hstop. intros h H. injection H as <-. intros Heq.
      rewrite Heq in Hprefix. rewrite startsWith_append in Hprefix. discriminate Hprefix. }
  cbn [negb]. cbv zeta.
  destruct (String.eqb_spec (slice 7 authHeader) token) as [Hslice | Hslice].
  - cbn [negb]. unfold ret. cbn [fst snd reply set_reply rp_body fresh_reply].
    split; [reflexivity | ]. split; [ | split; [ | reflexivity ]].
    + split; [ | reflexivity ]. intros _. right. right. exists token.
      split; [reflexivity | ]. f_equal. rewrite <- Hslice.
      exact (startsWith_slice "Bearer " authHeader Hprefix).
    + intros H. contradiction.
  - cbn [negb]. apply Hstop. intros h H. injection H as <-. intros Heq. apply Hslice.
    rewrite Heq. exact (slice_append "Bearer " token).
Qed.

Lemma to_toolResult_cases (r : JsValue) :
  ((r = JNull \/ r = JUndefined) /\
   exists message, to_toolResult r = Throw (ErrorObject message None)) \/
  (r <> JNull /\ r <> JUndefined /\
   exists toolUseId content isError,
     get_prop "toolUseId" r = Ok toolUseId /\ get_prop "content" r = Ok content /\
     get_prop "isError" r = Ok isError /\
     to_toolResult r = Ok (mkToolResult toolUseId content isError)).
Proof.
  destruct r; unfold to_toolResult; simpl;
    try (right; split; [discriminate | split; [discriminate | ]];
         eexists _, _, _; repeat split; reflexivity).
  - left. split; [right; reflexivity | eexists; reflexivity].
  - left. split; [left; reflexivity | eexists; reflexivity].
Qed.

(** The tool results of a continuation request are read element by
    element without validation: the conversion succeeds exactly when no
    element is [null] or [undefined], and then yields one tool result per
    element, in order, each made of the element's [toolUseId], [content]
    and [isError] properties (whatever they are, [undefined] when
    missing).  When it fails, it fails with a [TypeError], which carries
    no code and is therefore reported as [internal_error]. *)
Theorem map_toolResults_accepts_non_null (items : list JsValue) :
  ((exists toolResults, map_toolResults items = Ok toolResults) <->
   Forall (fun r => r <> JNull /\ r <> JUndefined) items) /\
  (forall toolResults, map_toolResults items = Ok toolResults ->
     Forall2 (fun r t => get_prop "toolUseId" r = Ok (tr_toolUseId t) /\
                         get_prop "content" r = Ok (tr_content t) /\
                         get_prop "isError" r = Ok (tr_isError t))
             items toolResults) /\
  (forall e, map_toolResults items = Throw e ->
     exists message, e = ErrorObject message None /\
                     ei_code (parseError e) = "internal_error").
Proof.
  induction items as [ | r rest (IHiff & IHok & IHerr)].
  - simpl. split; [split; [constructor | eexists; reflexivity] | ].
    split; [intros t H; injection H as <-; constructor | discriminate].
  - simpl. destruct (to_toolResult_cases r)
      as [(Hnull & message & ->) | (Hn & Hu & toolUseId & content & isError & H1 & H2 & H3 & ->)].
    + split; [split | split].
      * intros [t H]. discriminate H.
      * intros H. apply Forall_cons in H. destruct H as [[Hn Hu] _]. tauto.
      * discriminate.
      * intros e H. injection H as <-. exists message. split; reflexivity.
    + destruct (map_toolResults rest) as [ts | e] eqn:Hrest.
      * split; [split | split].
        -- intros _. apply Forall_cons. split; [split; assumption | ].
           apply IHiff. eexists. reflexivity.
        -- intros _. eexists. reflexivity.
        -- intros t H. injection H as <-. constructor; [repeat split; assumption | ].
           apply IHok. reflexivity.
        -- discriminate.
      * split; [split | split].
        -- intros [t H]. discriminate H.
        -- intros H. apply Forall_cons in H. destruct H as [_ H]. apply IHiff in H.
           destruct H as [t H]. discriminate H.
        -- discriminate.
        -- intros e' H. injection H as <-. apply IHerr. reflexivity.
Qed.

(* ===================================================================== *)
(** ** The completion handler *)
(* ===================================================================== *)

Lemma createAdapter_error_has_no_code (fb : FallbackConfig) (provider : ProviderName)
    (apiKey : option string) (config : option ProviderConfig) (e : Thrown) :
  createAdapter fb provider apiKey config = Throw e ->
  exists message, e = ErrorObject message None.
Proof.
  unfold createAdapter, no_key.
  case_provider provider; case_nonempty; intros H; try discriminate H;
    injection H as <-; eexists; reflexivity.
Qed.

Section Complete.
Variables (config : Config) (req : CompletionRequest) (s : State).

Let provider := default (cfg_defaultProvider config) (cr_provider req).
Let credentials :=
  createAdapter (fallbackConfig s) provider (cr_apiKey req) (cr_providerConfig req).

Lemma complete_handler_ok (adapter : Adapter) (response : NormalizedResponse) :
  credentials = Ok adapter ->
  serve (complete_handler config (ParseSuccess req) (Ok response)) s =
    (Ok tt,
     set_reply
       (fun _ => mkReply None
                   (Some (body_completion
                            (buildCompletionResponse response provider
                               (clock s (2 + ticks s)%nat - clock s (ticks s)))))
                   None [] false)
       (set_ticks (fun t => (3 + t)%nat)
          (set_providerHealth (insert provider (true, clock s (1 + ticks s)%nat))
             (set_history (fun h => h ++ [CalledComplete (buildNormalizedRequest req config)])
                s)))).
Proof.
  unfold credentials, provider. intros Had. run_handler. simpl. rewrite Had. reflexivity.
Qed.

Lemma complete_handler_rejected (adapter : Adapter) (e : Thrown) :
  credentials = Ok adapter ->
  serve (complete_handler config (ParseSuccess req) (Throw e)) s =
    (Ok tt,
     set_reply (fun _ => reply (after (handleError e) s))
       (set_ticks (fun t => (2 + t)%nat)
          (set_providerHealth (insert provider (false, clock s (1 + ticks s)%nat))
             (set_history (fun h => h ++ [CalledComplete (buildNormalizedRequest req config)])
                s)))).
Proof.
  unfold credentials, provider. intros Had. run_handler. simpl. rewrite Had. reflexivity.
Qed.

Lemma complete_handler_no_credentials (outcome : Result NormalizedResponse) (e : Thrown) :
  credentials = Throw e ->
  serve (complete_handler config (ParseSuccess req) outcome) s =
    (Ok tt,
     set_reply (fun _ => reply (after (handleError e) s))
       (set_ticks S (set_providerHealth (insert provider (false, clock s (ticks s))) s))).
Proof.
  unfold credentials, provider. intros Had. run_handler. simpl. rewrite Had. reflexivity.
Qed.
End Complete.

(** A completion that succeeds.  With credentials available and the
    collaborator returning a response, the handler answers with the
    completion built from that response (status left at its default, the
    duration being the time between the two clock readings around the
    call), calls the collaborator exactly once, with the normalized
    request, records the provider as healthy, and leaves sessions and
    streams alone. *)
Theorem completion_success (config : Config) (req : CompletionRequest) (s : State)
    (adapter : Adapter) (response : NormalizedResponse) :
  let provider := default (cfg_defaultProvider config) (cr_provider req) in
  createAdapter (fallbackConfig s) provider (cr_apiKey req) (cr_providerConfig req)
    = Ok adapter ->
  let handler := complete_handler config (ParseSuccess req) (Ok response) in
  let s' := after handler s in
  completion handler s = Ok tt /\
  rp_status (reply s') = None /\
  rp_body (reply s')
    = Some (body_completion
              (buildCompletionResponse response provider
                 (clock s (2 + ticks s)%nat - clock s (ticks s)))) /\
  history s' = history s ++ [CalledComplete (buildNormalizedRequest req config)] /\
  providerHealth s' = <[provider := (true, clock s (1 + ticks s)%nat)]> (providerHealth s) /\
  sessions s' = sessions s /\
  heap s' = heap s /\
  activeStreams s' = activeStreams s /\
  controllers s' = controllers s.
Proof.
  intros provider Had handler s'. unfold s', handler, after, completion.
  rewrite (complete_handler_ok config req s adapter response Had). repeat split.
Qed.

Lemma completion_success_witness :
  rp_body (reply (after (complete_handler example_config
                           (ParseSuccess example_completion_request)
                           (Ok example_final_response))
                    example_boot))
  = Some (body_completion (buildCompletionResponse example_final_response "anthropic" 2)).
Proof.
  destruct (completion_success example_config example_completion_request example_boot
              (AnthropicAdapter "sk-server") example_final_response eq_refl)
    as (_ & _ & Hbody & _).
  exact Hbody.
Defined.

(** A completion that fails, because no credentials are available or
    because the collaborator rejects the call.  The handler itself still
    completes normally: it answers as [handleError] does for the error,
    and records the provider as unhealthy.  Without credentials the
    collaborator is not called and the error is an [internal_error]
    answered with 500; otherwise it has been called once.  Sessions and
    streams are left alone. *)
Theorem completion_failure (config : Config) (req : CompletionRequest) (s : State)
    (outcome : Result NormalizedResponse) (e : Thrown) :
  let provider := default (cfg_defaultProvider config) (cr_provider req) in
  let credentials :=
    createAdapter (fallbackConfig s) provider (cr_apiKey req) (cr_providerConfig req) in
  credentials = Throw e \/ ((exists adapter, credentials = Ok adapter) /\ outcome = Throw e) ->
  let handler := complete_handler config (ParseSuccess req) outcome in
  let s' := after handler s in
  completion handler s = Ok tt /\
  reply s' = reply (after (handleError e) s) /\
  (exists t, providerHealth s' = <[provider := (false, t)]> (providerHealth s)) /\
  (credentials = Throw e ->
   history s' = history s /\
   rp_status (reply s') = Some 500 /\
   ei_code (parseError e) = "internal_error") /\
  ((exists adapter, credentials = Ok adapter) ->
   history s' = history s ++ [CalledComplete (buildNormalizedRequest req config)]) /\
  sessions s' = sessions s /\
  heap s' = heap s /\
  activeStreams s' = activeStreams s /\
  controllers s' = controllers s.
Proof.
  cbv zeta. intros Hfail. unfold after, completion.
  destruct Hfail as [Hcred | [[adapter Hcred] ->]].
  - rewrite (complete_handler_no_credentials config req s outcome e Hcred).
    split; [reflexivity | ]. split; [reflexivity | ].
    split; [eexists; reflexivity | ]. split; [ | split; [ | repeat split ]].
    + intros _. split; [reflexivity | ].
      destruct (createAdapter_error_has_no_code _ _ _ _ _ Hcred) as [message ->].
      split; reflexivity.
    + intros [adapter Had]. congruence.
  - rewrite (complete_handler_rejected config req s adapter e Hcred).
    split; [reflexivity | ]. split; [reflexivity | ].
    split; [eexists; reflexivity | ]. split; [ | split; [ | repeat split ]].
    + intros Hthrow. congruence.
    + intros _. reflexivity.
Qed.

Lemma completion_failure_witness :
  rp_status (reply (after (complete_handler keyless_config
                             (ParseSuccess example_completion_request)
                             (Ok example_final_response))
                      (boot keyless_config example_clock example_random)))
  = Some 500.
Proof.
  destruct (completion_failure keyless_config example_completion_request
              (boot keyless_config example_clock example_random)
              (Ok example_final_response)
              (ErrorObject
                 "No API key for Anthropic. Provide apiKey in request or configure ANTHROPIC_API_KEY."
                 None))
    as (_ & _ & _ & Hnone & _).
  - left. reflexivity.
  - destruct Hnone as (_ & Hstatus & _); [reflexivity | exact Hstatus].
Defined.

(* ===================================================================== *)
(** ** Fresh rounds that end without a response *)
(* ===================================================================== *)

Section FreshRound.
Variables (config : Config) (req : CompletionRequest) (run : StreamRun) (s : State).

Let provider := default (cfg_defaultProvider config) (cr_provider req).
Let credentials :=
  createAdapter (fallbackConfig s) provider (cr_apiKey req) (cr_providerConfig req).
Let handler := stream_handler config (ParseSuccess req) run.
Let s' := after handler s.

Lemma stream_round_no_credentials (e : Thrown) :
  credentials = Throw e ->
  completion handler s = Ok tt /\
  rp_events (reply s') = [ev_stream_start (next_stream_id s); error_event (parseError e)] /\
  history s' = history s ++ [Registered (next_stream_id s)] /\
  providerHealth s' = <[provider := (false, clock s (1 + ticks s)%nat)]> (providerHealth s) /\
  sessions s' = sessions s /\
  heap s' = heap s.
Proof.
  unfold credentials, provider, s', handler. intros Had. run_handler. simpl.
  rewrite Had. simpl. repeat split.
Qed.

Lemma stream_round_rejected (adapter : Adapter) (e : Thrown) :
  cr_continueFrom req = None ->
  credentials = Ok adapter ->
  sr_outcome run = Throw e ->
  completion handler s = Ok tt /\
  rp_events (reply s') =
    ev_stream_start (next_stream_id s)
    :: flat_map forwarded (sr_callbacks run) ++ [error_event (parseError e)] /\
  history s' =
    history s ++ [Registered (next_stream_id s);
                  CalledStream (buildNormalizedRequest req config)] /\
  providerHealth s' = <[provider := (false, clock s (2 + ticks s)%nat)]> (providerHealth s) /\
  sessions s' = sessions s /\
  heap s' = heap s.
Proof.
  unfold credentials, provider, s', handler. intros Hcf Had Hout. run_handler. simpl.
  rewrite Had. simpl. rewrite Hcf. rewrite fire_stream_callbacks. simpl. rewrite Hout. simpl.
  repeat split; rewrite <- ?app_assoc; reflexivity.
Qed.

Lemma stream_round_aborted (adapter : Adapter) (aborted : AbortedResponse) :
  cr_continueFrom req = None ->
  credentials = Ok adapter ->
  sr_outcome run = Ok (Aborted aborted) ->
  completion handler s = Ok tt /\
  rp_events (reply s') =
    ev_stream_start (next_stream_id s)
    :: flat_map forwarded (sr_callbacks run)
    ++ [ev_done (aborted_payload aborted (default (cfg_defaultModel config) (cr_model req))
                   provider (clock s (3 + ticks s)%nat - clock s (1 + ticks s)%nat) None)] /\
  history s' =
    history s ++ [Registered (next_stream_id s);
                  CalledStream (buildNormalizedRequest req config)] /\
  providerHealth s' = <[provider := (true, clock s (2 + ticks s)%nat)]> (providerHealth s) /\
  sessions s' = sessions s /\
  heap s' = heap s.
Proof.
  unfold credentials, provider, s', handler. intros Hcf Had Hout. run_handler. simpl.
  rewrite Had. simpl. rewrite Hcf. rewrite fire_stream_callbacks. simpl. rewrite Hout. simpl.
  repeat split; rewrite <- ?app_assoc; reflexivity.
Qed.

Lemma stream_round_continueFrom (adapter : Adapter) (cf : ContinueFrom) :
  cr_continueFrom req = Some cf ->
  credentials = Ok adapter ->
  rp_events (reply s') = [ev_stream_start (next_stream_id s); use_continue_endpoint].
Proof.
  unfold credentials, provider, s', handler. intros Hcf Had. run_handler. simpl.
  rewrite Had. simpl. rewrite Hcf. reflexivity.
Qed.
End FreshRound.

Section ContextRound.
Variables (config : Config) (req : ContextRequest) (run : ContextRun) (s : State).

Let provider := default (cfg_defaultProvider config) (xq_provider req).
Let credentials :=
  createAdapter (fallbackConfig s) provider (xq_apiKey req) (xq_providerConfig req).
Let s' := after (context_stream_handler config (ContextParseSuccess req) run) s.

Lemma context_round_no_credentials (e : Thrown) :
  credentials = Throw e ->
  rp_events (reply s') = [ev_stream_start (next_stream_id s); error_event (parseError e)].
Proof.
  unfold credentials, provider, s'. intros Had. run_handler. simpl.
  rewrite Had. reflexivity.
Qed.

Lemma context_round_rejected (adapter : Adapter) (e : Thrown) :
  credentials = Ok adapter ->
  xr_outcome run = Throw e ->
  rp_events (reply s') =
    ev_stream_start (next_stream_id s)
    :: flat_map forwarded_context (xr_callbacks run) ++ [error_event (parseError e)].
Proof.
  unfold credentials, provider, s'. intros Had Hout. run_handler. simpl.
  rewrite Had. simpl. rewrite fire_context_callbacks. simpl. rewrite Hout. simpl.
  rewrite <- ?app_assoc. reflexivity.
Qed.

Lemma context_round_aborted (adapter : Adapter) (aborted : AbortedResponse)
    (newState info : JsValue) :
  credentials = Ok adapter ->
  xr_outcome run = Ok (Aborted aborted, newState, info) ->
  rp_events (reply s') =
    ev_stream_start (next_stream_id s)
    :: flat_map forwarded_context (xr_callbacks run)
    ++ [ev_done (aborted_payload aborted (default (cfg_defaultModel config) (xq_model req))
                   provider (clock s (3 + ticks s)%nat - clock s (1 + ticks s)%nat)
                   (Some (newState, info)))].
Proof.
  unfold credentials, provider, s'. intros Had Hout. run_handler. simpl.
  rewrite Had. simpl. rewrite fire_context_callbacks. simpl. rewrite Hout. simpl.
  rewrite <- ?app_assoc. reflexivity.
Qed.
End ContextRound.

(** A fresh round that is aborted.  With credentials available and the
    collaborator returning an aborted response, the round forwards the
    events it received and ends with a [done] event that carries what was
    produced so far (empty content and text, no tool calls and zero usage
    where the response has none), the stop reason [end_turn] and no
    [requiresToolResults]; no [tool_calls] event is sent and no session is
    created, even if the aborted response lists tool calls.  The provider
    is recorded as healthy. *)
Theorem aborted_round_creates_no_session (config : Config) (req : CompletionRequest)
    (run : StreamRun) (s : State) (adapter : Adapter) (aborted : AbortedResponse) :
  let provider := default (cfg_defaultProvider config) (cr_provider req) in
  cr_continueFrom req = None ->
  createAdapter (fallbackConfig s) provider (cr_apiKey req) (cr_providerConfig req)
    = Ok adapter ->
  sr_outcome run = Ok (Aborted aborted) ->
  let s' := after (stream_handler config (ParseSuccess req) run) s in
  exists result : CompletionResponse,
    rp_events (reply s') =
      ev_stream_start (next_stream_id s)
      :: flat_map forwarded (sr_callbacks run) ++ [ev_done result] /\
    cres_content result = default [] (ab_partialContent aborted) /\
    cres_rawAssistantText result = default "" (ab_rawAssistantText aborted) /\
    cres_toolCalls result = default [] (ab_toolCalls aborted) /\
    cres_usage result = default (mkUsageInfo 0 0 None None) (ab_partialUsage aborted) /\
    cres_stopReason result = "end_turn" /\
    cres_requiresToolResults result = None /\
    Forall (fun event => is_tool_calls event = false) (rp_events (reply s')) /\
    sessions s' = sessions s /\
    heap s' = heap s /\
    (exists t, providerHealth s' !! provider = Some (true, t)).
Proof.
  intros provider Hcf Had Hout s'.
  destruct (stream_round_aborted config req run s adapter aborted Hcf Had Hout)
    as (_ & Hev & _ & Hhealth & Hsess & Hheap).
  fold s' in Hev, Hhealth, Hsess, Hheap. eexists. split; [exact Hev | ].
  repeat split; try assumption.
  - rewrite Hev. constructor; [reflexivity | ]. apply Forall_app. split.
    + eapply Forall_impl; [apply forwarded_plain | ]. intros event [H _]. exact H.
    + constructor; [reflexivity | constructor].
  - eexists. rewrite Hhealth. apply lookup_insert_eq.
Qed.

Lemma aborted_round_creates_no_session_witness :
  sr_outcome example_aborted_run = Ok (Aborted example_aborted) /\
  sessions (after (stream_handler example_config (ParseSuccess example_completion_request)
                     example_aborted_run) example_boot)
  = sessions example_boot.
Proof.
  split; [reflexivity | ].
  destruct (aborted_round_creates_no_session example_config example_completion_request
              example_aborted_run example_boot (AnthropicAdapter "sk-server")
              example_aborted eq_refl eq_refl eq_refl)
    as (result & _ & _ & _ & _ & _ & _ & _ & _ & Hsess & _).
  exact Hsess.
Defined.

(** A fresh round that fails, because no credentials are available or
    because the collaborator rejects the call.  The handler completes
    normally; the stream consists of [stream_start], the events forwarded
    before the failure, and one [error] event with the code, message and
    retry flag that [parseError] extracts; the provider is recorded as
    unhealthy and no session is created.  Without credentials nothing is
    forwarded, the collaborator is not called, and the code is
    [internal_error]. *)
Theorem failed_round_reports_error (config : Config) (req : CompletionRequest)
    (run : StreamRun) (s : State) (e : Thrown) :
  let provider := default (cfg_defaultProvider config) (cr_provider req) in
  let credentials :=
    createAdapter (fallbackConfig s) provider (cr_apiKey req) (cr_providerConfig req) in
  credentials = Throw e \/
  ((exists adapter, credentials = Ok adapter) /\
   cr_continueFrom req = None /\ sr_outcome run = Throw e) ->
  let handler := stream_handler config (ParseSuccess req) run in
  let s' := after handler s in
  completion handler s = Ok tt /\
  (exists forwarded_events,
     rp_events (reply s') =
       ev_stream_start (next_stream_id s)
       :: forwarded_events
       ++ [ev_error (ei_code (parseError e)) (ei_message (parseError e))
             (ei_retryable (parseError e))] /\
     (credentials = Throw e -> forwarded_events = []) /\
     ((exists adapter, credentials = Ok adapter) ->
      forwarded_events = flat_map forwarded (sr_callbacks run))) /\
  (credentials = Throw e ->
   ei_code (parseError e) = "internal_error" /\
   history s' = history s ++ [Registered (next_stream_id s)]) /\
  (exists t, providerHealth s' !! provider = Some (false, t)) /\
  sessions s' = sessions s /\
  heap s' = heap s.
Proof.
  cbv zeta. intros [Hcred | [[adapter Hcred] [Hcf Hout]]].
  - destruct (stream_round_no_credentials config req run s e Hcred)
      as (Hok & Hev & Hhist & Hhealth & Hsess & Hheap).
    split; [exact Hok | ]. split; [ | split; [ | split; [ | split; assumption ]]].
    + exists []. split; [exact Hev | ]. split; [reflexivity | ].
      intros [adapter Had]. congruence.
    + intros _. split; [ | exact Hhist ].
      destruct (createAdapter_error_has_no_code _ _ _ _ _ Hcred) as [message ->].
      reflexivity.
    + eexists. rewrite Hhealth. apply lookup_insert_eq.
  - destruct (stream_round_rejected config req run s adapter e Hcf Hcred Hout)
      as (Hok & Hev & Hhist & Hhealth & Hsess & Hheap).
    split; [exact Hok | ]. split; [ | split; [ | split; [ | split; assumption ]]].
    + eexists. split; [exact Hev | ]. split; [ | reflexivity ].
      intros Hthrow. congruence.
    + intros Hthrow. congruence.
    + eexists. rewrite Hhealth. apply lookup_insert_eq.
Qed.

Lemma failed_round_reports_error_witness :
  sr_outcome example_failing_run = Throw (ErrorObject "Overloaded" (Some (JStr "overloaded"))) /\
  rp_events (reply (after (stream_handler example_config
                             (ParseSuccess example_completion_request) example_failing_run)
                      example_boot))
  = [ev_stream_start "str_rs_k3x9q2ab"; ev_error "overloaded" "Overloaded" true].
Proof.
  split; [reflexivity | ].
  destruct (failed_round_reports_error example_config example_completion_request
              example_failing_run example_boot
              (ErrorObject "Overloaded" (Some (JStr "overloaded"))))
    as (_ & (forwarded_events & Hev & _ & Hforwarded) & _).
  - right. split; [eexists; reflexivity | split; reflexivity].
  - rewrite Hev, Hforwarded by (eexists; reflexivity). reflexivity.
Defined.

(* ===================================================================== *)
(** ** The event protocol *)
(* ===================================================================== *)

Lemma forwarded_inner (callbacks : list Callback) :
  Forall inner_event (flat_map forwarded callbacks).
Proof.
  induction callbacks as [ | cb rest IH]; simpl; [constructor | ].
  apply Forall_app. split; [ | exact IH ].
  destruct cb; simpl; try (constructor; [repeat split | constructor]).
  unfold block_events.
  repeat match goal with |- context [if ?b then _ else _] => destruct b end;
    repeat constructor.
Qed.

Lemma forwarded_context_inner (callbacks : list Callback) :
  Forall inner_event (flat_map forwarded_context callbacks).
Proof.
  induction callbacks as [ | cb rest IH]; simpl; [constructor | ].
  apply Forall_app. split; [ | exact IH ].
  destruct cb; simpl; repeat constructor.
Qed.

Lemma stream_protocol_intro (streamId : string) (middle : list StreamEvent)
    (terminal : StreamEvent) :
  Forall inner_event middle ->
  is_done terminal = true \/ is_error terminal = true ->
  stream_protocol streamId (ev_stream_start streamId :: middle ++ [terminal]).
Proof. intros Hm Ht. exists middle, terminal. repeat split; assumption. Qed.

Lemma stream_protocol_tools (streamId : string) (middle : list StreamEvent)
    (calls : list ToolCall) (sessionId : string) (result : CompletionResponse) :
  Forall inner_event middle ->
  stream_protocol streamId
    (ev_stream_start streamId :: middle ++ [ev_tool_calls calls sessionId; ev_done result]).
Proof.
  intros Hm. exists (middle ++ [ev_tool_calls calls sessionId]), (ev_done result).
  split; [rewrite <- app_assoc; reflexivity | ].
  split; [ | left; reflexivity ].
  apply Forall_app. split; [exact Hm | repeat constructor].
Qed.

(** Every fresh-stream round and every context-stream round whose body
    was accepted produces a well-formed event stream, whatever the
    collaborator does and whether or not credentials are available: it
    starts with [stream_start] carrying the generated identifier, ends
    with exactly one terminal event, [done] or [error], and has neither
    of these three kinds in between. *)
Theorem fresh_rounds_follow_protocol (config : Config) (s : State) :
  (forall (req : CompletionRequest) (run : StreamRun),
     stream_protocol (next_stream_id s)
       (rp_events (reply (after (stream_handler config (ParseSuccess req) run) s)))) /\
  (forall (req : ContextRequest) (run : ContextRun),
     stream_protocol (next_stream_id s)
       (rp_events
          (reply (after (context_stream_handler config (ContextParseSuccess req) run) s)))).
Proof.
  split.
  - intros req run.
    destruct (createAdapter (fallbackConfig s)
                (default (cfg_defaultProvider config) (cr_provider req))
                (cr_apiKey req) (cr_providerConfig req)) as [adapter | e] eqn:Had.
    2:{ destruct (stream_round_no_credentials config req run s e Had) as (_ & -> & _).
        apply (stream_protocol_intro _ []); [constructor | right; reflexivity]. }
    destruct (cr_continueFrom req) as [cf | ] eqn:Hcf.
    { rewrite (stream_round_continueFrom config req run s adapter cf Hcf Had).
      apply (stream_protocol_intro _ []); [constructor | right; reflexivity]. }
    destruct (sr_outcome run) as [[response | aborted] | e] eqn:Hout.
    + destruct (wants_tools response) eqn:Hw.
      * destruct (stream_round_with_tools config s req run adapter response Hcf Had Hout Hw)
          as (-> & _).
        apply stream_protocol_tools. apply forwarded_inner.
      * destruct (stream_round_without_tools config s req run adapter response Hcf Had Hout Hw)
          as (-> & _).
        apply stream_protocol_intro; [apply forwarded_inner | left; reflexivity].
    + destruct (stream_round_aborted config req run s adapter aborted Hcf Had Hout)
        as (_ & -> & _).
      apply stream_protocol_intro; [apply forwarded_inner | left; reflexivity].
    + destruct (stream_round_rejected config req run s adapter e Hcf Had Hout)
        as (_ & -> & _).
      apply stream_protocol_intro; [apply forwarded_inner | right; reflexivity].
  - intros req run.
    destruct (createAdapter (fallbackConfig s)
                (default (cfg_defaultProvider config) (xq_provider req))
                (xq_apiKey req) (xq_providerConfig req)) as [adapter | e] eqn:Had.
    2:{ rewrite (context_round_no_credentials config req run s e Had).
        apply (stream_protocol_intro _ []); [constructor | right; reflexivity]. }
    destruct (xr_outcome run) as [[[[response | aborted] newState] info] | e] eqn:Hout.
    + destruct (context_round config s req run adapter response newState info Had Hout)
        as (-> & _).
      apply stream_protocol_intro; [apply forwarded_context_inner | left; reflexivity].
    + rewrite (context_round_aborted config req run s adapter aborted newState info Had Hout).
      apply stream_protocol_intro; [apply forwarded_context_inner | left; reflexivity].
    + rewrite (context_round_rejected config req run s adapter e Had Hout).
      apply stream_protocol_intro; [apply forwarded_context_inner | right; reflexivity].
Qed.

(* ===================================================================== *)
(** ** Continuation rounds that end without a response *)
(* ===================================================================== *)

Section ContinueFailures.
Variables (s : State) (sessionId : string) (l : nat) (stored : SessionState).
Variables (items : list JsValue) (run : StreamRun).

Hypothesis Hl : heap s !! l = Some stored.

Let credentials :=
  createAdapter (fallbackConfig s) (ss_provider stored) (ss_apiKey stored)
    (ss_providerConfig stored).

Lemma continue_invoke_no_credentials (e : Thrown) :
  credentials = Throw e ->
  continue_invoke sessionId l items run s = (Throw e, s).
Proof.
  unfold credentials. intros Had. unfold continue_invoke. run_handler. unfold deref. simpl.
  rewrite Hl. simpl. rewrite Had. reflexivity.
Qed.

Lemma continue_invoke_bad_items (adapter : Adapter) (e : Thrown) :
  credentials = Ok adapter ->
  map_toolResults items = Throw e ->
  continue_invoke sessionId l items run s = (Throw e, s).
Proof.
  unfold credentials. intros Had Hitems. unfold continue_invoke. run_handler. unfold deref.
  simpl. rewrite Hl. simpl. rewrite Had. simpl. rewrite Hitems. reflexivity.
Qed.

Lemma continue_invoke_rejected (adapter : Adapter) (toolResults : list ToolResult)
    (e : Thrown) :
  credentials = Ok adapter ->
  map_toolResults items = Ok toolResults ->
  sr_outcome run = Throw e ->
  continue_invoke sessionId l items run s = (Throw e, invoked s l stored toolResults run).
Proof.
  unfold credentials. intros Had Hitems Hout. unfold continue_invoke, invoked. run_handler.
  unfold deref. simpl. rewrite Hl. simpl. rewrite Had. simpl. rewrite Hitems. simpl.
  rewrite list_lookup_alter_eq, Hl. simpl.
  rewrite fire_continue_callbacks. simpl. rewrite Hout. reflexivity.
Qed.

Lemma continue_settle_aborted (startMs : Z) (aborted : AbortedResponse) :
  let settled := continue_settle sessionId l startMs (Aborted aborted) s in
  settled.1 = Ok tt /\
  rp_events (reply settled.2) =
    rp_events (reply s)
    ++ [ev_done (aborted_payload aborted (gc_model (nr_config (ss_request stored)))
                   (ss_provider stored) (clock s (1 + ticks s)%nat - startMs) None)] /\
  sessions settled.2 = delete sessionId (sessions s) /\
  heap settled.2 = heap s /\
  providerHealth settled.2
    = <[ss_provider stored := (true, clock s (ticks s))]> (providerHealth s).
Proof.
  cbv zeta. unfold continue_settle. run_handler. unfold deref. simpl. rewrite Hl. simpl.
  rewrite Hl. simpl. repeat split.
Qed.
End ContinueFailures.

(** A continuation round whose [try] block throws: the [catch] block
    records the provider as unhealthy and sends the [error] event, the
    [finally] block closes the stream. *)
Lemma continue_round_caught (sessionId : string) (l : nat) (items : list JsValue)
    (run : StreamRun) (s s2 : State) (e : Thrown) (x : SessionState) :
  continue_invoke sessionId l items run (started s) = (Throw e, s2) ->
  heap s2 !! l = Some x ->
  continue_round sessionId l items run s =
    (Ok tt,
     closed (next_stream_id s)
       (emit [error_event (parseError e)]
          (set_providerHealth (insert (ss_provider x) (false, clock s2 (ticks s2)))
             (set_ticks S s2)))).
Proof.
  intros H Hx. unfold continue_round.
  unfold bind at 1. unfold generateStreamId at 1.
  unfold bind at 1. unfold Date_now at 1. unfold bind at 1. unfold Math_random_suffix at 1.
  unfold ret at 1. fold (next_stream_id s).
  unfold bind at 1. rewrite register_eq.
  unfold bind at 1. unfold writeHead at 1. unfold modify at 1.
  unfold bind at 1. unfold sendEvent at 1. unfold modify at 1.
  unfold try_catch_finally.
  match goal with
  | |- context [continue_invoke sessionId l items run ?E] => change E with (started s)
  end.
  rewrite H. unfold bind, deref. rewrite Hx. reflexivity.
Qed.

Section ContinueEnds.
Variables (s : State) (sessionId : string) (l : nat) (stored : SessionState).
Variables (items : list JsValue) (run : StreamRun).

Hypothesis Hne : sessionId <> "".
Hypothesis Hid : sessions s !! sessionId = Some l.
Hypothesis Hl : heap s !! l = Some stored.
Hypothesis Hlive : clock s (ticks s) <= ss_expiresAt stored.

Let credentials :=
  createAdapter (fallbackConfig s) (ss_provider stored) (ss_apiKey stored)
    (ss_providerConfig stored).
Let body := {| body_sessionId := JStr sessionId; body_toolResults := JArr items |}.
Let s0 := set_ticks S (set_reply (fun _ => fresh_reply) s).
Let streamId := next_stream_id (set_ticks S s).

Local Lemma enters : serve (continue_handler body run) s = continue_round sessionId l items run s0.
Proof.
  unfold serve, body, s0.
  apply (continue_handler_enters (set_reply (fun _ => fresh_reply) s) sessionId l stored
           items run Hne Hid Hl Hlive).
Qed.

Local Lemma started_l : heap (started s0) !! l = Some stored.
Proof. exact Hl. Qed.

(** The round fails before the invocation: no credentials, or an element
    of [toolResults] that cannot be read. *)
Lemma continuation_fails_early (e : Thrown) :
  continue_invoke sessionId l items run (started s0) = (Throw e, started s0) ->
  serve (continue_handler body run) s =
    (Ok tt,
     closed streamId
       (emit [error_event (parseError e)]
          (set_providerHealth (insert (ss_provider stored) (false, clock s (2 + ticks s)%nat))
             (set_ticks S (started s0))))).
Proof.
  intros H. rewrite enters.
  rewrite (continue_round_caught sessionId l items run s0 (started s0) e stored H started_l).
  reflexivity.
Qed.

Lemma continuation_rejected (adapter : Adapter) (toolResults : list ToolResult) (e : Thrown) :
  credentials = Ok adapter ->
  map_toolResults items = Ok toolResults ->
  sr_outcome run = Throw e ->
  serve (continue_handler body run) s =
    (Ok tt,
     closed streamId
       (emit [error_event (parseError e)]
          (set_providerHealth (insert (ss_provider stored) (false, clock s (3 + ticks s)%nat))
             (set_ticks S (invoked (started s0) l stored toolResults run))))).
Proof.
  intros Had Hitems Hout. rewrite enters.
  assert (Hinv : continue_invoke sessionId l items run (started s0)
                 = (Throw e, invoked (started s0) l stored toolResults run)).
  { apply (continue_invoke_rejected (started s0) sessionId l stored items run started_l
             adapter toolResults e); assumption. }
  assert (Hx : heap (invoked (started s0) l stored toolResults run) !! l
               = Some (push_executedToolResults toolResults stored)).
  { unfold invoked, emit. simpl. rewrite list_lookup_alter_eq, Hl. reflexivity. }
  rewrite (continue_round_caught sessionId l items run s0 _ e _ Hinv Hx).
  reflexivity.
Qed.

Lemma continuation_aborted (adapter : Adapter) (toolResults : list ToolResult)
    (aborted : AbortedResponse) :
  credentials = Ok adapter ->
  map_toolResults items = Ok toolResults ->
  sr_outcome run = Ok (Aborted aborted) ->
  let s' := after (continue_handler body run) s in
  rp_events (reply s') =
    ev_stream_start streamId
    :: flat_map forwarded (sr_callbacks run)
    ++ [ev_done (aborted_payload aborted (gc_model (nr_config (ss_request stored)))
                   (ss_provider stored)
                   (clock s (4 + ticks s)%nat - clock s (2 + ticks s)%nat) None)] /\
  sessions s' = delete sessionId (sessions s) /\
  heap s' !! l = Some (push_executedToolResults toolResults stored) /\
  length (heap s') = length (heap s).
Proof.
  intros Had Hitems Hout. cbv zeta. unfold after. rewrite enters.
  assert (Hinv : continue_invoke sessionId l items run (started s0)
                 = continue_settle sessionId l (clock s (2 + ticks s)%nat) (Aborted aborted)
                     (invoked (started s0) l stored toolResults run)).
  { apply (continue_invoke_settles (started s0) sessionId l stored items toolResults run
             adapter (Aborted aborted)); assumption. }
  assert (Hx : heap (invoked (started s0) l stored toolResults run) !! l
               = Some (push_executedToolResults toolResults stored)).
  { unfold invoked, emit. simpl. rewrite list_lookup_alter_eq, Hl. reflexivity. }
  destruct (continue_settle_aborted (invoked (started s0) l stored toolResults run)
              sessionId l (push_executedToolResults toolResults stored) Hx
              (clock s (2 + ticks s)%nat) aborted)
    as (Hok & Hev & Hsess & Hheap & _).
  rewrite <- Hinv in Hok, Hev, Hsess, Hheap.
  destruct (continue_invoke sessionId l items run (started s0)) as [r2 s2] eqn:Hrun.
  simpl in Hok, Hev, Hsess, Hheap. subst r2.
  rewrite (continue_round_ok _ _ _ _ _ _ Hrun). unfold closed. simpl.
  rewrite Hev, Hsess, Hheap. unfold invoked, started, emit. simpl.
  rewrite <- ?app_assoc. rewrite ?length_alter, ?list_lookup_alter_eq, ?Hl. simpl.
  repeat split.
Qed.
End ContinueEnds.

Lemma map_toolResults_throws (items : list JsValue) (e : Thrown) :
  map_toolResults items = Throw e -> exists message, e = ErrorObject message None.
Proof.
  induction items as [ | r rest IH]; simpl; [discriminate | ].
  destruct (to_toolResult_cases r) as [(_ & message & ->) | (_ & _ & a & b & c & _ & _ & _ & ->)].
  - intros H. injection H as <-. exists message. reflexivity.
  - destruct (map_toolResults rest) as [ts | e']; [discriminate | ].
    intros H. injection H as <-. apply IH. reflexivity.
Qed.

Lemma continue_handler_unknown (s : State) (sessionId : string) (items : list JsValue)
    (run : StreamRun) :
  sessionId <> "" ->
  sessions s !! sessionId = None ->
  serve (continue_handler {| body_sessionId := JStr sessionId; body_toolResults := JArr items |}
           run) s
  = (Ok tt,
     set_reply
       (fun _ => mkReply (Some 404)
                   (Some (body_error "session_not_found" "Session not found or expired" false
                            JUndefined))
                   None [] false) s).
Proof.
  intros Hne Hnone. unfold serve, continue_handler. simpl.
  destruct (String.eqb_spec sessionId "") as [He | _]; [contradiction | ]. simpl.
  unfold bind at 1.
  rewrite (getSession_absent (set_reply (fun _ => fresh_reply) s) sessionId Hnone).
  reflexivity.
Qed.

(** A continuation round that is aborted.  The stream ends with a [done]
    event for the partial result, labelled with the model and provider of
    the stored request, and the session is deleted: the conversation
    cannot be continued after an abort, and a further continuation request
    for it is answered 404. *)
Theorem aborted_continuation_drops_session (s : State) (sessionId : string) (l : nat)
    (stored : SessionState) (items : list JsValue) (toolResults : list ToolResult)
    (run : StreamRun) (adapter : Adapter) (aborted : AbortedResponse) :
  sessionId <> "" ->
  sessions s !! sessionId = Some l ->
  heap s !! l = Some stored ->
  clock s (ticks s) <= ss_expiresAt stored ->
  createAdapter (fallbackConfig s) (ss_provider stored) (ss_apiKey stored)
    (ss_providerConfig stored) = Ok adapter ->
  map_toolResults items = Ok toolResults ->
  sr_outcome run = Ok (Aborted aborted) ->
  let body := {| body_sessionId := JStr sessionId; body_toolResults := JArr items |} in
  let s' := after (continue_handler body run) s in
  (exists result : CompletionResponse,
     rp_events (reply s') =
       ev_stream_start (next_stream_id (set_ticks S s))
       :: flat_map forwarded (sr_callbacks run) ++ [ev_done result] /\
     cres_model result = gc_model (nr_config (ss_request stored)) /\
     cres_provider result = ss_provider stored /\
     cres_stopReason result = "end_turn" /\
     cres_requiresToolResults result = None) /\
  sessions s' = delete sessionId (sessions s) /\
  (forall (items' : list JsValue) (run' : StreamRun),
     rp_status
       (reply (after (continue_handler
                        {| body_sessionId := JStr sessionId; body_toolResults := JArr items' |}
                        run') s'))
     = Some 404).
Proof.
  intros Hne Hid Hl Hlive Had Hitems Hout body s'.
  destruct (continuation_aborted s sessionId l stored items run Hne Hid Hl Hlive adapter
              toolResults aborted Had Hitems Hout) as (Hev & Hsess & _).
  fold body in Hev, Hsess. fold s' in Hev, Hsess.
  split; [eexists; split; [exact Hev | repeat split] | ].
  split; [exact Hsess | ].
  intros items' run'. unfold after at 1.
  rewrite (continue_handler_unknown s' sessionId items' run' Hne);
    [reflexivity | rewrite Hsess; apply lookup_delete_eq].
Qed.

Lemma aborted_continuation_drops_session_witness :
  sessions example_suspended !! "sess_rs_k3x9q2ab" = Some 0%nat /\
  sessions (after (continue_handler example_continue_body example_aborted_run)
              example_suspended) !! "sess_rs_k3x9q2ab" = None.
Proof.
  split; [reflexivity | ].
  destruct (aborted_continuation_drops_session example_suspended "sess_rs_k3x9q2ab" 0
              example_session example_items example_toolResults example_aborted_run
              (AnthropicAdapter "sk-server") example_aborted)
    as (_ & Hsess & _).
  - discriminate.
  - reflexivity.
  - reflexivity.
  - vm_compute. discriminate.
  - reflexivity.
  - reflexivity.
  - reflexivity.
  - fold example_continue_body in Hsess. rewrite Hsess. apply lookup_delete_eq.
Defined.

(** A continuation round whose invocation fails.  The stream ends with
    the [error] event and the provider is recorded as unhealthy, but the
    session stays in the store, so the request can be repeated; its
    record is the stored one with the tool results of the failed request
    already appended, and with the expiration it had. *)
Theorem failed_continuation_keeps_session (s : State) (sessionId : string) (l : nat)
    (stored : SessionState) (items : list JsValue) (toolResults : list ToolResult)
    (run : StreamRun) (adapter : Adapter) (e : Thrown) :
  sessionId <> "" ->
  sessions s !! sessionId = Some l ->
  heap s !! l = Some stored ->
  clock s (ticks s) <= ss_expiresAt stored ->
  createAdapter (fallbackConfig s) (ss_provider stored) (ss_apiKey stored)
    (ss_providerConfig stored) = Ok adapter ->
  map_toolResults items = Ok toolResults ->
  sr_outcome run = Throw e ->
  let body := {| body_sessionId := JStr sessionId; body_toolResults := JArr items |} in
  let s' := after (continue_handler body run) s in
  let streamId := next_stream_id (set_ticks S s) in
  completion (continue_handler body run) s = Ok tt /\
  rp_events (reply s') =
    ev_stream_start streamId
    :: flat_map forwarded (sr_callbacks run) ++ [error_event (parseError e)] /\
  sessions s' = sessions s /\
  heap s' !! l = Some (push_executedToolResults toolResults stored) /\
  history s' =
    history s
    ++ [Registered streamId;
        CalledStream (continuedRequest (push_executedToolResults toolResults stored)
                        toolResults)] /\
  providerHealth s' !! ss_provider stored = Some (false, clock s (3 + ticks s)%nat) /\
  activeStreams s' = delete streamId (activeStreams s).
Proof.
  intros Hne Hid Hl Hlive Had Hitems Hout. cbv zeta. unfold after, completion.
  rewrite (continuation_rejected s sessionId l stored items run Hne Hid Hl Hlive adapter
             toolResults e Had Hitems Hout).
  unfold closed, invoked, started, emit. simpl.
  split; [reflexivity | ]. split; [rewrite <- ?app_assoc; reflexivity | ].
  split; [reflexivity | ].
  split; [rewrite list_lookup_alter_eq, Hl; reflexivity | ].
  split; [rewrite <- ?app_assoc; reflexivity | ].
  split; [apply lookup_insert_eq | ].
  rewrite ?register_eq; simpl; apply delete_insert_eq.
Qed.

Lemma failed_continuation_keeps_session_witness :
  sr_outcome example_failing_run = Throw (ErrorObject "Overloaded" (Some (JStr "overloaded"))) /\
  sessions (after (continue_handler example_continue_body example_failing_run)
              example_suspended)
  = sessions example_suspended /\
  heap (after (continue_handler example_continue_body example_failing_run) example_suspended)
    !! 0%nat
  = Some (push_executedToolResults example_toolResults example_session).
Proof.
  split; [reflexivity | ].
  destruct (failed_continuation_keeps_session example_suspended "sess_rs_k3x9q2ab" 0
              example_session example_items example_toolResults example_failing_run
              (AnthropicAdapter "sk-server")
              (ErrorObject "Overloaded" (Some (JStr "overloaded"))))
    as (_ & _ & Hsess & Hheap & _).
  - discriminate.
  - reflexivity.
  - reflexivity.
  - vm_compute. discriminate.
  - reflexivity.
  - reflexivity.
  - reflexivity.
  - split; [exact Hsess | exact Hheap].
Defined.

(** A continuation round that fails before the invocation, because the
    stored credentials yield no adapter or because an element of
    [toolResults] is [null] or [undefined].  The stream is opened and
    closed around a single [error] event with code [internal_error]; the
    collaborator is not called, and the session and its record are as
    they were (no tool result has been appended). *)
Theorem unreadable_continuation_fails_inside_stream (s : State) (sessionId : string) (l : nat)
    (stored : SessionState) (items : list JsValue) (run : StreamRun) (e : Thrown) :
  let credentials :=
    createAdapter (fallbackConfig s) (ss_provider stored) (ss_apiKey stored)
      (ss_providerConfig stored) in
  sessionId <> "" ->
  sessions s !! sessionId = Some l ->
  heap s !! l = Some stored ->
  clock s (ticks s) <= ss_expiresAt stored ->
  credentials = Throw e \/
  ((exists adapter, credentials = Ok adapter) /\ map_toolResults items = Throw e) ->
  let body := {| body_sessionId := JStr sessionId; body_toolResults := JArr items |} in
  let s' := after (continue_handler body run) s in
  let streamId := next_stream_id (set_ticks S s) in
  completion (continue_handler body run) s = Ok tt /\
  (exists message,
     e = ErrorObject message None /\
     rp_events (reply s') = [ev_stream_start streamId; ev_error "internal_error" message false]) /\
  rp_ended (reply s') = true /\
  history s' = history s ++ [Registered streamId] /\
  sessions s' = sessions s /\
  heap s' = heap s /\
  activeStreams s' = delete streamId (activeStreams s).
Proof.
  cbv zeta. intros Hne Hid Hl Hlive Hfail. unfold after, completion.
  set (s0 := set_ticks S (set_reply (fun _ => fresh_reply) s)).
  assert (Hrun : continue_invoke sessionId l items run (started s0) = (Throw e, started s0)).
  { destruct Hfail as [Hcred | [[adapter Hcred] Hitems]].
    - apply (continue_invoke_no_credentials (started s0) sessionId l stored items run Hl e).
      exact Hcred.
    - apply (continue_invoke_bad_items (started s0) sessionId l stored items run Hl adapter e);
        assumption. }
  assert (Hcode : exists message, e = ErrorObject message None).
  { destruct Hfail as [Hcred | [_ Hitems]].
    - exact (createAdapter_error_has_no_code _ _ _ _ _ Hcred).
    - exact (map_toolResults_throws _ _ Hitems). }
  rewrite (continuation_fails_early s sessionId l stored items run Hne Hid Hl Hlive e Hrun).
  unfold closed, started, emit. simpl.
  split; [reflexivity | ]. split.
  { destruct Hcode as [message ->]. exists message. split; reflexivity. }
  split; [reflexivity | ]. split; [reflexivity | ]. split; [reflexivity | ].
  split; [reflexivity | ].
  rewrite ?register_eq; simpl; apply delete_insert_eq.
Qed.

Lemma unreadable_continuation_fails_inside_stream_witness :
  map_toolResults [JNull]
    = Throw (ErrorObject "Cannot read properties of null (reading 'toolUseId')" None) /\
  rp_events
    (reply (after (continue_handler
                     {| body_sessionId := JStr "sess_rs_k3x9q2ab";
                        body_toolResults := JArr [JNull] |}
                     (run_of example_final_response))
              example_suspended))
  = [ev_stream_start "str_rv_k3x9q2ab";
     ev_error "internal_error" "Cannot read properties of null (reading 'toolUseId')" false].
Proof.
  split; [reflexivity | ].
  destruct (unreadable_continuation_fails_inside_stream example_suspended "sess_rs_k3x9q2ab" 0
              example_session [JNull] (run_of example_final_response)
              (ErrorObject "Cannot read properties of null (reading 'toolUseId')" None))
    as (_ & (message & Hmessage & Hev) & _).
  - discriminate.
  - reflexivity.
  - reflexivity.
  - vm_compute. discriminate.
  - right. split; [eexists; reflexivity | reflexivity].
  - injection Hmessage as <-. exact Hev.
Defined.

(** Every continuation round on a live session produces a well-formed
    event stream, whatever the stored credentials, the tool results and
    the collaborator are like: [stream_start] with the generated
    identifier, then neither [stream_start] nor a terminal event until the
    one [done] or [error] event that ends it. *)
Theorem continuation_round_follows_protocol (s : State) (sessionId : string) (l : nat)
    (stored : SessionState) (items : list JsValue) (run : StreamRun) :
  sessionId <> "" ->
  sessions s !! sessionId = Some l ->
  heap s !! l = Some stored ->
  clock s (ticks s) <= ss_expiresAt stored ->
  let body := {| body_sessionId := JStr sessionId; body_toolResults := JArr items |} in
  stream_protocol (next_stream_id (set_ticks S s))
    (rp_events (reply (after (continue_handler body run) s))).
Proof.
  intros Hne Hid Hl Hlive body. unfold body.
  set (s0 := set_ticks S (set_reply (fun _ => fresh_reply) s)).
  destruct (createAdapter (fallbackConfig s) (ss_provider stored) (ss_apiKey stored)
              (ss_providerConfig stored)) as [adapter | e] eqn:Had.
  2:{ unfold after.
      rewrite (continuation_fails_early s sessionId l stored items run Hne Hid Hl Hlive e).
      - apply (stream_protocol_intro _ []); [constructor | right; reflexivity].
      - apply (continue_invoke_no_credentials (started s0) sessionId l stored items run Hl e).
        exact Had. }
  destruct (map_toolResults items) as [toolResults | e] eqn:Hitems.
  2:{ unfold after.
      rewrite (continuation_fails_early s sessionId l stored items run Hne Hid Hl Hlive e).
      - apply (stream_protocol_intro _ []); [constructor | right; reflexivity].
      - apply (continue_invoke_bad_items (started s0) sessionId l stored items run Hl
                 adapter e); assumption. }
  destruct (sr_outcome run) as [[response | aborted] | e] eqn:Hout.
  - unfold after, serve.
    rewrite (continue_handler_enters (set_reply (fun _ => fresh_reply) s) sessionId l stored
               items run Hne Hid Hl Hlive).
    fold s0. destruct (wants_tools response) eqn:Hw.
    + destruct (Z.le_gt_cases (clock s0 (3 + ticks s0)%nat) (ss_expiresAt stored))
        as [Hstill | Hlate].
      * destruct (continue_round_merges s0 sessionId l stored items toolResults run adapter
                    response Hid Hl Had Hitems Hout Hw Hstill) as (Hev & _).
        destruct (continue_round sessionId l items run s0) as [r2 s2].
        simpl in Hev. simpl. rewrite Hev. apply stream_protocol_tools. apply forwarded_inner.
      * destruct (continue_round_too_late s0 sessionId l stored items toolResults run adapter
                    response Hid Hl Had Hitems Hout Hw Hlate) as (Hev & _).
        destruct (continue_round sessionId l items run s0) as [r2 s2].
        simpl in Hev. simpl. rewrite Hev. apply stream_protocol_tools. apply forwarded_inner.
    + destruct (continue_round_finishes s0 sessionId l stored items toolResults run adapter
                  response Hl Had Hitems Hout Hw) as (Hev & _).
      destruct (continue_round sessionId l items run s0) as [r2 s2].
      simpl in Hev. simpl. rewrite Hev.
      apply stream_protocol_intro; [apply forwarded_inner | left; reflexivity].
  - destruct (continuation_aborted s sessionId l stored items run Hne Hid Hl Hlive adapter
                toolResults aborted Had Hitems Hout) as (-> & _).
    apply stream_protocol_intro; [apply forwarded_inner | left; reflexivity].
  - unfold after.
    rewrite (continuation_rejected s sessionId l stored items run Hne Hid Hl Hlive adapter
               toolResults e Had Hitems Hout).
    unfold closed, invoked, started, emit. simpl. rewrite <- ?app_assoc. simpl.
    apply stream_protocol_intro; [apply forwarded_inner | right; reflexivity].
Qed.

Lemma continuation_round_follows_protocol_witness :
  sessions example_suspended !! "sess_rs_k3x9q2ab" = Some 0%nat /\
  stream_protocol "str_rv_k3x9q2ab"
    (rp_events (reply (after (continue_handler example_continue_body
                                (run_of example_tool_response))
                         example_suspended))).
Proof.
  split; [reflexivity | ].
  apply (continuation_round_follows_protocol example_suspended "sess_rs_k3x9q2ab" 0
           example_session example_items (run_of example_tool_response)).
  - discriminate.
  - reflexivity.
  - reflexivity.
  - vm_compute. discriminate.
Defined.

(* ===================================================================== *)
(** ** Deleting sessions, and what the monitoring endpoints see *)
(* ===================================================================== *)

(** DELETE on a session always answers 204 with an empty body, whether
    or not the session exists, and removes the entry without touching
    streams, records or the history.  A continuation request for the
    deleted session is then answered 404 [session_not_found], before any
    stream is registered. *)
Theorem deleted_session_cannot_continue (s : State) (sessionId : string)
    (items : list JsValue) (run : StreamRun) :
  sessionId <> "" ->
  let s1 := after (delete_session_handler sessionId) s in
  let body := {| body_sessionId := JStr sessionId; body_toolResults := JArr items |} in
  let s2 := after (continue_handler body run) s1 in
  completion (delete_session_handler sessionId) s = Ok tt /\
  rp_status (reply s1) = Some 204 /\
  rp_body (reply s1) = Some body_empty /\
  sessions s1 = delete sessionId (sessions s) /\
  heap s1 = heap s /\
  activeStreams s1 = activeStreams s /\
  history s1 = history s /\
  rp_status (reply s2) = Some 404 /\
  rp_body (reply s2)
    = Some (body_error "session_not_found" "Session not found or expired" false JUndefined) /\
  history s2 = history s /\
  activeStreams s2 = activeStreams s.
Proof.
  intros Hne. cbv zeta.
  assert (Hdel : serve (delete_session_handler sessionId) s
                 = (Ok tt,
                    set_reply (fun _ => mkReply (Some 204) (Some body_empty) None [] false)
                      (set_sessions (delete sessionId) s))) by reflexivity.
  unfold after, completion. rewrite Hdel. cbn [fst snd].
  rewrite (continue_handler_unknown _ sessionId items run Hne)
    by (simpl; apply lookup_delete_eq).
  repeat split.
Qed.

Lemma deleted_session_cannot_continue_witness :
  sessions example_suspended !! "sess_rs_k3x9q2ab" = Some 0%nat /\
  rp_status
    (reply (after (continue_handler example_continue_body (run_of example_final_response))
              (after (delete_session_handler "sess_rs_k3x9q2ab") example_suspended)))
  = Some 404.
Proof.
  split; [reflexivity | ].
  destruct (deleted_session_cannot_continue example_suspended "sess_rs_k3x9q2ab"
              example_items (run_of example_final_response))
    as (_ & _ & _ & _ & _ & _ & _ & Hstatus & _).
  - discriminate.
  - exact Hstatus.
Defined.

Lemma stats_handler_eq (startTime : Z) (s : State) :
  stats_handler startTime s =
    (Ok {| st_uptime := clock s (ticks s) - startTime;
           st_activeSessions := size (sessions s);
           st_activeStreams := size (activeStreams s);
           st_providers :=
             List.filter (hasServerKey (fallbackConfig s))
               ["anthropic"; "openrouter"; "openai"; "openai-compatible";
                "openai-completions"; "bedrock"] |},
     set_ticks S s).
Proof. reflexivity. Qed.

(** What GET /v1/stats sees of a streaming round.  Registering the
    round's identifier, when it is not registered already, raises the
    reported number of active streams by one; once the round has finished,
    in whatever way, the number is what it was before the round.  The
    report itself only reads the clock: in particular it counts the
    sessions in the store without evicting any. *)
Theorem stats_count_streams_in_flight (startTime : Z) (config : Config) (s : State) :
  activeStreams s !! next_stream_id s = None ->
  let during := (register (next_stream_id s) s).2 in
  exists before : StatsResponse,
    stats_handler startTime s = (Ok before, set_ticks S s) /\
    st_activeSessions before = size (sessions s) /\
    (exists report, (stats_handler startTime during).1 = Ok report /\
                    st_activeStreams report = S (st_activeStreams before)) /\
    (forall (req : CompletionRequest) (run : StreamRun),
       exists report,
         (stats_handler startTime
            (after (stream_handler config (ParseSuccess req) run) s)).1 = Ok report /\
         st_activeStreams report = st_activeStreams before) /\
    (forall (req : ContextRequest) (run : ContextRun),
       exists report,
         (stats_handler startTime
            (after (context_stream_handler config (ContextParseSuccess req) run) s)).1
         = Ok report /\
         st_activeStreams report = st_activeStreams before).
Proof.
  intros Hfresh. cbv zeta. eexists. split; [apply stats_handler_eq | ].
  split; [reflexivity | ]. split; [ | split ].
  - eexists. rewrite stats_handler_eq. split; [reflexivity | ].
    cbn [st_activeStreams]. rewrite register_eq. simpl.
    apply map_size_insert_None. exact Hfresh.
  - intros req run. eexists. rewrite stats_handler_eq. split; [reflexivity | ].
    cbn [st_activeStreams]. unfold after, serve.
    destruct (stream_handler_closes config req run (set_reply (fun _ => fresh_reply) s))
      as (_ & Hreg & _).
    rewrite Hreg. f_equal. apply delete_id. exact Hfresh.
  - intros req run. eexists. rewrite stats_handler_eq. split; [reflexivity | ].
    cbn [st_activeStreams]. unfold after, serve.
    destruct (context_stream_handler_closes config req run
                (set_reply (fun _ => fresh_reply) s)) as (_ & Hreg & _).
    rewrite Hreg. f_equal. apply delete_id. exact Hfresh.
Qed.

Lemma stats_count_streams_in_flight_witness :
  activeStreams example_boot !! next_stream_id example_boot = None /\
  exists report,
    (stats_handler 0 (after (stream_handler example_config
                               (ParseSuccess example_completion_request)
                               (run_of example_tool_response)) example_boot)).1
    = Ok report /\
    st_activeStreams report = 0%nat.
Proof.
  assert (Hfresh : activeStreams example_boot !! next_stream_id example_boot = None)
    by reflexivity.
  split; [exact Hfresh | ].
  destruct (stats_count_streams_in_flight 0 example_config example_boot Hfresh)
    as (before & Hbefore & _ & _ & Hstream & _).
  destruct (Hstream example_completion_request (run_of example_tool_response))
    as (report & Hreport & Hcount).
  exists report. split; [exact Hreport | ]. rewrite Hcount.
  rewrite stats_handler_eq in Hbefore. injection Hbefore as <-. reflexivity.
Defined.

Lemma health_status_cases (values : list ProviderHealthStatus) :
  health_status values = "ok" \/ health_status values = "degraded".
Proof.
  unfold health_status. destruct (_ =? _)%nat; [left; reflexivity | ].
  destruct (_ <? _)%nat; [left | right]; reflexivity.
Qed.

Lemma health_kept_refl (s : State) : health_kept s s.
Proof. split; [reflexivity | intros p Hp; exact Hp]. Qed.

Lemma health_kept_trans (s1 s2 s3 : State) :
  health_kept s1 s2 -> health_kept s2 s3 -> health_kept s1 s3.
Proof.
  intros [Hf12 H12] [Hf23 H23]. split; [congruence | ].
  intros p Hp. apply H23, H12. exact Hp.
Qed.

Lemma health_kept_same (s s' : State) :
  fallbackConfig s' = fallbackConfig s -> providerHealth s' = providerHealth s ->
  health_kept s s'.
Proof. intros Hf Hh. split; [exact Hf | ]. intros p Hp. rewrite Hh. exact Hp. Qed.

Lemma health_kept_insert (s : State) (provider : ProviderName) (health : bool * Z) :
  health_kept s (set_providerHealth (insert provider health) s).
Proof.
  split; [reflexivity | ]. intros p Hp. simpl.
  destruct (decide (provider = p)) as [-> | Hne].
  - rewrite lookup_insert_eq. eexists. reflexivity.
  - rewrite lookup_insert_ne by exact Hne. exact Hp.
Qed.

Ltac health_kept_prim :=
  intros ?;
  first [ apply health_kept_insert
        | apply health_kept_same; reflexivity ].

Lemma route_keeps_health (config : Config) (request : Request) :
  respects health_kept (route config request).
Proof.
  pose proof health_kept_refl as Hr.
  pose proof health_kept_trans as Ht.
  destruct request; unfold route; respects_all; health_kept_prim.
Qed.

Lemma handle_all_keeps_health (config : Config) (requests : list Request) (s : State) :
  health_kept s (handle_all config requests s).
Proof.
  revert s. induction requests as [ | request rest IH]; intros s; simpl.
  - apply health_kept_refl.
  - eapply health_kept_trans; [ | apply IH ]. unfold after, serve.
    eapply health_kept_trans; [ | apply route_keeps_health ].
    apply health_kept_same; reflexivity.
Qed.

(** A failing completion request records its provider as unhealthy, and
    touches no other health record. *)
Lemma failing_completion_records (config : Config) (request : Request) (s : State) :
  failing_completion config (fallbackConfig s) request ->
  exists (provider : ProviderName) (t : Z),
    providerHealth (after (route config request) s)
    = <[provider := (false, t)]> (providerHealth s).
Proof.
  intros (req & outcome & e & -> & Hfail). unfold route, after.
  destruct (createAdapter (fallbackConfig s)
              (default (cfg_defaultProvider config) (cr_provider req))
              (cr_apiKey req) (cr_providerConfig req)) as [adapter | e'] eqn:Hcred.
  - destruct Hfail as [Hfail | ->]; [discriminate Hfail | ].
    rewrite (complete_handler_rejected config req s adapter e Hcred).
    eexists _, _. reflexivity.
  - rewrite (complete_handler_no_credentials config req s outcome e' Hcred).
    eexists _, _. reflexivity.
Qed.

Lemma failing_completions_keep_unhealthy (config : Config) (requests : list Request)
    (s : State) :
  Forall (failing_completion config (fallbackConfig s)) requests ->
  none_healthy s -> none_healthy (handle_all config requests s).
Proof.
  revert s. induction requests as [ | request rest IH]; intros s Hall Hnone; simpl.
  - exact Hnone.
  - apply Forall_cons in Hall. destruct Hall as [Hfail Hrest].
    destruct (failing_completion_records config request s Hfail) as (provider & t & Hrec).
    destruct (route_keeps_health config request (set_reply (fun _ => fresh_reply) s))
      as [Hfb _].
    apply IH.
    + unfold after, serve. rewrite Hfb. exact Hrest.
    + intros p t' Hp Hl. rewrite Hrec in Hl.
      destruct (decide (provider = p)) as [<- | Hne].
      * rewrite lookup_insert_eq in Hl. discriminate Hl.
      * rewrite lookup_insert_ne in Hl by exact Hne. exact (Hnone p t' Hp Hl).
Qed.

Lemma healthy_among (s : State) (providers : list ProviderName) :
  (forall p t, p ∈ providers -> providerHealth s !! p <> Some (true, t)) \/
  (exists p t, p ∈ providers /\ providerHealth s !! p = Some (true, t)).
Proof.
  induction providers as [ | q rest IH].
  - left. intros p t Hp. apply elem_of_nil in Hp. contradiction.
  - destruct (providerHealth s !! q) as [[[ | ] t] | ] eqn:Hq.
    + right. exists q, t. split; [apply elem_of_cons; left; reflexivity | exact Hq].
    + destruct IH as [Hnone | (p & t' & Hp & Hl)].
      * left. intros p t' Hp Hl. apply elem_of_cons in Hp. destruct Hp as [-> | Hp].
        -- rewrite Hq in Hl. discriminate Hl.
        -- exact (Hnone p t' Hp Hl).
      * right. exists p, t'. split; [apply elem_of_cons; right; exact Hp | exact Hl].
    + destruct IH as [Hnone | (p & t' & Hp & Hl)].
      * left. intros p t' Hp Hl. apply elem_of_cons in Hp. destruct Hp as [-> | Hp].
        -- rewrite Hq in Hl. discriminate Hl.
        -- exact (Hnone p t' Hp Hl).
      * right. exists p, t'. split; [apply elem_of_cons; right; exact Hp | exact Hl].
Qed.

(** With a record for an available provider, the health endpoint reports
    [degraded] exactly when none is recorded as healthy, and [ok]
    otherwise. *)
Lemma recorded_health_status (startTime : Z) (s : State) (provider : ProviderName) :
  provider ∈ getAvailableProviders -> is_Some (providerHealth s !! provider) ->
  exists h,
    (health_handler startTime s).1 = Ok h /\
    (hr_status h = "degraded" <-> none_healthy s) /\
    (hr_status h = "ok" <-> ~ none_healthy s).
Proof.
  intros Hprov Hrec. eexists. split; [rewrite health_handler_eq; reflexivity | ].
  assert (Hiff : health_status (map (recorded s) getAvailableProviders) = "degraded"
                 <-> none_healthy s).
  { rewrite (health_degraded_iff startTime s _ (f_equal fst (health_handler_eq startTime s))).
    split.
    - intros [_ Hall] p t Hp Hl. specialize (Hall p true t Hp Hl). discriminate Hall.
    - intros Hnone. split; [exists provider; split; [exact Hprov | exact Hrec] | ].
      intros p b t Hp Hl. destruct b; [ | reflexivity ]. exfalso. exact (Hnone p t Hp Hl). }
  cbn [hr_status]. split; [exact Hiff | ].
  destruct (health_status_cases (map (recorded s) getAvailableProviders)) as [H | H];
    rewrite H; rewrite H in Hiff.
  - split; [ | reflexivity ]. intros _ Hnone. apply Hiff in Hnone. discriminate Hnone.
  - split; [discriminate | ]. intros Hnot. exfalso. apply Hnot, Hiff. reflexivity.
Qed.

(** How a failed request shows in GET /health.  On a server where no
    available provider is recorded as healthy (in particular one without
    any server key, whose health map starts out empty and which reports
    [ok]), a completion request that fails for one of the six providers,
    be it because the request brought no usable credentials or because
    the collaborator rejected the call, leaves a health record for that
    provider, and the health endpoint reports [degraded].  It keeps doing
    so: whatever requests the server handles afterwards, the endpoint
    reports [degraded] exactly as long as no available provider is
    recorded as healthy, and [ok] otherwise; after any number of further
    completion requests that fail it still reports [degraded]; and it
    reports [ok] again right after a completion request, from any client
    and for any of the six providers, whose own credentials resolve and
    whose call succeeds. *)
Theorem failed_request_degrades_health (config : Config) (req : CompletionRequest)
    (outcome : Result NormalizedResponse) (e : Thrown) (startTime : Z) (s : State) :
  let provider := default (cfg_defaultProvider config) (cr_provider req) in
  let credentials :=
    createAdapter (fallbackConfig s) provider (cr_apiKey req) (cr_providerConfig req) in
  provider ∈ getAvailableProviders ->
  (forall p t, p ∈ getAvailableProviders -> providerHealth s !! p <> Some (true, t)) ->
  credentials = Throw e \/ ((exists adapter, credentials = Ok adapter) /\ outcome = Throw e) ->
  let s' := after (complete_handler config (ParseSuccess req) outcome) s in
  (exists h, (health_handler startTime s').1 = Ok h /\ hr_status h = "degraded") /\
  (providerHealth s = ∅ ->
   exists h, (health_handler startTime s).1 = Ok h /\ hr_status h = "ok") /\
  (forall requests : list Request,
     let later := handle_all config requests s' in
     exists h,
       (health_handler startTime later).1 = Ok h /\
       (hr_status h = "degraded" <->
        forall p t, p ∈ getAvailableProviders -> providerHealth later !! p <> Some (true, t)) /\
       (hr_status h = "ok" <->
        exists p t, p ∈ getAvailableProviders /\ providerHealth later !! p = Some (true, t)) /\
       (Forall (failing_completion config (fallbackConfig s)) requests ->
        hr_status h = "degraded")) /\
  (forall (requests : list Request) (req' : CompletionRequest) (adapter : Adapter)
          (response : NormalizedResponse),
     let later := handle_all config requests s' in
     let provider' := default (cfg_defaultProvider config) (cr_provider req') in
     provider' ∈ getAvailableProviders ->
     createAdapter (fallbackConfig s) provider' (cr_apiKey req') (cr_providerConfig req')
       = Ok adapter ->
     exists h,
       (health_handler startTime
          (after (complete_handler config (ParseSuccess req') (Ok response)) later)).1
       = Ok h /\
       hr_status h = "ok").
Proof.
  cbv zeta. intros Hprov Hnone Hfail.
  set (provider := default (cfg_defaultProvider config) (cr_provider req)) in *.
  set (s' := after (complete_handler config (ParseSuccess req) outcome) s).
  assert (Hhealth : exists t, providerHealth s' = <[provider := (false, t)]> (providerHealth s)).
  { unfold s', after. destruct Hfail as [Hcred | [[adapter Hcred] ->]].
    - rewrite (complete_handler_no_credentials config req s outcome e Hcred).
      eexists. reflexivity.
    - rewrite (complete_handler_rejected config req s adapter e Hcred).
      eexists. reflexivity. }
  destruct Hhealth as [t Hhealth].
  assert (Hfb : fallbackConfig s' = fallbackConfig s).
  { destruct (route_keeps_health config (PostComplete (ParseSuccess req) outcome)
                (set_reply (fun _ => fresh_reply) s)) as [H _]. exact H. }
  assert (Hrec : is_Some (providerHealth s' !! provider)).
  { rewrite Hhealth, lookup_insert_eq. eexists. reflexivity. }
  assert (Hnone' : none_healthy s').
  { intros p t' Hp Hl. rewrite Hhealth in Hl.
    destruct (decide (provider = p)) as [<- | Hne].
    - rewrite lookup_insert_eq in Hl. discriminate Hl.
    - rewrite lookup_insert_ne in Hl by exact Hne. exact (Hnone p t' Hp Hl). }
  split; [ | split; [ | split ] ].
  - destruct (recorded_health_status startTime s' provider Hprov Hrec)
      as (h & Hh & Hdegraded & _).
    exists h. split; [exact Hh | ]. apply Hdegraded. exact Hnone'.
  - intros Hempty. eexists. split; [rewrite health_handler_eq; reflexivity | ].
    cbn [hr_status].
    destruct (health_status_cases (map (recorded s) getAvailableProviders)) as [H | H];
      [exact H | exfalso].
    apply health_status_degraded in H. destruct H as [(v & Hv & Hc) _].
    apply List.in_map_iff in Hv. destruct Hv as (p & <- & _).
    unfold recorded in Hc. rewrite Hempty, lookup_empty in Hc. discriminate Hc.
  - intros requests.
    destruct (handle_all_keeps_health config requests s') as [_ Hkept].
    destruct (recorded_health_status startTime (handle_all config requests s') provider
                Hprov (Hkept provider Hrec)) as (h & Hh & Hdegraded & Hok).
    exists h. split; [exact Hh | ]. split; [exact Hdegraded | ]. split.
    + rewrite Hok. split.
      * intros Hnot.
        destruct (healthy_among (handle_all config requests s') getAvailableProviders)
          as [Hno | Hex]; [exfalso; exact (Hnot Hno) | exact Hex].
      * intros (p & t' & Hp & Hl) Hnone''. exact (Hnone'' p t' Hp Hl).
    + intros Hall. apply Hdegraded.
      apply failing_completions_keep_unhealthy; [rewrite Hfb; exact Hall | exact Hnone'].
  - intros requests req' adapter response Hprov' Had.
    destruct (handle_all_keeps_health config requests s') as [Hfb' _].
    set (later := handle_all config requests s') in *.
    assert (Had' : createAdapter (fallbackConfig later)
                     (default (cfg_defaultProvider config) (cr_provider req'))
                     (cr_apiKey req') (cr_providerConfig req') = Ok adapter)
      by (rewrite Hfb', Hfb; exact Had).
    assert (Hafter : providerHealth
                       (after (complete_handler config (ParseSuccess req') (Ok response)) later)
                     !! default (cfg_defaultProvider config) (cr_provider req')
                     = Some (true, clock later (1 + ticks later)%nat)).
    { unfold after. rewrite (complete_handler_ok config req' later adapter response Had').
      cbn [snd set_reply set_ticks set_providerHealth providerHealth].
      apply lookup_insert_eq. }
    destruct (recorded_health_status startTime
                (after (complete_handler config (ParseSuccess req') (Ok response)) later)
                _ Hprov' (ex_intro _ _ Hafter)) as (h & Hh & _ & Hok).
    exists h. split; [exact Hh | ]. apply Hok. intros Hnone''.
    exact (Hnone'' _ _ Hprov' Hafter).
Qed.

Lemma failed_request_degrades_health_witness :
  (exists h, (health_handler 0 (boot keyless_config example_clock example_random)).1 = Ok h /\
             hr_status h = "ok") /\
  (exists h,
     (health_handler 0
        (after (complete_handler keyless_config (ParseSuccess example_completion_request)
                  (Ok example_final_response))
           (boot keyless_config example_clock example_random))).1 = Ok h /\
     hr_status h = "degraded") /\
  (exists h,
     (health_handler 0
        (handle_all keyless_config
           [PostComplete (ParseSuccess example_completion_request)
              (Ok example_final_response);
            PostComplete (ParseSuccess example_byok_request)
              (Throw (ErrorObject "Overloaded" None))]
           (after (complete_handler keyless_config (ParseSuccess example_completion_request)
                     (Ok example_final_response))
              (boot keyless_config example_clock example_random)))).1 = Ok h /\
     hr_status h = "degraded") /\
  (exists h,
     (health_handler 0
        (after (complete_handler keyless_config (ParseSuccess example_byok_request)
                  (Ok example_final_response))
           (after (complete_handler keyless_config (ParseSuccess example_completion_request)
                     (Ok example_final_response))
              (boot keyless_config example_clock example_random)))).1 = Ok h /\
     hr_status h = "ok").
Proof.
  destruct (failed_request_degrades_health keyless_config example_completion_request
              (Ok example_final_response)
              (ErrorObject
                 "No API key for Anthropic. Provide apiKey in request or configure ANTHROPIC_API_KEY."
                 None)
              0 (boot keyless_config example_clock example_random))
    as (Hdegraded & Hok & Hlater & Hrecovers).
  - unfold getAvailableProviders. simpl. rewrite !elem_of_cons. left. reflexivity.
  - intros p t _ H. simpl in H. rewrite lookup_empty in H. discriminate H.
  - left. reflexivity.
  - split; [apply Hok; reflexivity | ]. split; [exact Hdegraded | ]. split.
    { destruct (Hlater [PostComplete (ParseSuccess example_completion_request)
                          (Ok example_final_response);
                        PostComplete (ParseSuccess example_byok_request)
                          (Throw (ErrorObject "Overloaded" None))])
        as (h & Hh & _ & _ & Hfailing).
      exists h. split; [exact Hh | ]. apply Hfailing.
      apply Forall_cons. split.
      - eexists _, _, _. split; [reflexivity | left; reflexivity].
      - apply Forall_cons. split; [ | apply Forall_nil; exact I ].
        eexists _, _, _. split; [reflexivity | right; reflexivity]. }
    apply (Hrecovers [] example_byok_request (AnthropicAdapter "sk-client")
             example_final_response).
    + unfold getAvailableProviders. simpl. rewrite !elem_of_cons. left. reflexivity.
    + reflexivity.
Defined.

(* ===================================================================== *)
(** ** What start-up announces *)
(* ===================================================================== *)

Lemma initializeProviders_fallbackConfig (config : Config) (s : State) :
  fallbackConfig (initializeProviders config s).2 = initializeProviders_fallback config.
Proof.
  rewrite initializeProviders_eq.
  destruct (for_of_track
              ["anthropic"; "openrouter"; "openai"; "openai-compatible"; "openai-completions";
               "bedrock"]
              (set_fallbackConfig (fun _ => initializeProviders_fallback config) s))
    as (_ & Hfb & _).
  exact Hfb.
Qed.

(** [validateConfig] and [initializeProviders] agree on what is
    configured.  The first line that [validateConfig] writes lists
    exactly the providers that [getConfiguredProviders] returns once
    [initializeProviders] has run on the same configuration, in the same
    order, or says that none is configured when that list is empty; and
    for a default provider among the six available ones it adds the note
    about missing fallback credentials exactly when that provider has no
    server key. *)
Theorem validateConfig_agrees_with_providers (config : Config) (s : State) :
  let s' := (initializeProviders config s).2 in
  exists configured : list ProviderName,
    getConfiguredProviders s' = (Ok configured, s') /\
    hd "" (validateConfig config) =
      (if (length configured =? 0)%nat then
         "NOTE: No fallback provider keys configured. Running in pure BYOK mode - clients must provide their own credentials."
       else "Server fallback providers: " +:+ String.concat ", " configured) /\
    (length (validateConfig config) = 1%nat \/ length (validateConfig config) = 2%nat) /\
    (cfg_defaultProvider config ∈ getAvailableProviders ->
     (length (validateConfig config) = 2%nat <->
      hasServerKey (fallbackConfig s') (cfg_defaultProvider config) = false)).
Proof.
  cbv zeta. eexists. split; [reflexivity | ].
  rewrite initializeProviders_fallbackConfig.
  unfold validateConfig, hasServerKey, initializeProviders_fallback. cbv zeta.
  cbn [List.filter].
  cbn [String.eqb Ascii.eqb Bool.eqb fb_anthropic_apiKey fb_openrouter_apiKey
       fb_openai_apiKey fb_compatible_baseUrl fb_completions_baseUrl
       fb_bedrock_accessKeyId fb_bedrock_secretAccessKey].
  split; [ | split ].
  - destruct (has_fallback _ _); cbn [negb hd];
      destruct (truthy_str (cfg_anthropicApiKey config)),
               (truthy_str (cfg_openrouterApiKey config)),
               (truthy_str (cfg_openaiApiKey config)),
               (truthy_str (cfg_openaiCompatibleBaseUrl config)),
               (truthy_str (cfg_openaiCompletionsBaseUrl config)),
               (truthy_str (cfg_bedrockAccessKeyId config)),
               (truthy_str (cfg_bedrockSecretAccessKey config));
      reflexivity.
  - destruct (has_fallback _ _); [left | right]; reflexivity.
  - intros Hin. unfold getAvailableProviders in Hin. rewrite !elem_of_cons in Hin.
    destruct Hin as [-> | [-> | [-> | [-> | [-> | [-> | Hin]]]]]];
      [ .. | apply elem_of_nil in Hin; contradiction ];
      cbn [has_fallback String.eqb Ascii.eqb Bool.eqb];
      match goal with
      | |- context [negb ?b] => destruct b
      end; cbn [negb length]; split; intros H; first [reflexivity | discriminate H].
Qed.
